(** * Task orchestration engine of the IT admin agent

    Shallow embedding of [agent/orchestrator.py] (task store, approval and
    cancellation, the per-task worker), [agent/task_manager.py] (plan reuse
    and parameter similarity), [task_planner/planner.py] (fallback plan) and
    the [execute_step] entry points of the registered agents.

    Python dictionaries used as records become Rocq records, the task map
    becomes a [gmap], step lists are lists addressed by index, exceptions
    are values of [exn] threaded through a state-and-error monad, and
    [float] is IEEE binary64 (Rocq's primitive floats). *)

From Stdlib Require Import ZArith Floats.
From stdpp Require Import gmap strings pretty list fin_maps.

Set Default Proof Using "Type".
Set Warnings "-register-all".
Open Scope string_scope.
Open Scope nat_scope.

(** ** Python values, exceptions *)

(** Values found in parameter mappings and result payloads. *)
Inductive pyval :=
| PyNone
| PyBool (b : bool)
| PyInt (z : Z)
| PyStr (s : string)
| PyList (items : list pyval).

(** Structural equality, with the induction on nested lists written out. *)
Fixpoint pyval_beq (v w : pyval) : bool :=
  match v, w with
  | PyNone, PyNone => true
  | PyBool a, PyBool b => bool_decide (a = b)
  | PyInt a, PyInt b => bool_decide (a = b)
  | PyStr a, PyStr b => bool_decide (a = b)
  | PyList l, PyList l' =>
      (fix go (l l' : list pyval) : bool :=
         match l, l' with
         | [], [] => true
         | x :: l, y :: l' => pyval_beq x y && go l l'
         | _, _ => false
         end) l l'
  | _, _ => false
  end.

#[global] Instance pyval_eq_dec : EqDecision pyval.
Proof.
  assert (beq_eq : ∀ v w, pyval_beq v w = true ↔ v = w).
  { intros v.
    induction v as [| | | |items IH] using
      (fix ind (P : pyval → Prop) (h0 : P PyNone) (h1 : ∀ b, P (PyBool b))
           (h2 : ∀ z, P (PyInt z)) (h3 : ∀ s, P (PyStr s))
           (h4 : ∀ l, Forall P l → P (PyList l)) (v : pyval) {struct v} : P v :=
         match v with
         | PyNone => h0 | PyBool b => h1 b | PyInt z => h2 z | PyStr s => h3 s
         | PyList l =>
             h4 l ((fix all (l : list pyval) : Forall P l :=
                      match l with
                      | [] => Forall_nil_2 P
                      | x :: l => Forall_cons_2 P x l (ind P h0 h1 h2 h3 h4 x) (all l)
                      end) l)
         end);
      intros [| | | |items']; simpl; try (split; [done | congruence]);
      try (rewrite bool_decide_eq_true; split; congruence).
    revert items'. induction IH as [|x l Hx _ IHl]; intros [|y l'];
      try (split; [done | congruence]).
    rewrite andb_true_iff, Hx, (IHl l').
    split; [intros [-> ?]; congruence | intros [= -> ->]; done]. }
  intros v w. destruct (pyval_beq v w) eqn:E.
  - left. by apply beq_eq.
  - right. intros H. apply beq_eq in H. congruence.
Defined.

(** Python's [==] on these values: [bool] is a subclass of [int], so
    [True == 1] and [False == 0]; lists compare element by element. *)
Definition py_int_view (v : pyval) : option Z :=
  match v with
  | PyBool true => Some 1%Z
  | PyBool false => Some 0%Z
  | PyInt z => Some z
  | _ => None
  end.

Fixpoint py_eqb (v w : pyval) : bool :=
  match v, w with
  | PyList l, PyList l' =>
      (fix go (l l' : list pyval) : bool :=
         match l, l' with
         | [], [] => true
         | x :: l, y :: l' => py_eqb x y && go l l'
         | _, _ => false
         end) l l'
  | PyNone, PyNone => true
  | PyStr a, PyStr b => bool_decide (a = b)
  | _, _ =>
      match py_int_view v, py_int_view w with
      | Some a, Some b => bool_decide (a = b)
      | _, _ => false
      end
  end.

Inductive exn :=
| KeyError (msg : string)
| ValueError (msg : string)
| IndexError (msg : string)
| TypeError (msg : string)
| RuntimeError (msg : string).

#[global] Instance exn_eq_dec : EqDecision exn.
Proof. solve_decision. Defined.

(** [repr] of a string, read as the sequence of its code points, all
    below 256. The quote is the apostrophe, or the double quote when the
    text has an apostrophe and no double quote. The quote in use and the
    backslash get a backslash in front; tab, newline and carriage return
    are written with their letter; the other characters that are not
    printable (those below the space, 127 to 160, and 173) are written
    as a backslash, [x] and two hexadecimal digits. *)
Definition hex_digit (n : N) : Ascii.ascii :=
  if (n <? 10)%N then Ascii.ascii_of_N (48 + n) else Ascii.ascii_of_N (87 + n).

Definition backslash : Ascii.ascii := Ascii.ascii_of_N 92.
Definition apostrophe : Ascii.ascii := Ascii.ascii_of_N 39.
Definition double_quote : Ascii.ascii := Ascii.ascii_of_N 34.

Definition printable (n : N) : bool :=
  (32 <=? n)%N && negb (n =? 127)%N
  && negb ((128 <=? n)%N && (n <=? 160)%N) && negb (n =? 173)%N.

Definition repr_char (quote c : Ascii.ascii) : string :=
  let n := Ascii.N_of_ascii c in
  if bool_decide (c = quote) || bool_decide (c = backslash)
  then String.String backslash (String.String c "")
  else if (n =? 9)%N then String.String backslash "t"
  else if (n =? 10)%N then String.String backslash "n"
  else if (n =? 13)%N then String.String backslash "r"
  else if printable n then String.String c ""
  else String.String backslash
         (String.String (Ascii.ascii_of_N 120)
            (String.String (hex_digit (n / 16)) (String.String (hex_digit (n mod 16)) ""))).

Fixpoint repr_chars (quote : Ascii.ascii) (s : string) : string :=
  match s with
  | String.EmptyString => ""
  | String.String c s => repr_char quote c ++ repr_chars quote s
  end.

Fixpoint has_char (c : Ascii.ascii) (s : string) : bool :=
  match s with
  | String.EmptyString => false
  | String.String c' s => bool_decide (c' = c) || has_char c s
  end.

Definition py_repr (s : string) : string :=
  let quote :=
    if has_char apostrophe s && negb (has_char double_quote s)
    then double_quote else apostrophe in
  String.String quote (repr_chars quote s ++ String.String quote "").

(** A text whose [repr] is the text between apostrophes. *)
Fixpoint plain_text (s : string) : bool :=
  match s with
  | String.EmptyString => true
  | String.String c s =>
      printable (Ascii.N_of_ascii c)
      && negb (bool_decide (c = apostrophe))
      && negb (bool_decide (c = backslash))
      && plain_text s
  end.

(** [str(e)]: a [KeyError] prints the repr of its argument, the other
    exceptions their message. *)
Definition str_exn (e : exn) : string :=
  match e with
  | KeyError m => py_repr m
  | ValueError m | IndexError m | TypeError m | RuntimeError m => m
  end.

(** ** [TaskStatus] *)

Inductive TaskStatus :=
| PENDING | PLANNING | EXECUTING | SUCCEEDED | FAILED | CANCELLED
| WAITING_FOR_APPROVAL.

Definition value (s : TaskStatus) : string :=
  match s with
  | PENDING => "pending"
  | PLANNING => "planning"
  | EXECUTING => "executing"
  | SUCCEEDED => "succeeded"
  | FAILED => "failed"
  | CANCELLED => "cancelled"
  | WAITING_FOR_APPROVAL => "waiting_for_approval"
  end.

(** The enum constructor [TaskStatus(status)]: lookup by value, [None]
    standing for the [ValueError] it raises. *)
Definition TaskStatus_of (status : string) : option TaskStatus :=
  if decide (status = "pending") then Some PENDING
  else if decide (status = "planning") then Some PLANNING
  else if decide (status = "executing") then Some EXECUTING
  else if decide (status = "succeeded") then Some SUCCEEDED
  else if decide (status = "failed") then Some FAILED
  else if decide (status = "cancelled") then Some CANCELLED
  else if decide (status = "waiting_for_approval") then Some WAITING_FOR_APPROVAL
  else None.

(** ** Records of the task store *)

Inductive details :=
| DetNone
| DetStr (s : string)
| DetDict (d : gmap string pyval).

(** What [execute_step] returns: [{"status", "message", "details"}]. *)
Record StepResult := mkStepResult {
  r_status : string;
  r_message : string;
  r_details : details
}.

Record Step := mkStep {
  s_description : string;
  s_status : string;
  s_created_at : nat;
  s_updated_at : nat;
  s_result : option StepResult;
  s_error : option string
}.

Record Task := mkTask {
  t_id : string;
  t_type : string;
  t_description : string;
  t_parameters : gmap string pyval;
  t_priority : string;
  t_status : string;
  t_created_at : nat;
  t_updated_at : nat;
  t_steps : list Step;
  t_result : option pyval;
  t_error : option string
}.

(** [self.tasks], [self.active_tasks] (the thread objects are dropped,
    only the keys are kept) and the wall clock read by [_get_timestamp]. *)
Record Orchestrator := mkOrch {
  tasks : gmap string Task;
  active_tasks : gset string;
  clock : nat
}.

Definition set_status (status : string) (now : nat) (t : Task) : Task :=
  mkTask (t_id t) (t_type t) (t_description t) (t_parameters t) (t_priority t)
    status (t_created_at t) now (t_steps t) (t_result t) (t_error t).

Definition set_result (result : option pyval) (now : nat) (t : Task) : Task :=
  mkTask (t_id t) (t_type t) (t_description t) (t_parameters t) (t_priority t)
    (t_status t) (t_created_at t) now (t_steps t) result (t_error t).

Definition set_error (error : option string) (now : nat) (t : Task) : Task :=
  mkTask (t_id t) (t_type t) (t_description t) (t_parameters t) (t_priority t)
    (t_status t) (t_created_at t) now (t_steps t) (t_result t) error.

Definition set_steps (steps : list Step) (now : nat) (t : Task) : Task :=
  mkTask (t_id t) (t_type t) (t_description t) (t_parameters t) (t_priority t)
    (t_status t) (t_created_at t) now steps (t_result t) (t_error t).

(** ** State and exception monad

    A Python call either returns or raises, and keeps whatever it wrote to
    the orchestrator before raising. *)

Definition M (A : Type) : Type := Orchestrator → (exn + A) * Orchestrator.

#[global] Instance M_ret : MRet M := λ A a o, (inr a, o).
#[global] Instance M_bind : MBind M := λ A B k m o,
  match m o with
  | (inl e, o') => (inl e, o')
  | (inr a, o') => k a o'
  end.

Definition raise {A} (e : exn) : M A := λ o, (inl e, o).
Definition get_tasks : M (gmap string Task) := λ o, (inr (tasks o), o).
Definition put_task (task_id : string) (t : Task) : M unit := λ o,
  (inr tt, mkOrch (<[task_id := t]> (tasks o)) (active_tasks o) (clock o)).

(** [datetime.now()]: reads the clock, which never runs backwards. *)
Definition _get_timestamp : M nat := λ o,
  (inr (clock o), mkOrch (tasks o) (active_tasks o) (S (clock o))).

Definition not_found {A} (task_id : string) : M A :=
  raise (KeyError ("Task " ++ task_id ++ " not found")).

(** [self.tasks[task_id]] behind the [task_id not in self.tasks] guard. *)
Definition the_task (task_id : string) : M Task :=
  ts ← get_tasks;
  match ts !! task_id with
  | Some t => mret t
  | None => not_found task_id
  end.

(** ** Task store operations *)

Definition get_task (task_id : string) : M Task := the_task task_id.

(** [get_all_tasks]. The list comes in the order of the keys of the
    map; the order of insertion, in which the source yields the tasks,
    is not kept by the store and nothing below depends on it. *)
Definition get_all_tasks (status_filter : option string) : M (list Task) :=
  ts ← get_tasks;
  let all := (map_to_list ts).*2 in
  mret (match status_filter with
        | Some f =>
            if decide (f = "") then all
            else filter (λ t, t_status t = f) all
        | None => all
        end).

Definition update_task_status (task_id status : string) : M unit :=
  match TaskStatus_of status with
  | None => raise (ValueError ("Invalid task status: " ++ status))
  | Some _ =>
      t ← the_task task_id;
      now ← _get_timestamp;
      put_task task_id (set_status status now t)
  end.

Definition add_task_result (task_id : string) (result : option pyval) : M unit :=
  t ← the_task task_id;
  now ← _get_timestamp;
  put_task task_id (set_result result now t).

Definition add_task_error (task_id error : string) : M unit :=
  t ← the_task task_id;
  now ← _get_timestamp;
  put_task task_id (set_error (Some error) now t).

Definition add_task_step (task_id step_description step_status : string) : M nat :=
  t ← the_task task_id;
  c ← _get_timestamp;
  u ← _get_timestamp;
  let step := mkStep step_description step_status c u None None in
  now ← _get_timestamp;
  let steps := (t_steps t ++ [step])%list in
  _ ← put_task task_id (set_steps steps now t);
  mret (length steps - 1).

(** The three optional arguments of [update_task_step] overwrite a field
    only when they are not [None]. *)
Definition update_step (status : option string) (result : option StepResult)
    (error : option string) (now : nat) (s : Step) : Step :=
  mkStep (s_description s)
    (default (s_status s) status)
    (s_created_at s) now
    (match result with Some r => Some r | None => s_result s end)
    (match error with Some e => Some e | None => s_error s end).

Definition update_task_step (task_id : string) (step_index : nat)
    (status : option string) (result : option StepResult)
    (error : option string) : M unit :=
  t ← the_task task_id;
  match t_steps t !! step_index with
  | None =>
      raise (IndexError ("Step index " ++ pretty step_index
                         ++ " out of range for task " ++ task_id))
  | Some s =>
      su ← _get_timestamp;
      now ← _get_timestamp;
      put_task task_id
        (set_steps (<[step_index := update_step status result error su s]> (t_steps t)) now t)
  end.

Definition approve_task (task_id : string) : M unit :=
  t ← the_task task_id;
  if decide (t_status t = value WAITING_FOR_APPROVAL)
  then update_task_status task_id (value EXECUTING)
  else raise (ValueError ("Task " ++ task_id ++ " is not waiting for approval")).

Definition pop_active (task_id : string) : M unit := λ o,
  (inr tt, mkOrch (tasks o) (active_tasks o ∖ {[task_id]}) (clock o)).

Definition cancel_task (task_id : string) : M unit :=
  _ ← the_task task_id;
  _ ← update_task_status task_id (value CANCELLED);
  pop_active task_id.

(** [_start_task_execution], as far as the store sees it: the worker
    thread is registered. *)
Definition _start_task_execution (task_id : string) : M unit := λ o,
  (inr tt, mkOrch (tasks o) ({[task_id]} ∪ active_tasks o) (clock o)).

(** [create_task]; the identifier drawn from [uuid.uuid4()] is an
    argument. *)
Definition create_task (task_id task_type description : string)
    (parameters : gmap string pyval) (priority : string) : M string :=
  c ← _get_timestamp;
  u ← _get_timestamp;
  _ ← put_task task_id
        (mkTask task_id task_type description parameters priority
           (value PENDING) c u [] None None);
  _ ← _start_task_execution task_id;
  mret task_id.

(** ** Plans *)

(** A step of a plan. The worker reads [agent_type], [requires_approval]
    and [critical] with [dict.get] and a default, so they may be absent. *)
Record PlanStep := mkPlanStep {
  p_description : string;
  p_agent_type : option string;
  p_requires_approval : option bool;
  p_critical : option bool;
  p_parameters : option (gmap string pyval)
}.

Record Plan := mkPlan {
  plan_task_id : string;
  plan_summary : string;
  plan_steps : list PlanStep
}.

Definition full_step (description agent_type : string)
    (requires_approval critical : bool) (parameters : gmap string pyval) : PlanStep :=
  mkPlanStep description (Some agent_type) (Some requires_approval)
    (Some critical) (Some parameters).

(** Tasks as the knowledge base returns them. *)
Record KBStep := mkKBStep {
  kbs_description : string;
  kbs_status : option string;
  kbs_agent_type : option string
}.

Record KBTask := mkKBTask {
  kb_id : string;
  kb_type : string;
  kb_status : string;
  kb_parameters : gmap string pyval;
  kb_steps : list KBStep
}.

(** An agent, seen through its one capability [execute_step(task, step,
    step_index)]: it returns a result or raises. *)
Definition Agent : Type := Task → PlanStep → nat → exn + StepResult.

(** The collaborators the orchestrator consumes and the configuration. *)
Record Env := mkEnv {
  (** [knowledge_base.search_similar_tasks(description)] *)
  search_similar_tasks : string → exn + list KBTask;
  (** [knowledge_base.get_task(task_id)] *)
  kb_get_task : string → exn + option KBTask;
  (** [planning_chain.run] followed by [parser.parse] and [plan.dict()] *)
  planning_chain : Task → exn + Plan;
  (** [config.get('reuse_similar_plans', True)] of the task manager *)
  reuse_similar_plans : bool;
  (** [config.get('default_checks')] of the planner *)
  default_checks : list string;
  (** [self.agents] *)
  agents : gmap string Agent;
  (** [learning_agent.learn_from_task(task_id, task, knowledge_base)] *)
  learn_from_task : string → Task → exn + unit
}.

(** ** [TaskPlanner] *)

Definition _add_default_checks (checks : list string) (plan : Plan) : Plan :=
  let s1 := if bool_decide ("syntax_validation" ∈ checks)
            then [full_step "Perform syntax validation on executed commands"
                    "validation" false false {["type" := PyStr "syntax"]}]
            else [] in
  let s2 := if bool_decide ("security_scan" ∈ checks)
            then [full_step "Perform security scan on changes"
                    "validation" false true {["type" := PyStr "security"]}]
            else [] in
  let s3 := if bool_decide ("impact_assessment" ∈ checks)
            then [full_step "Assess impact of changes"
                    "diagnostics" false false {["type" := PyStr "impact"]}]
            else [] in
  mkPlan (plan_task_id plan) (plan_summary plan)
    (plan_steps plan ++ s1 ++ s2 ++ s3)%list.

Definition fallback_plan (task : Task) : Plan :=
  mkPlan (t_id task)
    ("Basic plan for " ++ t_type task ++ " (fallback due to planning error)")
    [ full_step ("Execute " ++ t_type task ++ " operation")
        "execution" true true (t_parameters task);
      full_step ("Verify " ++ t_type task ++ " operation result")
        "validation" false false ∅ ].

(** [create_plan]: everything after the first log line sits in a [try]
    whose handler returns the fallback plan. *)
Definition create_plan (env : Env) (task : Task) : Plan :=
  match planning_chain env task with
  | inr plan =>
      let plan_dict := mkPlan (t_id task) (plan_summary plan) (plan_steps plan) in
      match default_checks env with
      | [] => plan_dict
      | checks => _add_default_checks checks plan_dict
      end
  | inl _ => fallback_plan task
  end.

(** ** [TaskManagerAgent] *)

Definition float_of_nat (n : nat) : float :=
  PrimFloat.of_uint63 (Uint63.of_Z (Z.of_nat n)).

(** The literals [0.6], [0.4] and [0.8] as the binary64 values Python
    reads them as. *)
Definition f0_6 : float := 0x1.3333333333333p-1%float.
Definition f0_4 : float := 0x1.999999999999ap-2%float.
Definition f0_8 : float := 0x1.999999999999ap-1%float.

Definition shared_keys (params1 params2 : gmap string pyval) : gset string :=
  dom params1 ∩ dom params2.
Definition all_keys (params1 params2 : gmap string pyval) : gset string :=
  dom params1 ∪ dom params2.

(** [params1[key] == params2[key]] for a shared key. *)
Definition value_match (params1 params2 : gmap string pyval) (key : string) : bool :=
  match params1 !! key, params2 !! key with
  | Some v, Some w => py_eqb v w
  | _, _ => false
  end.

(** The loop counting the matches over the shared keys. *)
Definition value_matches (params1 params2 : gmap string pyval) : nat :=
  length (filter (λ key, value_match params1 params2 key = true)
            (elements (shared_keys params1 params2))).

Definition _parameter_similarity (params1 params2 : gmap string pyval) : float :=
  if bool_decide (params1 = ∅) && bool_decide (params2 = ∅) then 1%float
  else if bool_decide (params1 = ∅) || bool_decide (params2 = ∅) then 0%float
  else
    let shared := shared_keys params1 params2 in
    let all := all_keys params1 params2 in
    if bool_decide (shared = ∅) then 0%float
    else
      let key_similarity := (float_of_nat (size shared) / float_of_nat (size all))%float in
      let value_similarity :=
        (float_of_nat (value_matches params1 params2) / float_of_nat (size shared))%float in
      (f0_6 * key_similarity + f0_4 * value_similarity)%float.

(** The test of the reuse loop in [plan_task]. *)
Definition reusable (task : Task) (similar_task : KBTask) : bool :=
  bool_decide (kb_type similar_task = t_type task)
  && bool_decide (kb_status similar_task = "succeeded")
  && PrimFloat.ltb f0_8
       (_parameter_similarity (t_parameters task) (kb_parameters similar_task)).

Fixpoint enumerate_from {A} (i : nat) (l : list A) : list (nat * A) :=
  match l with
  | [] => []
  | x :: l => (i, x) :: enumerate_from (S i) l
  end.

Definition _create_plan_from_similar_task (current_task : Task)
    (similar_task : KBTask) : Plan :=
  let steps :=
    omap (λ '(i, step),
      if bool_decide (kbs_status step = Some "succeeded")
      then Some (full_step (kbs_description step)
                   (default "execution" (kbs_agent_type step))
                   (bool_decide (i = 0)) (bool_decide (i = 0)) ∅)
      else None) (enumerate_from 0 (kb_steps similar_task)) in
  mkPlan (t_id current_task)
    ("Plan for " ++ t_type current_task ++ " based on similar task "
       ++ kb_id similar_task)
    steps.

(** [plan_task]: the first reusable similar task wins; its identifier must
    be truthy, and the knowledge base must still know it. *)
Definition plan_task (env : Env) (task : Task) : exn + Plan :=
  match search_similar_tasks env (t_description task) with
  | inl e => inl e
  | inr similar_tasks =>
      let similar_task_id :=
        if reuse_similar_plans env
        then kb_id <$> head (filter (λ s, reusable task s = true) similar_tasks)
        else None in
      match similar_task_id with
      | Some id =>
          if bool_decide (id = "") then inr (create_plan env task)
          else
            match kb_get_task env id with
            | inl e => inl e
            | inr None =>
                inl (RuntimeError "'NoneType' object has no attribute 'get'")
            | inr (Some similar_task) =>
                inr (_create_plan_from_similar_task task similar_task)
            end
      | None => inr (create_plan env task)
      end
  end.

(** [plan_task] also files the plan in the agent's own [task_plans]
    dictionary, which nothing in the orchestrator reads. *)

Definition TaskManagerAgent_execute_step : Agent := λ task step step_index,
  inr (mkStepResult "success" "Task manager coordinated step execution" DetNone).

(** ** The other registered agents *)

(** What the execution agent runs commands, scripts and playbooks on:
    [_execute_local_command], [_execute_remote_command] and the like, as
    functions of the step parameters. *)
Record Backends := mkBackends {
  exec_command : gmap string pyval → exn + StepResult;
  exec_script : gmap string pyval → exn + StepResult;
  exec_playbook : gmap string pyval → exn + StepResult
}.

Definition unknown_execution_type : StepResult :=
  mkStepResult "error" "Unknown execution type"
    (DetStr "The step parameters must include 'command', 'script', or 'ansible_playbook'").

Definition ExecutionAgent_execute_step (b : Backends) : Agent := λ task step step_index,
  let params := default ∅ (p_parameters step) in
  if bool_decide (is_Some (params !! "command")) then exec_command b params
  else if bool_decide (is_Some (params !! "script")) then exec_script b params
  else if bool_decide (is_Some (params !! "ansible_playbook")) then exec_playbook b params
  else inr unknown_execution_type.

Definition ValidationAgent_execute_step : Agent := λ task step step_index,
  let params := default ∅ (p_parameters step) in
  let validation_type := default (PyStr "general") (params !! "type") in
  inr (if py_eqb validation_type (PyStr "syntax") then
         mkStepResult "success" "Syntax validation passed"
           (DetDict {["issues" := PyList []]})
       else if py_eqb validation_type (PyStr "security") then
         mkStepResult "success" "Security validation passed"
           (DetDict {["vulnerabilities" := PyList []; "recommendations" := PyList []]})
       else if py_eqb validation_type (PyStr "configuration") then
         mkStepResult "success" "Configuration validation passed"
           (DetDict {["issues" := PyList []; "warnings" := PyList [];
                      "recommendations" := PyList []]})
       else if py_eqb validation_type (PyStr "result") then
         mkStepResult "success" "Result validation passed"
           (DetDict {["expected" := PyStr "Expected result";
                      "actual" := PyStr "Actual result";
                      "differences" := PyList []]})
       else
         mkStepResult "success" "General validation passed"
           (DetDict {["issues" := PyList []]})).

Definition DiagnosticsAgent_execute_step : Agent := λ task step step_index,
  inr (mkStepResult "success" "Diagnostic step executed successfully"
         (DetDict {["diagnosis" := PyStr "No issues detected";
                    "recommendations" := PyList []]})).

Definition LearningAgent_execute_step : Agent := λ task step step_index,
  inr (mkStepResult "success" "Learning step executed successfully"
         (DetDict {["learned_patterns" := PyList []; "recommendations" := PyList []]})).

(** [self.agents] as [AgentOrchestrator.__init__] builds it. *)
Definition registry (b : Backends) : gmap string Agent :=
  {[ "task_manager" := TaskManagerAgent_execute_step;
     "diagnostics" := DiagnosticsAgent_execute_step;
     "execution" := ExecutionAgent_execute_step b;
     "learning" := LearningAgent_execute_step;
     "validation" := ValidationAgent_execute_step ]}.

(** ** [LearningAgent.learn_from_task] *)

(** [needle in haystack] on strings. *)
Definition contains (needle haystack : string) : bool :=
  bool_decide (is_Some (String.index 0 needle haystack)).

(** [key in details], which raises on [None] and is a substring test on
    a string. *)
Definition in_details (key : string) (d : details) : exn + bool :=
  match d with
  | DetNone => inl (TypeError "argument of type 'NoneType' is not iterable")
  | DetStr s => inr (contains key s)
  | DetDict m => inr (bool_decide (is_Some (m !! key)))
  end.

(** [details[key]] once [key in details] held. *)
Definition details_item (key : string) (d : details) : exn + pyval :=
  match d with
  | DetDict m =>
      match m !! key with
      | Some v => inr v
      | None => inl (KeyError key)
      end
  | _ => inl (TypeError "string indices must be integers")
  end.

Definition bind_exn {A B} (x : exn + A) (k : A → exn + B) : exn + B :=
  match x with
  | inl e => inl e
  | inr a => k a
  end.

(** The scan of one step: the scripts found in a succeeded step. *)
Definition learn_step (step : Step) : exn + list (pyval * pyval) :=
  if bool_decide (s_status step = "succeeded") then
    match s_result step with
    | None => inl (TypeError "argument of type 'NoneType' is not iterable")
    | Some result =>
        let details := r_details result in
        bind_exn (in_details "command" details) (λ has_command,
        bind_exn (if has_command then details_item "command" details
                  else inr PyNone) (λ _,
        bind_exn (in_details "script_type" details) (λ has_type,
        bind_exn (if has_type then in_details "script" details
                  else inr false) (λ has_script,
        if has_type && has_script then
          bind_exn (details_item "script_type" details) (λ ty,
          bind_exn (details_item "script" details) (λ sc,
          inr [(ty, sc)]))
        else inr []))))
    end
  else inr [].

Fixpoint learn_steps (steps : list Step) : exn + list (pyval * pyval) :=
  match steps with
  | [] => inr []
  | step :: steps =>
      bind_exn (learn_step step) (λ found,
      bind_exn (learn_steps steps) (λ rest, inr (found ++ rest)%list))
  end.

Definition truthy (v : pyval) : bool :=
  match v with
  | PyNone => false
  | PyBool b => b
  | PyInt z => negb (bool_decide (z = 0%Z))
  | PyStr s => negb (bool_decide (s = ""))
  | PyList l => negb (bool_decide (l = []))
  end.

Fixpoint add_scripts (add_script : pyval → pyval → exn + unit)
    (scripts : list (pyval * pyval)) : exn + unit :=
  match scripts with
  | [] => inr tt
  | (ty, sc) :: scripts =>
      bind_exn (if truthy sc && truthy ty then add_script sc ty else inr tt)
        (λ _, add_scripts add_script scripts)
  end.

(** [learn_from_task], given the configured threshold and the two write
    operations of the knowledge base. *)
Definition LearningAgent_learn_from_task (learning_threshold : float)
    (add_task : Task → exn + unit) (add_script : pyval → pyval → exn + unit)
    (task_id : string) (task : Task) : exn + unit :=
  bind_exn (learn_steps (t_steps task)) (λ scripts,
  let successful_steps :=
    filter (λ step, s_status step = "succeeded") (t_steps task) in
  let success_ratio :=
    (float_of_nat (length successful_steps)
     / float_of_nat (Nat.max 1 (length (t_steps task))))%float in
  if PrimFloat.leb learning_threshold success_ratio then
    bind_exn (add_task task) (λ _, add_scripts add_script scripts)
  else inr tt).

(** ** The worker: [_execute_task]

    The worker thread is a small-step machine. Each step performs at most
    one locked operation on the store, so that calls from other threads
    may fall between any two of them. A call into a collaborator is taken
    together with the store update that follows it: the collaborators do
    not write to the store. *)

Definition lift {A} (x : exn + A) : M A := λ o, (x, o).

Definition try_except {A} (body : M A) (handler : exn → M A) : M A := λ o,
  match body o with
  | (inl e, o') => handler e o'
  | r => r
  end.

(** Local variables of the step loop: the snapshot [task] taken at the
    start, [task_plan], the index [i] and the flag [success]. *)
Record Frame := mkFrame {
  f_task : Task;
  f_plan : Plan;
  f_i : nat;
  f_success : bool
}.

Definition next_step (success : bool) (f : Frame) : Frame :=
  mkFrame (f_task f) (f_plan f) (S (f_i f)) success.

Inductive pc :=
| Start
| SetPlanning (task : Task)
| Planning (task : Task)
| AddSteps (task : Task) (plan : Plan) (k : nat)
| SetExecuting (task : Task) (plan : Plan)
| LoopHead (f : Frame)
| MarkStep (f : Frame) (step : PlanStep)
| SetWaiting (f : Frame) (step : PlanStep)
| Poll (f : Frame) (step : PlanStep)
| Dispatch (f : Frame) (step : PlanStep)
| Finalize (success : bool)
| Learn
| Handler (e : exn)
| HandlerStatus
| Finally (uncaught : option exn)
| Done (uncaught : option exn).

(** The [task] dictionary handed to the agents is the shallow copy made
    at the start: its scalar fields are frozen, its [steps] entry is the
    list object of the store itself. *)
Definition live_task (task_id : string) (task : Task) (o : Orchestrator) : Task :=
  match tasks o !! task_id with
  | Some t => set_steps (t_steps t) (t_updated_at task) task
  | None => task
  end.

Definition live_view (task_id : string) (task : Task) : M Task := λ o,
  (inr (live_task task_id task o), o).

(** The inner [try] of the step loop. Returns whether the step succeeded.
    The test on [step_result.get('diagnosis')] that follows the update
    has an empty body and is left out. *)
Definition dispatch (env : Env) (task_id : string) (f : Frame) (step : PlanStep) : M bool :=
  try_except
    (let agent_type := default "execution" (p_agent_type step) in
     agent ← match agents env !! agent_type with
             | Some agent => mret agent
             | None => raise (KeyError agent_type)
             end;
     task ← live_view task_id (f_task f);
     step_result ← lift (agent task step (f_i f));
     _ ← update_task_step task_id (f_i f) (Some "succeeded") (Some step_result) None;
     mret true)
    (λ e,
     _ ← update_task_step task_id (f_i f) (Some "failed") None (Some (str_exn e));
     mret false).

(** Inside the outer [try]: an exception leads to the handler. *)
Definition guarded {A} (r : (exn + A) * Orchestrator) (k : A → pc) : pc * Orchestrator :=
  match r with
  | (inl e, o) => (Handler e, o)
  | (inr a, o) => (k a, o)
  end.

(** Inside the handler or the [finally] block: an exception leaves the
    thread after the [finally] block has run. *)
Definition unguarded {A} (r : (exn + A) * Orchestrator) : pc * Orchestrator :=
  match r with
  | (inl e, o) => (Finally (Some e), o)
  | (inr _, o) => (Finally None, o)
  end.

Definition worker_step (env : Env) (task_id : string) (p : pc) (o : Orchestrator)
    : pc * Orchestrator :=
  match p with
  | Start => guarded (get_task task_id o) SetPlanning
  | SetPlanning task =>
      guarded (update_task_status task_id (value PLANNING) o) (λ _, Planning task)
  | Planning task =>
      match agents env !! "task_manager" with
      | None => (Handler (KeyError "task_manager"), o)
      | Some _ => guarded (lift (plan_task env task) o) (λ plan, AddSteps task plan 0)
      end
  | AddSteps task plan k =>
      match plan_steps plan !! k with
      | Some step =>
          guarded (add_task_step task_id (p_description step) "pending" o)
            (λ _, AddSteps task plan (S k))
      | None => (SetExecuting task plan, o)
      end
  | SetExecuting task plan =>
      guarded (update_task_status task_id (value EXECUTING) o)
        (λ _, LoopHead (mkFrame task plan 0 true))
  | LoopHead f =>
      match plan_steps (f_plan f) !! f_i f with
      | None => (Finalize (f_success f), o)
      | Some step =>
          guarded (get_task task_id o) (λ t,
            if decide (t_status t = value CANCELLED) then Finally None
            else MarkStep f step)
      end
  | MarkStep f step =>
      guarded (update_task_step task_id (f_i f) (Some "executing") None None o)
        (λ _, if default false (p_requires_approval step)
              then SetWaiting f step else Dispatch f step)
  | SetWaiting f step =>
      guarded (update_task_status task_id (value WAITING_FOR_APPROVAL) o)
        (λ _, Poll f step)
  | Poll f step =>
      guarded (get_task task_id o) (λ t,
        if decide (t_status t = value EXECUTING) then Dispatch f step
        else if decide (t_status t = value CANCELLED) then Finally None
        else Poll f step)
  | Dispatch f step =>
      guarded (dispatch env task_id f step o) (λ ok,
        if ok then LoopHead (next_step (f_success f) f)
        else if default false (p_critical step) then Finalize false
        else LoopHead (next_step false f))
  | Finalize success =>
      guarded (update_task_status task_id
                 (value (if success then SUCCEEDED else FAILED)) o)
        (λ _, if success then Learn else Finally None)
  | Learn =>
      match agents env !! "learning" with
      | None => (Handler (KeyError "learning"), o)
      | Some _ =>
          guarded ((t ← get_task task_id; lift (learn_from_task env task_id t)) o)
            (λ _, Finally None)
      end
  | Handler e =>
      match add_task_error task_id (str_exn e) o with
      | (inl e', o') => (Finally (Some e'), o')
      | (inr _, o') => (HandlerStatus, o')
      end
  | HandlerStatus => unguarded (update_task_status task_id (value FAILED) o)
  | Finally uncaught => (Done uncaught, (pop_active task_id o).2)
  | Done uncaught => (Done uncaught, o)
  end.

(** ** The orchestrator with one worker and its callers *)

Inductive event :=
| Work
| Approve (task_id : string)
| Cancel (task_id : string).

#[global] Instance event_eq_dec : EqDecision event.
Proof. solve_decision. Defined.

Record Sys := mkSys {
  orch : Orchestrator;
  wpc : pc
}.

Definition sys_step (env : Env) (task_id : string) (s : Sys) (ev : event) : Sys :=
  match ev with
  | Work =>
      let r := worker_step env task_id (wpc s) (orch s) in mkSys r.2 r.1
  | Approve id => mkSys (approve_task id (orch s)).2 (wpc s)
  | Cancel id => mkSys (cancel_task id (orch s)).2 (wpc s)
  end.

Definition run (env : Env) (task_id : string) (sched : list event) (s : Sys) : Sys :=
  foldl (sys_step env task_id) s sched.

(** [create_task] on an orchestrator, with the worker about to start. *)
Definition spawn (o : Orchestrator) (task_id task_type description : string)
    (parameters : gmap string pyval) (priority : string) : Sys :=
  mkSys (create_task task_id task_type description parameters priority o).2 Start.

Definition task_of (task_id : string) (s : Sys) : option Task :=
  tasks (orch s) !! task_id.

Definition status_of (task_id : string) (s : Sys) : option string :=
  t_status <$> task_of task_id s.

Definition step_of (task_id : string) (i : nat) (s : Sys) : option Step :=
  t ← task_of task_id s; t_steps t !! i.

(** ** Scenarios *)

Definition empty_orchestrator : Orchestrator := mkOrch ∅ ∅ 0.

Definition ok_backends : Backends :=
  let ok := λ _ : gmap string pyval,
    inr (mkStepResult "success" "Command executed successfully" (DetDict ∅)) in
  mkBackends ok ok ok.

(** An environment whose planner returns [plan], with an empty knowledge
    base, the agents of the source, and a learning call that returns. *)
Definition env_with_plan (plan : Plan) : Env :=
  mkEnv (λ _, inr []) (λ _, inr None) (λ _, inr plan) true []
    (registry ok_backends) (λ _ _, inr tt).

Definition demo_plan (steps : list PlanStep) : Plan := mkPlan "t1" "demo" steps.

Definition demo (env : Env) (sched : list event) : Sys :=
  run env "t1" sched (spawn empty_orchestrator "t1" "demo" "x" ∅ "low").

(** ** Vocabulary of the properties *)

Definition with_tasks (ts : gmap string Task) (o : Orchestrator) : Orchestrator :=
  mkOrch ts (active_tasks o) (clock o).

Definition tick (n : nat) (o : Orchestrator) : Orchestrator :=
  mkOrch (tasks o) (active_tasks o) (n + clock o).

(** What the agent lookup and the [execute_step] call of the inner [try]
    produce for a step: the result returned, or the exception raised (a
    [KeyError] when the agent type is not in the registry). *)
Definition agent_call (env : Env) (task_id : string) (f : Frame) (step : PlanStep)
    (o : Orchestrator) : exn + StepResult :=
  let agent_type := default "execution" (p_agent_type step) in
  match agents env !! agent_type with
  | Some agent => agent (live_task task_id (f_task f) o) step (f_i f)
  | None => inl (KeyError agent_type)
  end.

(** A step as [add_task_step] leaves it. *)
Definition untouched (st : Step) : Prop :=
  s_status st = "pending" ∧ s_result st = None ∧ s_error st = None.

Definition rest_untouched (i : nat) (steps : list Step) : Prop :=
  ∀ j st, (i ≤ j)%nat → steps !! j = Some st → untouched st.

(** A step marked ["executing"] and not yet dispatched. *)
Definition in_progress (i : nat) (steps : list Step) : Prop :=
  ∃ st, steps !! i = Some st
        ∧ s_status st = "executing" ∧ s_result st = None ∧ s_error st = None.

(** The step ledger at each point of the worker, up to the dispatch. *)
Definition ledger (p : pc) (steps : list Step) : Prop :=
  match p with
  | Start | SetPlanning _ | Planning _ => steps = []
  | AddSteps _ plan k =>
      length steps = k ∧ (k ≤ length (plan_steps plan))%nat ∧ rest_untouched 0 steps
  | SetExecuting _ plan =>
      length steps = length (plan_steps plan) ∧ rest_untouched 0 steps
  | LoopHead f =>
      length steps = length (plan_steps (f_plan f)) ∧ rest_untouched (f_i f) steps
  | MarkStep f step =>
      length steps = length (plan_steps (f_plan f))
      ∧ rest_untouched (f_i f) steps
      ∧ plan_steps (f_plan f) !! f_i f = Some step
  | SetWaiting f step | Poll f step | Dispatch f step =>
      length steps = length (plan_steps (f_plan f))
      ∧ rest_untouched (S (f_i f)) steps
      ∧ plan_steps (f_plan f) !! f_i f = Some step
      ∧ in_progress (f_i f) steps
  | _ => True
  end.

Definition LedgerInv (task_id : string) (s : Sys) : Prop :=
  ∃ t, task_of task_id s = Some t ∧ t_result t = None ∧ ledger (wpc s) (t_steps t).

(** The statuses a task can have at each point of its worker while
    nobody cancels it and learning does not fail. *)
Definition phase (p : pc) : list string :=
  match p with
  | Start | SetPlanning _ => ["pending"]
  | Planning _ | AddSteps _ _ _ | SetExecuting _ _ => ["planning"]
  | LoopHead _ | MarkStep _ _ | SetWaiting _ _ | Dispatch _ _ | Finalize _ =>
      ["executing"]
  | Poll _ _ => ["waiting_for_approval"; "executing"]
  | Learn => ["succeeded"]
  | Handler _ | HandlerStatus => ["planning"; "executing"]
  | Finally _ | Done _ => ["succeeded"; "failed"]
  end.

Definition StatusInv (task_id : string) (s : Sys) : Prop :=
  ∃ t, task_of task_id s = Some t ∧ t_status t ∈ phase (wpc s).

(** The graph of section 4.5 without its [cancelled] node, and with the
    edge taken when planning itself raises. *)
Definition edge (a b : string) : Prop :=
  (a, b) ∈ [ ("pending", "planning"); ("planning", "executing");
             ("planning", "failed");
             ("executing", "waiting_for_approval");
             ("waiting_for_approval", "executing");
             ("executing", "succeeded"); ("executing", "failed") ].

Definition terminal (status : string) : Prop :=
  status ∈ ["succeeded"; "failed"; "cancelled"].

(** The learning agent is registered and its [learn_from_task] returns. *)
Definition learning_ok (env : Env) : Prop :=
  is_Some (agents env !! "learning")
  ∧ ∀ task_id t, learn_from_task env task_id t = inr tt.

Definition works (sched : list event) : nat :=
  length (filter (λ ev, ev = Work) sched).

(** An upper bound on the worker steps left once the step loop is over. *)
Definition remaining (p : pc) : nat :=
  match p with
  | Done _ => 0
  | Finally _ => 1
  | _ => 2
  end.

(** How two consecutive states of the task of the worker relate: the task
    is kept, and its status stays or moves along an edge. *)
Definition moves (task_id : string) (s s' : Sys) : Prop :=
  ∃ t t', task_of task_id s = Some t ∧ task_of task_id s' = Some t'
          ∧ (t_status t' = t_status t ∨ edge (t_status t) (t_status t')).

(** The statuses a task can have at each point of its worker while
    nobody cancels it, whatever the learning call does: the handler of
    the worker is also reached from the learning call, with the task
    ["succeeded"]. *)
Definition phase_any (p : pc) : list string :=
  match p with
  | Handler _ | HandlerStatus => ["planning"; "executing"; "succeeded"]
  | _ => phase p
  end.

Definition StatusAny (task_id : string) (s : Sys) : Prop :=
  ∃ t, task_of task_id s = Some t ∧ t_status t ∈ phase_any (wpc s).

(** As [moves], with the move that the handler makes after a failed
    learning call: from ["succeeded"] to ["failed"]. *)
Definition moves_any (task_id : string) (s s' : Sys) : Prop :=
  ∃ t t', task_of task_id s = Some t ∧ task_of task_id s' = Some t'
          ∧ (t_status t' = t_status t ∨ edge (t_status t) (t_status t')
             ∨ (t_status t = "succeeded" ∧ t_status t' = "failed"
                ∧ wpc s = HandlerStatus)).

(** The worker is in its step loop or past it with the flag [success]
    down, and nobody has cancelled the task: it can only end
    ["failed"]. *)
Definition doomed (task_id : string) (s : Sys) : Prop :=
  ∃ t, task_of task_id s = Some t ∧
    match wpc s with
    | LoopHead f | MarkStep f _ | SetWaiting f _ | Dispatch f _ =>
        f_success f = false ∧ t_status t = "executing"
    | Poll f _ =>
        f_success f = false ∧ t_status t ∈ ["waiting_for_approval"; "executing"]
    | Finalize success => success = false
    | Handler _ | HandlerStatus => True
    | Finally _ | Done _ => t_status t = "failed"
    | _ => False
    end.

(** The store after a task was cancelled while its worker polled for the
    approval of [step]: the steps are those of [t1], the worker is in the
    loop or on its way out. *)
Definition cancelled_in_wait (task_id : string) (t1 : Task) (f : Frame)
    (step : PlanStep) (s : Sys) : Prop :=
  ∃ t, task_of task_id s = Some t
       ∧ t_steps t = t_steps t1 ∧ t_result t = t_result t1
       ∧ t_status t = "cancelled"
       ∧ (wpc s = Poll f step ∨ wpc s = Finally None ∨ wpc s = Done None).

(** The store after a critical step failed: the steps are [steps], the
    worker finalizes or has done so, in which case (when [strict]) the
    status is ["failed"]. *)
Definition aborted (task_id : string) (steps : list Step) (strict : bool)
    (s : Sys) : Prop :=
  ∃ t, task_of task_id s = Some t
       ∧ t_steps t = steps
       ∧ (wpc s = Finalize false
          ∨ ((wpc s = Finally None ∨ wpc s = Done None)
             ∧ (strict = true → t_status t = "failed"))).

(** No step of the plan from index [i] on asks for approval. *)
Definition gate_free (i : nat) (plan : Plan) : Prop :=
  ∀ j step, i ≤ j → plan_steps plan !! j = Some step →
    default false (p_requires_approval step) = false.

(** An upper bound on the worker steps left from the step loop on, when
    no approval gate lies ahead. *)
Definition fuel (p : pc) : nat :=
  match p with
  | Done _ => 0
  | Finally _ => 1
  | HandlerStatus => 2
  | Handler _ => 3
  | Learn => 4
  | Finalize _ => 5
  | LoopHead f => 6 + 3 * (length (plan_steps (f_plan f)) - f_i f)
  | MarkStep f _ | Poll f _ => 5 + 3 * (length (plan_steps (f_plan f)) - f_i f)
  | Dispatch f _ => 4 + 3 * (length (plan_steps (f_plan f)) - f_i f)
  | _ => 1
  end.

(** The worker is in its step loop or past it, nothing it has to wait
    for lies ahead, and the status is terminal once it is past the
    handler. *)
Definition unblocked (task_id : string) (s : Sys) : Prop :=
  ∃ t, task_of task_id s = Some t ∧
    match wpc s with
    | LoopHead f => gate_free (f_i f) (f_plan f)
    | MarkStep f step =>
        gate_free (f_i f) (f_plan f) ∧ plan_steps (f_plan f) !! f_i f = Some step
    | Dispatch f step =>
        gate_free (S (f_i f)) (f_plan f) ∧ plan_steps (f_plan f) !! f_i f = Some step
    | Poll f step =>
        gate_free (S (f_i f)) (f_plan f)
        ∧ plan_steps (f_plan f) !! f_i f = Some step
        ∧ t_status t = "executing"
    | Finalize _ | Handler _ | HandlerStatus => True
    | Learn => t_status t = "succeeded"
    | Finally _ | Done _ => terminal (t_status t)
    | _ => False
    end.

(** The task record [create_task] stores. *)
Definition created (o : Orchestrator) (task_id task_type description : string)
    (parameters : gmap string pyval) (priority : string) : Task :=
  mkTask task_id task_type description parameters priority "pending"
    (clock o) (S (clock o)) [] None None.

(** The score as the specification words it: 0.6 times the share of
    the keys that both mappings have, plus 0.4 times the share of those
    common keys on which the values agree. *)
Definition spec_similarity (params1 params2 : gmap string pyval) : float :=
  (f0_6 * (float_of_nat (size (shared_keys params1 params2))
           / float_of_nat (size (all_keys params1 params2)))
   + f0_4 * (float_of_nat (value_matches params1 params2)
             / float_of_nat (size (shared_keys params1 params2))))%float.

(** Eligibility as the specification words it: same type, succeeded,
    score at least 0.8. *)
Definition spec_eligible (task : Task) (similar_task : KBTask) : bool :=
  bool_decide (kb_type similar_task = t_type task)
  && bool_decide (kb_status similar_task = "succeeded")
  && PrimFloat.leb f0_8
       (spec_similarity (t_parameters task) (kb_parameters similar_task)).

(** ** The task store as Python objects

    [get_task] and [get_all_tasks] return [dict.copy()] of a stored task.
    What a caller can reach through such a copy depends on which objects
    are shared, so here dictionaries and lists are objects in a heap and
    a dictionary entry holds either an immutable value or a reference. *)

Module PyHeap.

Definition loc := positive.

Inductive slot :=
| Imm (v : pyval)
| Ref (l : loc).

#[global] Instance slot_eq_dec : EqDecision slot.
Proof. solve_decision. Defined.

Inductive obj :=
| Dict (entries : gmap string slot)
| List (items : list loc).

Record State := mkState {
  heap : gmap loc obj;
  tasks : gmap string loc;
  clock : nat
}.

Definition alloc (x : obj) (σ : State) : loc * State :=
  let l := fresh (dom (heap σ)) in
  (l, mkState (<[l := x]> (heap σ)) (tasks σ) (clock σ)).

Definition store (l : loc) (x : obj) (σ : State) : State :=
  mkState (<[l := x]> (heap σ)) (tasks σ) (clock σ).

Definition _get_timestamp (σ : State) : pyval * State :=
  (PyInt (Z.of_nat (clock σ)), mkState (heap σ) (tasks σ) (S (clock σ))).

(** [d[key]] for a dictionary object at [l]. *)
Definition getitem (l : loc) (key : string) (σ : State) : option slot :=
  match heap σ !! l with
  | Some (Dict d) => d !! key
  | _ => None
  end.

(** [d[key] = x] *)
Definition setitem (l : loc) (key : string) (x : slot) (σ : State) : State :=
  match heap σ !! l with
  | Some (Dict d) => store l (Dict (<[key := x]> d)) σ
  | _ => σ
  end.

(** [lst.append(x)] *)
Definition append (l : loc) (x : loc) (σ : State) : State :=
  match heap σ !! l with
  | Some (List items) => store l (List (items ++ [x])) σ
  | _ => σ
  end.

(** [lst[i]] *)
Definition index (l : loc) (i : nat) (σ : State) : option loc :=
  match heap σ !! l with
  | Some (List items) => items !! i
  | _ => None
  end.

(** [create_task]; [parameters] is the caller's dictionary object. *)
Definition create_task (task_id task_type description : string)
    (parameters : loc) (priority : string) (σ : State) : State :=
  let '(c, σ) := _get_timestamp σ in
  let '(u, σ) := _get_timestamp σ in
  let '(steps, σ) := alloc (List []) σ in
  let '(task, σ) :=
    alloc (Dict (list_to_map
      [("id", Imm (PyStr task_id)); ("type", Imm (PyStr task_type));
       ("description", Imm (PyStr description)); ("parameters", Ref parameters);
       ("priority", Imm (PyStr priority)); ("status", Imm (PyStr (value PENDING)));
       ("created_at", Imm c); ("updated_at", Imm u); ("steps", Ref steps);
       ("result", Imm PyNone); ("error", Imm PyNone)])) σ in
  mkState (heap σ) (<[task_id := task]> (tasks σ)) (clock σ).

Definition add_task_step (task_id step_description step_status : string)
    (σ : State) : exn + State :=
  match tasks σ !! task_id with
  | None => inl (KeyError ("Task " ++ task_id ++ " not found"))
  | Some task =>
      let '(c, σ) := _get_timestamp σ in
      let '(u, σ) := _get_timestamp σ in
      let '(step, σ) :=
        alloc (Dict (list_to_map
          [("description", Imm (PyStr step_description));
           ("status", Imm (PyStr step_status));
           ("created_at", Imm c); ("updated_at", Imm u);
           ("result", Imm PyNone); ("error", Imm PyNone)])) σ in
      match getitem task "steps" σ with
      | Some (Ref steps) =>
          let σ := append steps step σ in
          let '(now, σ) := _get_timestamp σ in
          inr (setitem task "updated_at" (Imm now) σ)
      | _ => inl (KeyError "steps")
      end
  end.

(** [dict.copy()]: a new dictionary object with the same entries. *)
Definition copy (l : loc) (σ : State) : option (loc * State) :=
  match heap σ !! l with
  | Some (Dict d) => Some (alloc (Dict d) σ)
  | _ => None
  end.

Definition get_task (task_id : string) (σ : State) : exn + loc * State :=
  match tasks σ !! task_id with
  | None => inl (KeyError ("Task " ++ task_id ++ " not found"))
  | Some task =>
      match copy task σ with
      | Some r => inr r
      | None => inl (RuntimeError "not a dictionary")
      end
  end.

(** The list comprehension of [get_all_tasks]. *)
Fixpoint copy_all (status_filter : option string) (ls : list loc) (σ : State)
    : list loc * State :=
  match ls with
  | [] => ([], σ)
  | l :: ls =>
      let keep :=
        match status_filter with
        | Some f =>
            bool_decide (f = "")
            || bool_decide (getitem l "status" σ = Some (Imm (PyStr f)))
        | None => true
        end in
      if keep then
        match copy l σ with
        | Some (c, σ) => let '(cs, σ) := copy_all status_filter ls σ in (c :: cs, σ)
        | None => copy_all status_filter ls σ
        end
      else copy_all status_filter ls σ
  end.

Definition get_all_tasks (status_filter : option string) (σ : State)
    : list loc * State :=
  copy_all status_filter (map_to_list (tasks σ)).*2 σ.

(** What the store holds for a task, read through [self.tasks]:
    [self.tasks[task_id][key]], the length of its step list and
    [self.tasks[task_id]['steps'][i][key]]. *)
Definition stored (task_id key : string) (σ : State) : option slot :=
  task ← tasks σ !! task_id; getitem task key σ.

Definition stored_steps (task_id : string) (σ : State) : option (list loc) :=
  match stored task_id "steps" σ with
  | Some (Ref steps) =>
      match heap σ !! steps with
      | Some (List items) => Some items
      | _ => None
      end
  | _ => None
  end.

Definition stored_step (task_id : string) (i : nat) (key : string) (σ : State)
    : option slot :=
  items ← stored_steps task_id σ; step ← items !! i; getitem step key σ.

Definition empty_state : State := mkState ∅ ∅ 0.

(** A store with one task of one pending step. *)
Definition one_step_store : State :=
  let '(params, σ) := alloc (Dict ∅) empty_state in
  let σ := create_task "t1" "demo" "x" params "low" σ in
  match add_task_step "t1" "first step" "pending" σ with
  | inr σ => σ
  | inl _ => σ
  end.

(** A caller takes [t = get_task("t1")] and runs
    [t['steps'][0]['status'] = 'failed']. *)
Definition caller_rewrites_step (σ : State) : State :=
  match get_task "t1" σ with
  | inr (t, σ) =>
      match getitem t "steps" σ with
      | Some (Ref steps) =>
          match index steps 0 σ with
          | Some step => setitem step "status" (Imm (PyStr "failed")) σ
          | None => σ
          end
      | _ => σ
      end
  | inl _ => σ
  end.

(** A caller takes [t = get_all_tasks()[0]] and appends the first step
    once more: [t['steps'].append(t['steps'][0])]. *)
Definition caller_appends_step (σ : State) : State :=
  match get_all_tasks None σ with
  | (t :: _, σ) =>
      match getitem t "steps" σ with
      | Some (Ref steps) =>
          match index steps 0 σ with
          | Some step => append steps step σ
          | None => σ
          end
      | _ => σ
      end
  | (_, σ) => σ
  end.

End PyHeap.

(** ** More scenarios *)

(** The task [demo] creates, as the worker snapshots it. *)
Definition demo_task : Task :=
  mkTask "t1" "demo" "x" ∅ "low" "pending" 0 1 [] None None.

(** One step for the validation agent, no approval. *)
Definition plan_validate : Plan :=
  demo_plan [full_step "check" "validation" false false ∅].

(** One step behind an approval gate, then a second step. *)
Definition plan_gated : Plan :=
  demo_plan [full_step "change" "validation" true true ∅;
             full_step "check" "validation" false false ∅].

(** A critical first step for an agent type nobody registered. *)
Definition plan_unknown_agent : Plan :=
  demo_plan [full_step "change" "provisioning" false true ∅;
             full_step "check" "validation" false false ∅].

Definition unknown_agent_frame : Frame := mkFrame demo_task plan_unknown_agent 0 true.
Definition gated_frame : Frame := mkFrame demo_task plan_gated 0 true.

(** A critical command for the execution agent, then a check. *)
Definition plan_restart : Plan :=
  demo_plan [full_step "restart" "execution" false true
               {["command" := PyStr "systemctl restart nginx"]};
             full_step "check" "validation" false false ∅].
Definition restart_frame : Frame := mkFrame demo_task plan_restart 0 true.

(** What [_execute_local_command] returns for a command that does not
    end in time. *)
Definition timed_out (params : gmap string pyval) : StepResult :=
  mkStepResult "timeout" "Command timed out after 300 seconds"
    (DetDict {["command" := default PyNone (params !! "command");
               "timeout" := PyInt 300]}).

Definition slow_backends : Backends :=
  mkBackends (λ params, inr (timed_out params))
    (λ params, inr (timed_out params)) (λ params, inr (timed_out params)).

(** The orchestrator as the source wires it: the registry of
    [AgentOrchestrator.__init__], the learning agent with its default
    threshold, a knowledge base that is empty and accepts every write,
    and a planning chain [chain]. *)
Definition wired_env (chain : Task → exn + Plan) (b : Backends) : Env :=
  mkEnv (λ _, inr []) (λ _, inr None) chain true [] (registry b)
    (LearningAgent_learn_from_task f0_8 (λ _, inr tt) (λ _ _, inr tt)).

(** A language model that cannot be reached. *)
Definition failing_chain : Task → exn + Plan :=
  λ _, inl (RuntimeError "planner unavailable").

(** The two steps of the fallback plan for [demo_task]. *)
Definition fallback_execute : PlanStep :=
  full_step "Execute demo operation" "execution" true true ∅.
Definition fallback_frame : Frame := mkFrame demo_task (fallback_plan demo_task) 0 true.

(** Ten steps take the worker into the approval wait of the fallback
    plan; once approved, seven more take it to the learning call. *)
Definition until_learning : list event :=
  (replicate 10 Work ++ [Approve "t1"] ++ replicate 7 Work)%list.

(** The state in which the fallback plan waits for approval. *)
Definition fallback_wait : Sys :=
  run (wired_env failing_chain ok_backends) "t1" (replicate 10 Work)
    (spawn empty_orchestrator "t1" "demo" "x" ∅ "low").

(** Two parameter mappings with the same two keys that agree on one
    value: the score is exactly 0.8. *)
Definition boundary_task : Task :=
  mkTask "t2" "install" "install the server"
    {["host" := PyStr "r1"; "os" := PyStr "linux"]} "low" "pending" 0 1 [] None None.

Definition boundary_similar : KBTask :=
  mkKBTask "t0" "install" "succeeded"
    {["host" := PyStr "r1"; "os" := PyStr "bsd"]} [].


(** ** Vocabulary of the further properties *)

(** What stays of a step whatever is written to it: its description,
    its creation time, and that it has a result or an error once it
    was given one. *)
Definition step_extends (st st' : Step) : Prop :=
  s_description st' = s_description st
  ∧ s_created_at st' = s_created_at st
  ∧ (is_Some (s_result st) → is_Some (s_result st'))
  ∧ (is_Some (s_error st) → is_Some (s_error st')).

(** What stays of a task whatever happens to it: what [create_task] was
    given, the creation time, the result, that it has an error once it
    was given one, and the steps it already has, each at its index. *)
Definition extends (t t' : Task) : Prop :=
  t_id t' = t_id t ∧ t_type t' = t_type t ∧ t_description t' = t_description t
  ∧ t_parameters t' = t_parameters t ∧ t_priority t' = t_priority t
  ∧ t_created_at t' = t_created_at t ∧ t_result t' = t_result t
  ∧ (is_Some (t_error t) → is_Some (t_error t'))
  ∧ ∀ i st, t_steps t !! i = Some st →
      ∃ st', t_steps t' !! i = Some st' ∧ step_extends st st'.

(** The store of [o'] is that of [o], or that of [o] with the task
    [task_id], which [o] has, replaced by one that extends it. *)
Definition writes (task_id : string) (o o' : Orchestrator) : Prop :=
  tasks o' = tasks o
  ∨ ∃ t x, tasks o !! task_id = Some t ∧ extends t x
           ∧ tasks o' = <[task_id := x]> (tasks o).

(** The steps below index [n] all have the status ["succeeded"]. *)
Definition all_succeeded (n : nat) (steps : list Step) : Prop :=
  ∀ j st, j < n → steps !! j = Some st → s_status st = "succeeded".

(** A step below index [n] has the status ["failed"]. *)
Definition some_failed (n : nat) (steps : list Step) : Prop :=
  ∃ j st, j < n ∧ steps !! j = Some st ∧ s_status st = "failed".

(** What the flag [success] of the step loop stands for. *)
Definition settled (success : bool) (n : nat) (steps : list Step) : Prop :=
  if success then all_succeeded n steps else some_failed n steps.

(** What the final status of a task says about its steps and error. *)
Definition outcome (t : Task) : Prop :=
  terminal (t_status t)
  ∧ (t_status t = "succeeded" →
       all_succeeded (length (t_steps t)) (t_steps t) ∧ t_error t = None)
  ∧ (t_status t = "failed" →
       some_failed (length (t_steps t)) (t_steps t) ∨ is_Some (t_error t)).

(** What holds of the task at each point of its worker, whoever
    approves or cancels in between. *)
Definition tally (p : pc) (t : Task) : Prop :=
  match p with
  | Start | SetPlanning _ | Planning _ | AddSteps _ _ _ | SetExecuting _ _ =>
      t_error t = None
  | LoopHead f | MarkStep f _ | SetWaiting f _ | Poll f _ | Dispatch f _ =>
      t_error t = None ∧ settled (f_success f) (f_i f) (t_steps t)
  | Finalize success =>
      t_error t = None ∧ settled success (length (t_steps t)) (t_steps t)
  | Learn =>
      t_error t = None ∧ all_succeeded (length (t_steps t)) (t_steps t)
      ∧ t_status t ∈ ["succeeded"; "cancelled"]
  | Handler _ => True
  | HandlerStatus => is_Some (t_error t)
  | Finally _ | Done _ => outcome t
  end.

Definition Tally (task_id : string) (s : Sys) : Prop :=
  ∃ t, task_of task_id s = Some t ∧ tally (wpc s) t.

(** No gated step is at its dispatch, and a worker that polls has not
    been let through. *)
Definition held (task_id : string) (s : Sys) : Prop :=
  match wpc s with
  | Dispatch f step => default false (p_requires_approval step) = false
  | Poll f step => ∃ t, task_of task_id s = Some t ∧ t_status t ≠ "executing"
  | _ => True
  end.


(** ** Lifecycle: [start] and [stop]

    Of an agent, the flags [is_running] and [shutdown_flag] that its
    [start] and [stop] set; closing the SSH connections and removing
    the sandbox directory, which [ExecutionAgent.stop] does in between,
    is left out. *)
Record AgentFlags := mkAgentFlags {
  a_is_running : bool;
  a_shutdown_flag : bool
}.

Definition agent_start (a : AgentFlags) : AgentFlags :=
  if a_is_running a then a else mkAgentFlags true false.

Definition agent_stop (a : AgentFlags) : AgentFlags :=
  if negb (a_is_running a) then a else mkAgentFlags false true.

(** The orchestrator with its own flags and those of its agents. *)
Record Service := mkService {
  engine : Orchestrator;
  is_running : bool;
  shutdown_flag : bool;
  agent_flags : gmap string AgentFlags
}.

(** [start]; [enabled name] is
    [config['agents'].get(name, {}).get('enabled', True)]. *)
Definition start (enabled : string → bool) (sv : Service) : Service :=
  if is_running sv then sv
  else
    mkService (engine sv) true false
      (map_imap (λ agent_name agent,
         Some (if enabled agent_name then agent_start agent else agent))
         (agent_flags sv)).

(** The loop of [stop] over [list(self.active_tasks.items())]. *)
Fixpoint cancel_all (task_ids : list string) : M unit :=
  match task_ids with
  | [] => mret tt
  | task_id :: task_ids => _ ← cancel_task task_id; cancel_all task_ids
  end.

(** [stop]; [order] is the order in which the dictionary yields the
    active tasks. An exception of [cancel_task] leaves the loop and
    [stop] with the flag set and the agents running. *)
Definition stop (order : list string) (sv : Service) : (exn + unit) * Service :=
  if negb (is_running sv) then (inr tt, sv)
  else
    match cancel_all order (engine sv) with
    | (inl e, o) => (inl e, mkService o (is_running sv) true (agent_flags sv))
    | (inr _, o) =>
        (inr tt,
         mkService o false true
           ((λ agent, if a_is_running agent then agent_stop agent else agent)
              <$> agent_flags sv))
    end.

(** ** [ExecutionAgent]: the safety check of local commands *)

Definition dangerous_patterns : list string :=
  [ "rm -rf /"; "rm -rf /*"; "> /dev/sda"; "mkfs"; ":(){:|:&};:";
    "dd if=/dev/random"; "mv /* /dev/null" ].

(** The loop of [_validate_command_safety] over [patterns]; the command
    is a string, as the annotation says. *)
Fixpoint check_patterns (patterns : list string) (command : string) : exn + unit :=
  match patterns with
  | [] => inr tt
  | pattern :: patterns =>
      if contains pattern command
      then inl (ValueError ("Dangerous command pattern detected: " ++ pattern))
      else check_patterns patterns command
  end.

Definition _validate_command_safety (command : string) : exn + unit :=
  check_patterns dangerous_patterns command.

(** [_execute_local_command] up to the creation of the process. What
    starting the process and waiting for it returns, the results built
    by the handlers of [TimeoutExpired] and of the exceptions of the
    process included, is [shell command]; [validate_commands] is
    [config.get('validate_commands', True)]. *)
Definition _execute_local_command (validate_commands : bool)
    (shell : string → StepResult) (command : string) : StepResult :=
  match (if validate_commands then _validate_command_safety command else inr tt) with
  | inl e =>
      mkStepResult "error" ("Error executing command: " ++ str_exn e)
        (DetDict {[ "command" := PyStr command; "exception" := PyStr (str_exn e) ]})
  | inr _ => shell command
  end.

(** * Properties *)

(** ** Store operations on an existing task *)

Ltac unfold_M :=
  unfold get_task, the_task, get_tasks, put_task, _get_timestamp, not_found,
    raise, lift, try_except, mbind, mret, M_bind, M_ret in *.

Section StoreOps.
Context (o : Orchestrator) (task_id : string).

Lemma get_task_ok t :
  tasks o !! task_id = Some t → get_task task_id o = (inr t, o).
Proof. intros H. unfold_M. simpl. by rewrite H. Qed.

Lemma get_task_missing :
  tasks o !! task_id = None →
  get_task task_id o = (inl (KeyError ("Task " ++ task_id ++ " not found")), o).
Proof. intros H. unfold_M. simpl. by rewrite H. Qed.

Lemma update_task_status_ok t status x :
  tasks o !! task_id = Some t → TaskStatus_of status = Some x →
  update_task_status task_id status o
  = (inr tt, tick 1 (with_tasks (<[task_id := set_status status (clock o) t]> (tasks o)) o)).
Proof.
  intros H Hx. unfold update_task_status. rewrite Hx.
  unfold_M. simpl. by rewrite H.
Qed.

Lemma update_task_status_missing status x :
  tasks o !! task_id = None → TaskStatus_of status = Some x →
  update_task_status task_id status o
  = (inl (KeyError ("Task " ++ task_id ++ " not found")), o).
Proof.
  intros H Hx. unfold update_task_status. rewrite Hx.
  unfold_M. simpl. by rewrite H.
Qed.

Lemma add_task_error_ok t error :
  tasks o !! task_id = Some t →
  add_task_error task_id error o
  = (inr tt, tick 1 (with_tasks (<[task_id := set_error (Some error) (clock o) t]> (tasks o)) o)).
Proof. intros H. unfold add_task_error. unfold_M. simpl. by rewrite H. Qed.

Lemma add_task_step_ok t description status :
  tasks o !! task_id = Some t →
  add_task_step task_id description status o
  = (inr (length (t_steps t)),
     tick 3 (with_tasks
       (<[task_id := set_steps
            (t_steps t ++ [mkStep description status (clock o) (S (clock o)) None None])
            (S (S (clock o))) t]> (tasks o)) o)).
Proof.
  intros H. unfold add_task_step. unfold_M. simpl. rewrite H. simpl.
  rewrite length_app. simpl. do 2 f_equal. lia.
Qed.

Lemma update_task_step_ok t i s status result error :
  tasks o !! task_id = Some t → t_steps t !! i = Some s →
  update_task_step task_id i status result error o
  = (inr tt,
     tick 2 (with_tasks
       (<[task_id := set_steps
            (<[i := update_step status result error (clock o) s]> (t_steps t))
            (S (clock o)) t]> (tasks o)) o)).
Proof.
  intros H Hs. unfold update_task_step. unfold_M. simpl. rewrite H. simpl.
  by rewrite Hs.
Qed.

Lemma update_task_step_out_of_range t i status result error :
  tasks o !! task_id = Some t → t_steps t !! i = None →
  update_task_step task_id i status result error o
  = (inl (IndexError ("Step index " ++ pretty i
                       ++ " out of range for task " ++ task_id)), o).
Proof.
  intros H Hs. unfold update_task_step. unfold_M. simpl. rewrite H. simpl.
  by rewrite Hs.
Qed.

Lemma approve_task_waiting t :
  tasks o !! task_id = Some t → t_status t = value WAITING_FOR_APPROVAL →
  approve_task task_id o
  = (inr tt, tick 1 (with_tasks (<[task_id := set_status (value EXECUTING) (clock o) t]> (tasks o)) o)).
Proof.
  intros H Hw. unfold approve_task.
  pose proof (update_task_status_ok t (value EXECUTING) EXECUTING H eq_refl) as Hu.
  unfold_M. simpl in *. rewrite H in *. simpl.
  destruct (decide _) as [_|[]]; done.
Qed.

Lemma approve_task_not_waiting t :
  tasks o !! task_id = Some t → t_status t ≠ value WAITING_FOR_APPROVAL →
  approve_task task_id o
  = (inl (ValueError ("Task " ++ task_id ++ " is not waiting for approval")), o).
Proof.
  intros H Hw. unfold approve_task. unfold_M. simpl. rewrite H. simpl.
  destruct (decide _); done.
Qed.

Lemma approve_task_missing :
  tasks o !! task_id = None →
  approve_task task_id o = (inl (KeyError ("Task " ++ task_id ++ " not found")), o).
Proof. intros H. unfold approve_task. unfold_M. simpl. by rewrite H. Qed.

Lemma cancel_task_ok t :
  tasks o !! task_id = Some t →
  cancel_task task_id o
  = (inr tt,
     mkOrch (<[task_id := set_status (value CANCELLED) (clock o) t]> (tasks o))
       (active_tasks o ∖ {[task_id]}) (S (clock o))).
Proof.
  intros H. unfold cancel_task.
  pose proof (update_task_status_ok t (value CANCELLED) CANCELLED H eq_refl) as Hu.
  unfold pop_active. unfold_M. simpl in *. rewrite H in *. simpl.
  by rewrite Hu.
Qed.

Lemma cancel_task_missing :
  tasks o !! task_id = None →
  cancel_task task_id o = (inl (KeyError ("Task " ++ task_id ++ " not found")), o).
Proof. intros H. unfold cancel_task. unfold_M. simpl. by rewrite H. Qed.

End StoreOps.

(** ** approve_task *)

(** C8. [approve_task] on an unknown identifier raises [KeyError]
    (NotFound) and changes nothing; on a task whose status is
    ["waiting_for_approval"] it returns and the status becomes
    ["executing"], every other task being left as it was; on a task in any
    other status it raises [ValueError] (InvalidState) and changes
    nothing. *)
Theorem approve_task_spec (o : Orchestrator) (task_id : string) :
  match tasks o !! task_id with
  | None =>
      approve_task task_id o
      = (inl (KeyError ("Task " ++ task_id ++ " not found")), o)
  | Some t =>
      if decide (t_status t = "waiting_for_approval") then
        ∃ o', approve_task task_id o = (inr tt, o')
              ∧ t_status <$> tasks o' !! task_id = Some "executing"
              ∧ ∀ other, other ≠ task_id → tasks o' !! other = tasks o !! other
      else
        approve_task task_id o
        = (inl (ValueError ("Task " ++ task_id ++ " is not waiting for approval")), o)
  end.
Proof.
  destruct (tasks o !! task_id) as [t|] eqn:H.
  - destruct (decide _) as [Hw|Hw].
    + eexists. split; [by apply (approve_task_waiting o task_id t)|]. simpl. split.
      * by rewrite lookup_insert_eq.
      * intros other Hne. by rewrite lookup_insert_ne.
    + by apply (approve_task_not_waiting o task_id t).
  - by apply approve_task_missing.
Qed.

(** ** What one event does to the task of the worker *)

Section Events.
Context (env : Env) (task_id : string).

Lemma dispatch_spec o f step t st :
  tasks o !! task_id = Some t → t_steps t !! f_i f = Some st →
  dispatch env task_id f step o
  = match agent_call env task_id f step o with
    | inr r =>
        (inr true,
         tick 2 (with_tasks
           (<[task_id := set_steps
                (<[f_i f := update_step (Some "succeeded") (Some r) None (clock o) st]> (t_steps t))
                (S (clock o)) t]> (tasks o)) o))
    | inl e =>
        (inr false,
         tick 2 (with_tasks
           (<[task_id := set_steps
                (<[f_i f := update_step (Some "failed") None (Some (str_exn e)) (clock o) st]> (t_steps t))
                (S (clock o)) t]> (tasks o)) o))
    end.
Proof.
  intros H Hs. unfold dispatch, agent_call, try_except, live_view.
  pose proof (update_task_step_ok o task_id t (f_i f) st) as Hu.
  destruct (agents env !! default "execution" (p_agent_type step)) as [agent|].
  - unfold mbind, M_bind, mret, M_ret, lift at 1. simpl.
    destruct (agent _ step (f_i f)) as [e|r]; simpl.
    + by rewrite Hu.
    + by rewrite Hu.
  - unfold mbind, M_bind, mret, M_ret, raise at 1. simpl. by rewrite Hu.
Qed.

(** A call from another thread leaves the worker where it is, keeps
    the task, its steps, result and error, and changes its status only
    as [approve_task] and [cancel_task] on this very task do. *)
Lemma call_effect s ev t :
  ev ≠ Work → task_of task_id s = Some t →
  wpc (sys_step env task_id s ev) = wpc s
  ∧ ∃ t', task_of task_id (sys_step env task_id s ev) = Some t'
      ∧ t_steps t' = t_steps t ∧ t_result t' = t_result t
      ∧ t_error t' = t_error t
      ∧ (t_status t' = t_status t
         ∨ (ev = Approve task_id ∧ t_status t = "waiting_for_approval"
            ∧ t_status t' = "executing")
         ∨ (ev = Cancel task_id ∧ t_status t' = "cancelled")).
Proof.
  intros Hev H. unfold task_of in *. destruct s as [o p]. simpl in *.
  destruct ev as [|id|id]; [done| |]; simpl; (split; [done|]).
  - destruct (tasks o !! id) as [u|] eqn:Hid.
    + destruct (decide (t_status u = value WAITING_FOR_APPROVAL)) as [Hw|Hw].
      * rewrite (approve_task_waiting o id u Hid Hw). simpl.
        destruct (decide (id = task_id)) as [->|Hne].
        -- rewrite lookup_insert_eq. assert (u = t) as -> by congruence.
           eexists. split; [done|]. simpl. eauto 10.
        -- rewrite lookup_insert_ne by done. eauto 10.
      * rewrite (approve_task_not_waiting o id u Hid Hw). simpl. eauto 10.
    + rewrite (approve_task_missing o id Hid). simpl. eauto 10.
  - destruct (tasks o !! id) as [u|] eqn:Hid.
    + rewrite (cancel_task_ok o id u Hid). simpl.
      destruct (decide (id = task_id)) as [->|Hne].
      * rewrite lookup_insert_eq. assert (u = t) as -> by congruence.
        eexists. split; [done|]. simpl. eauto 10.
      * rewrite lookup_insert_ne by done. eauto 10.
    + rewrite (cancel_task_missing o id Hid). simpl. eauto 10.
Qed.

End Events.

(** ** The step ledger along a run *)

Ltac store_ops H :=
  repeat first
    [ rewrite (get_task_ok _ _ _ H)
    | erewrite (update_task_status_ok _ _ _ _ _ H) by reflexivity
    | rewrite (add_task_error_ok _ _ _ _ H)
    | rewrite (add_task_step_ok _ _ _ _ _ H) ];
  unfold tick, with_tasks; simpl.

Section Ledger.
Context (env : Env) (task_id : string).

Lemma rest_untouched_mono i j steps :
  (i ≤ j)%nat → rest_untouched i steps → rest_untouched j steps.
Proof. intros Hij H k st Hk. apply H. lia. Qed.

Lemma rest_untouched_insert i j st steps :
  (j < i)%nat → rest_untouched i steps → rest_untouched i (<[j := st]> steps).
Proof.
  intros Hji H k st' Hk. rewrite list_lookup_insert_ne by lia. by apply H.
Qed.

Lemma ledger_work s :
  LedgerInv task_id s → LedgerInv task_id (sys_step env task_id s Work).
Proof.
  intros (t & Ht & Hres & Hl). destruct s as [o p].
  unfold LedgerInv, task_of in *. simpl in *.
  destruct p; simpl in *.
  - (* Start *) store_ops Ht. eauto 10.
  - (* SetPlanning *) store_ops Ht. rewrite lookup_insert_eq. eauto 10.
  - (* Planning *)
    destruct (agents env !! "task_manager"); simpl; [|eauto 10].
    unfold lift. destruct (plan_task env task) as [e|plan]; simpl; [eauto 10|].
    eexists. split; [done|]. split; [done|]. rewrite Hl. simpl.
    split; [done|]. split; [lia|]. by intros j st _ ?.
  - (* AddSteps *)
    destruct Hl as (Hlen & Hk & Hu).
    destruct (plan_steps plan !! k) as [step|] eqn:Hstep; simpl.
    + store_ops Ht. rewrite lookup_insert_eq. eexists. split; [done|].
      split; [done|]. simpl. rewrite length_app. simpl.
      apply lookup_lt_Some in Hstep. split; [lia|]. split; [lia|].
      intros j st _ Hj. apply lookup_app_Some in Hj as [Hj|[_ Hj]].
      * apply (Hu j); [lia|done].
      * apply list_lookup_singleton_Some in Hj as [_ <-]. done.
    + apply lookup_ge_None in Hstep. eexists. split; [done|].
      split; [done|]. split; [lia|done].
  - (* SetExecuting *)
    store_ops Ht. rewrite lookup_insert_eq. eauto 10.
  - (* LoopHead *)
    destruct (plan_steps (f_plan f) !! f_i f) as [step|] eqn:Hstep; simpl;
      [|eauto 10].
    store_ops Ht. destruct Hl. destruct (decide _); simpl; eauto 10.
  - (* MarkStep *)
    destruct Hl as (Hlen & Hu & Hstep).
    destruct (t_steps t !! f_i f) as [st|] eqn:Hst.
    2:{ apply lookup_ge_None in Hst. apply lookup_lt_Some in Hstep. lia. }
    rewrite (update_task_step_ok _ _ _ _ _ _ _ _ Ht Hst). simpl.
    rewrite lookup_insert_eq.
    assert (ledger (Dispatch f step)
              (<[f_i f := update_step (Some "executing") None None (clock o) st]> (t_steps t))).
    { simpl. rewrite length_insert. split; [done|]. split.
      - apply rest_untouched_insert; [lia|].
        by apply (rest_untouched_mono (f_i f)); [lia|].
      - split; [done|]. eexists. rewrite list_lookup_insert_eq.
        + split; [done|]. destruct (Hu (f_i f) st) as (_ & ? & ?); [lia|done|].
          done.
        + by apply lookup_lt_Some in Hst. }
    destruct (default false (p_requires_approval step)); eauto 10.
  - (* SetWaiting *)
    store_ops Ht. rewrite lookup_insert_eq. eauto 10.
  - (* Poll *)
    store_ops Ht. repeat (destruct (decide _); simpl); eauto 10.
  - (* Dispatch *)
    destruct Hl as (Hlen & Hu & Hstep & st & Hst & _).
    rewrite (dispatch_spec env task_id o f step t st Ht Hst).
    destruct (agent_call env task_id f step o) as [e|r]; simpl.
    + destruct (default false (p_critical step)); simpl;
        rewrite lookup_insert_eq; eexists; (split; [done|]); (split; [done|]);
        simpl; [done|].
      rewrite length_insert. split; [done|].
      apply rest_untouched_insert; [lia|done].
    + rewrite lookup_insert_eq. eexists. split; [done|]. split; [done|].
      simpl. rewrite length_insert. split; [done|].
      apply rest_untouched_insert; [lia|done].
  - (* Finalize *)
    destruct success; store_ops Ht; rewrite lookup_insert_eq; eauto 10.
  - (* Learn *)
    destruct (agents env !! "learning"); simpl; [|eauto 10].
    unfold mbind, M_bind. store_ops Ht. unfold lift.
    destruct (learn_from_task env task_id t); simpl; eauto 10.
  - (* Handler *)
    store_ops Ht. rewrite lookup_insert_eq. eauto 10.
  - (* HandlerStatus *)
    store_ops Ht. rewrite lookup_insert_eq. eauto 10.
  - (* Finally *) eauto 10.
  - (* Done *) eauto 10.
Qed.

Lemma ledger_step s ev :
  LedgerInv task_id s → LedgerInv task_id (sys_step env task_id s ev).
Proof.
  destruct (decide (ev = Work)) as [->|Hev]; [apply ledger_work|].
  intros (t & Ht & Hres & Hl).
  destruct (call_effect env task_id s ev t Hev Ht)
    as (Hpc & t' & Ht' & Hsteps & Hres' & _).
  exists t'. rewrite Hpc, Hsteps, Hres'. done.
Qed.

Lemma ledger_run sched s :
  LedgerInv task_id s → LedgerInv task_id (run env task_id sched s).
Proof.
  revert s. induction sched as [|ev sched IH]; intros s Hs; [done|].
  simpl. apply IH. by apply ledger_step.
Qed.

Lemma ledger_spawn o task_type description parameters priority sched :
  LedgerInv task_id
    (run env task_id sched (spawn o task_id task_type description parameters priority)).
Proof.
  apply ledger_run. eexists. unfold task_of, spawn, create_task. simpl.
  rewrite lookup_insert_eq. done.
Qed.

End Ledger.

(** ** The status along a run without cancellation *)

Ltac in_list := apply (bool_decide_unpack _); by vm_compute.
Ltac not_in_list H := apply (bool_decide_pack _) in H; by vm_compute in H.

(** The status is the one it was, and fits the new point of the worker. *)
Ltac same_status pack t H :=
  apply pack; exists t; split; [done|]; split;
    [first [done | rewrite H; in_list | set_solver] | by left].

(** The status was written, or the task record replaced with the same
    status. *)
Ltac new_status pack H :=
  rewrite ?lookup_insert_eq; apply pack; eexists; split; [done|]; simpl; split;
    [first [done | in_list | rewrite H; in_list | set_solver]
    |first [by left | right; rewrite H; unfold edge; in_list]].

Section Status.
Context (env : Env) (task_id : string).

Lemma status_work s :
  learning_ok env → StatusInv task_id s →
  StatusInv task_id (sys_step env task_id s Work)
  ∧ moves task_id s (sys_step env task_id s Work).
Proof.
  intros [Hreg Hlearn] (t & Ht & Hph). destruct s as [o p].
  unfold StatusInv, moves, task_of in *. simpl in *.
  assert (∀ (P : Task → Prop) (x : option Task),
            (∃ t', x = Some t' ∧ P t'
                   ∧ (t_status t' = t_status t ∨ edge (t_status t) (t_status t'))) →
            (∃ t', x = Some t' ∧ P t')
            ∧ ∃ t0 t', tasks o !! task_id = Some t0 ∧ x = Some t'
                       ∧ (t_status t' = t_status t0 ∨ edge (t_status t0) (t_status t')))
    as pack by (intros P x (t' & ? & ? & ?); eauto 10).
  destruct p; simpl in *; try apply list_elem_of_singleton in Hph.
  - (* Start *) store_ops Ht. same_status pack t Hph.
  - (* SetPlanning *) store_ops Ht. new_status pack Hph.
  - (* Planning *)
    destruct (agents env !! "task_manager"); simpl.
    + unfold lift. destruct (plan_task env task); simpl; same_status pack t Hph.
    + same_status pack t Hph.
  - (* AddSteps *)
    destruct (plan_steps plan !! k); simpl.
    + store_ops Ht. new_status pack Hph.
    + same_status pack t Hph.
  - (* SetExecuting *) store_ops Ht. new_status pack Hph.
  - (* LoopHead *)
    destruct (plan_steps (f_plan f) !! f_i f); simpl.
    + store_ops Ht. destruct (decide _) as [Hc|Hc]; simpl.
      * rewrite Hph in Hc. done.
      * same_status pack t Hph.
    + same_status pack t Hph.
  - (* MarkStep *)
    destruct (t_steps t !! f_i f) as [st|] eqn:Hst.
    + rewrite (update_task_step_ok _ _ _ _ _ _ _ _ Ht Hst).
      unfold tick, with_tasks. simpl.
      destruct (default false (p_requires_approval step)); new_status pack Hph.
    + rewrite (update_task_step_out_of_range _ _ _ _ _ _ _ Ht Hst). simpl.
      same_status pack t Hph.
  - (* SetWaiting *) store_ops Ht. new_status pack Hph.
  - (* Poll *)
    store_ops Ht. destruct (decide _) as [He|He]; simpl.
    + same_status pack t He.
    + destruct (decide _) as [Hc|Hc]; simpl.
      * set_unfold in Hph. destruct Hph as [Hph|[Hph|[]]]; rewrite Hph in Hc; done.
      * same_status pack t Hph.
  - (* Dispatch *)
    destruct (t_steps t !! f_i f) as [st|] eqn:Hst.
    + rewrite (dispatch_spec env task_id o f step t st Ht Hst).
      unfold tick, with_tasks.
      destruct (agent_call env task_id f step o); simpl;
        [destruct (default false (p_critical step)); simpl|];
        new_status pack Hph.
    + unfold dispatch, try_except.
      pose proof (update_task_step_out_of_range o task_id t (f_i f)) as Hu.
      destruct (agents env !! default "execution" (p_agent_type step)) as [agent|];
        unfold live_view, mbind, M_bind, mret, M_ret, lift, raise; simpl.
      * destruct (agent _ step (f_i f)); simpl; rewrite !Hu by done; simpl;
          same_status pack t Hph.
      * rewrite !Hu by done; simpl. same_status pack t Hph.
  - (* Finalize *)
    destruct success; store_ops Ht; new_status pack Hph.
  - (* Learn *)
    destruct Hreg as [a ->]. simpl. unfold mbind, M_bind. store_ops Ht.
    unfold lift. rewrite Hlearn. simpl. same_status pack t Hph.
  - (* Handler *) store_ops Ht. new_status pack Hph.
  - (* HandlerStatus *)
    store_ops Ht. set_unfold in Hph.
    destruct Hph as [Hph|[Hph|[]]]; new_status pack Hph.
  - (* Finally *) same_status pack t Hph.
  - (* Done *) same_status pack t Hph.
Qed.

Lemma status_call s ev :
  ev ≠ Work → ev ≠ Cancel task_id → StatusInv task_id s →
  StatusInv task_id (sys_step env task_id s ev)
  ∧ moves task_id s (sys_step env task_id s ev).
Proof.
  intros Hev Hc (t & Ht & Hph).
  destruct (call_effect env task_id s ev t Hev Ht)
    as (Hpc & t' & Ht' & _ & _ & _ & Hst).
  unfold StatusInv, moves. rewrite Ht, Ht', Hpc.
  destruct Hst as [Hst|[(-> & Hw & He)|[? _]]]; [| |done].
  - rewrite <- Hst in Hph. eauto 10.
  - split.
    + exists t'. split; [done|]. rewrite He. rewrite Hw in Hph.
      destruct (wpc s); simpl in *; first [in_list | not_in_list Hph].
    + exists t, t'. split_and!; [done..|]. right. rewrite Hw, He. unfold edge. in_list.
Qed.

Lemma status_step s ev :
  learning_ok env → ev ≠ Cancel task_id → StatusInv task_id s →
  StatusInv task_id (sys_step env task_id s ev)
  ∧ moves task_id s (sys_step env task_id s ev).
Proof.
  intros Hl Hc Hs. destruct (decide (ev = Work)) as [->|Hev].
  - by apply status_work.
  - by apply status_call.
Qed.

Lemma status_run sched s :
  learning_ok env → Forall (λ ev, ev ≠ Cancel task_id) sched →
  StatusInv task_id s → StatusInv task_id (run env task_id sched s).
Proof.
  intros Hl. revert s. induction sched as [|ev sched IH]; intros s Hc Hs; [done|].
  inversion Hc; subst. simpl. apply IH; [done|]. by apply status_step.
Qed.

End Status.

(** The status is the one it was, and fits the new point of the worker. *)
Ltac same_status_any pack t H :=
  apply pack; exists t; split; [done|]; split;
    [first [done | rewrite H; in_list | set_solver] | by left].

(** The status was written, or the task record replaced with the same
    status. *)
Ltac new_status_any pack H :=
  rewrite ?lookup_insert_eq; apply pack; eexists; split; [done|]; simpl; split;
    [first [done | in_list | rewrite H; in_list | set_solver]
    |first [by left | right; left; rewrite H; unfold edge; in_list
           | right; right; by rewrite H]].

Section StatusAny.
Context (env : Env) (task_id : string).

Lemma status_any_work s :
  StatusAny task_id s →
  StatusAny task_id (sys_step env task_id s Work)
  ∧ moves_any task_id s (sys_step env task_id s Work).
Proof.
  intros (t & Ht & Hph). destruct s as [o p].
  unfold StatusAny, moves_any, task_of in *. simpl in *.
  assert (∀ (P : Task → Prop) (x : option Task),
            (∃ t', x = Some t' ∧ P t'
                   ∧ (t_status t' = t_status t ∨ edge (t_status t) (t_status t')
                      ∨ (t_status t = "succeeded" ∧ t_status t' = "failed"
                         ∧ p = HandlerStatus))) →
            (∃ t', x = Some t' ∧ P t')
            ∧ ∃ t0 t', tasks o !! task_id = Some t0 ∧ x = Some t'
                       ∧ (t_status t' = t_status t0 ∨ edge (t_status t0) (t_status t')
                          ∨ (t_status t0 = "succeeded" ∧ t_status t' = "failed"
                             ∧ p = HandlerStatus)))
    as pack by (intros P x (t' & ? & ? & ?); eauto 10).
  destruct p; simpl in *; try apply list_elem_of_singleton in Hph.
  - (* Start *) store_ops Ht. same_status_any pack t Hph.
  - (* SetPlanning *) store_ops Ht. new_status_any pack Hph.
  - (* Planning *)
    destruct (agents env !! "task_manager"); simpl.
    + unfold lift. destruct (plan_task env task); simpl; same_status_any pack t Hph.
    + same_status_any pack t Hph.
  - (* AddSteps *)
    destruct (plan_steps plan !! k); simpl.
    + store_ops Ht. new_status_any pack Hph.
    + same_status_any pack t Hph.
  - (* SetExecuting *) store_ops Ht. new_status_any pack Hph.
  - (* LoopHead *)
    destruct (plan_steps (f_plan f) !! f_i f); simpl.
    + store_ops Ht. destruct (decide _) as [Hc|Hc]; simpl.
      * rewrite Hph in Hc. done.
      * same_status_any pack t Hph.
    + same_status_any pack t Hph.
  - (* MarkStep *)
    destruct (t_steps t !! f_i f) as [st|] eqn:Hst.
    + rewrite (update_task_step_ok _ _ _ _ _ _ _ _ Ht Hst).
      unfold tick, with_tasks. simpl.
      destruct (default false (p_requires_approval step)); new_status_any pack Hph.
    + rewrite (update_task_step_out_of_range _ _ _ _ _ _ _ Ht Hst). simpl.
      same_status_any pack t Hph.
  - (* SetWaiting *) store_ops Ht. new_status_any pack Hph.
  - (* Poll *)
    store_ops Ht. destruct (decide _) as [He|He]; simpl.
    + same_status_any pack t He.
    + destruct (decide _) as [Hc|Hc]; simpl.
      * set_unfold in Hph. destruct Hph as [Hph|[Hph|[]]]; rewrite Hph in Hc; done.
      * same_status_any pack t Hph.
  - (* Dispatch *)
    destruct (t_steps t !! f_i f) as [st|] eqn:Hst.
    + rewrite (dispatch_spec env task_id o f step t st Ht Hst).
      unfold tick, with_tasks.
      destruct (agent_call env task_id f step o); simpl;
        [destruct (default false (p_critical step)); simpl|];
        new_status_any pack Hph.
    + unfold dispatch, try_except.
      pose proof (update_task_step_out_of_range o task_id t (f_i f)) as Hu.
      destruct (agents env !! default "execution" (p_agent_type step)) as [agent|];
        unfold live_view, mbind, M_bind, mret, M_ret, lift, raise; simpl.
      * destruct (agent _ step (f_i f)); simpl; rewrite !Hu by done; simpl;
          same_status_any pack t Hph.
      * rewrite !Hu by done; simpl. same_status_any pack t Hph.
  - (* Finalize *)
    destruct success; store_ops Ht; new_status_any pack Hph.
  - (* Learn *)
    destruct (agents env !! "learning"); simpl.
    + unfold mbind, M_bind. store_ops Ht. unfold lift.
      destruct (learn_from_task env task_id t); simpl; same_status_any pack t Hph.
    + same_status_any pack t Hph.
  - (* Handler *) store_ops Ht. new_status_any pack Hph.
  - (* HandlerStatus *)
    store_ops Ht. set_unfold in Hph.
    destruct Hph as [Hph|[Hph|[Hph|[]]]]; new_status_any pack Hph.
  - (* Finally *) same_status_any pack t Hph.
  - (* Done *) same_status_any pack t Hph.
Qed.

Lemma status_any_call s ev :
  ev ≠ Work → ev ≠ Cancel task_id → StatusAny task_id s →
  StatusAny task_id (sys_step env task_id s ev)
  ∧ moves_any task_id s (sys_step env task_id s ev).
Proof.
  intros Hev Hc (t & Ht & Hph).
  destruct (call_effect env task_id s ev t Hev Ht)
    as (Hpc & t' & Ht' & _ & _ & _ & Hst).
  unfold StatusAny, moves_any. rewrite Ht, Ht', Hpc.
  destruct Hst as [Hst|[(-> & Hw & He)|[? _]]]; [| |done].
  - rewrite <- Hst in Hph. eauto 10.
  - split.
    + exists t'. split; [done|]. rewrite He. rewrite Hw in Hph.
      destruct (wpc s); simpl in *; first [in_list | not_in_list Hph].
    + exists t, t'. split_and!; [done..|]. right. left. rewrite Hw, He.
      unfold edge. in_list.
Qed.

Lemma status_any_step s ev :
  ev ≠ Cancel task_id → StatusAny task_id s →
  StatusAny task_id (sys_step env task_id s ev)
  ∧ moves_any task_id s (sys_step env task_id s ev).
Proof.
  intros Hc Hs. destruct (decide (ev = Work)) as [->|Hev].
  - by apply status_any_work.
  - by apply status_any_call.
Qed.

Lemma status_any_run sched s :
  Forall (λ ev, ev ≠ Cancel task_id) sched →
  StatusAny task_id s → StatusAny task_id (run env task_id sched s).
Proof.
  revert s. induction sched as [|ev sched IH]; intros s Hc Hs; [done|].
  inversion Hc; subst. simpl. apply IH; [done|]. by apply status_any_step.
Qed.

Lemma status_any_spawn o task_type description parameters priority :
  StatusAny task_id (spawn o task_id task_type description parameters priority).
Proof.
  eexists. unfold task_of, spawn, create_task. simpl. rewrite lookup_insert_eq.
  split; [done|]. simpl. in_list.
Qed.

End StatusAny.

(** ** Runs *)

Section Runs.
Context (env : Env) (task_id : string).

Lemma run_app sched1 sched2 s :
  run env task_id (sched1 ++ sched2) s
  = run env task_id sched2 (run env task_id sched1 s).
Proof. apply foldl_app. Qed.

Lemma works_cons ev sched :
  works (ev :: sched) = (if decide (ev = Work) then 1 else 0) + works sched.
Proof.
  unfold works. rewrite filter_cons. by destruct (decide (ev = Work)).
Qed.

Lemma works_replicate n : works (replicate n Work) = n.
Proof.
  induction n as [|n IH]; [done|]. simpl. rewrite works_cons, IH.
  by destruct (decide (Work = Work)).
Qed.

(** An invariant kept by every allowed event, under which each worker
    step uses up one unit of [rank]. *)
Lemma run_invariant (I : Sys → Prop) (allowed : event → Prop) (rank : pc → nat) :
  (∀ s ev, allowed ev → I s →
     I (sys_step env task_id s ev)
     ∧ rank (wpc (sys_step env task_id s ev))
       ≤ rank (wpc s) - (if decide (ev = Work) then 1 else 0)) →
  ∀ sched s, Forall allowed sched → I s →
    I (run env task_id sched s)
    ∧ rank (wpc (run env task_id sched s)) ≤ rank (wpc s) - works sched.
Proof.
  intros Hstep sched. induction sched as [|ev sched IH]; intros s Hall Hs.
  - simpl. split; [done|]. unfold works. simpl. lia.
  - inversion Hall; subst. destruct (Hstep s ev) as [Hs' Hr]; [done..|].
    destruct (IH (sys_step env task_id s ev)) as [Hs'' Hr']; [done..|].
    simpl. split; [done|]. rewrite works_cons. lia.
Qed.

Lemma cancelled_in_wait_step t1 f step s ev :
  cancelled_in_wait task_id t1 f step s →
  cancelled_in_wait task_id t1 f step (sys_step env task_id s ev)
  ∧ remaining (wpc (sys_step env task_id s ev))
    ≤ remaining (wpc s) - (if decide (ev = Work) then 1 else 0).
Proof.
  intros (t & Ht & Hsteps & Hres & Hst & Hpc).
  destruct (decide (ev = Work)) as [->|Hev].
  - destruct s as [o p]. unfold cancelled_in_wait, task_of in *. simpl in *.
    destruct Hpc as [-> | [-> | ->]]; simpl.
    + store_ops Ht. rewrite Hst. simpl. split; [eauto 10|lia].
    + split; [eauto 10|lia].
    + split; [eauto 10|lia].
  - destruct (call_effect env task_id s ev t Hev Ht)
      as (Hpc' & t' & Ht' & Hsteps' & Hres' & _ & Hst').
    rewrite Hpc'. split; [|lia].
    exists t'. rewrite Hpc', Hsteps', Hres'. split_and!; [done..| |done].
    destruct Hst' as [Hst'|[(_ & Hw & _)|[_ Hc]]]; [congruence| |done].
    rewrite Hst in Hw. done.
Qed.

Lemma aborted_step steps strict s ev :
  (strict = true → ev ≠ Cancel task_id) →
  aborted task_id steps strict s →
  aborted task_id steps strict (sys_step env task_id s ev)
  ∧ remaining (wpc (sys_step env task_id s ev))
    ≤ remaining (wpc s) - (if decide (ev = Work) then 1 else 0).
Proof.
  intros Hstrict (t & Ht & Hsteps & Hpc).
  destruct (decide (ev = Work)) as [->|Hev].
  - destruct s as [o p]. unfold aborted, task_of in *. simpl in *.
    destruct Hpc as [-> | [[-> | ->] Hst]]; simpl.
    + store_ops Ht. rewrite lookup_insert_eq. split; [|lia].
      eexists. split; [done|]. simpl. eauto 10.
    + split; [eauto 10|lia].
    + split; [eauto 10|lia].
  - destruct (call_effect env task_id s ev t Hev Ht)
      as (Hpc' & t' & Ht' & Hsteps' & _ & _ & Hst').
    rewrite Hpc'. split; [|lia].
    exists t'. rewrite Hpc', Hsteps'. split_and!; [done..|].
    destruct Hpc as [? | [? Hst]]; [by left|right]. split; [done|].
    intros Hs. specialize (Hst Hs).
    destruct Hst' as [Hst'|[(_ & Hw & _)|[-> _]]]; [congruence| |].
    + rewrite Hst in Hw. done.
    + by specialize (Hstrict Hs).
Qed.

End Runs.

(** ** The status graph *)

Lemma spawn_status o task_id task_type description parameters priority :
  StatusInv task_id (spawn o task_id task_type description parameters priority).
Proof.
  eexists. unfold task_of, spawn, create_task. simpl. rewrite lookup_insert_eq.
  split; [done|]. simpl. in_list.
Qed.

Lemma edge_not_from_terminal a b : terminal a → ¬ edge a b.
Proof.
  unfold terminal, edge. intros Ha Hab.
  apply list_elem_of_In in Ha, Hab. simpl in *.
  destruct Ha as [<- | [<- | [<- | []]]];
    repeat (destruct Hab as [Hab|Hab]; [by inversion Hab|]); done.
Qed.

(** C2, a counterexample: a task runs to the end of its one-step plan and is
    ["succeeded"], its worker done; [cancel_task] then makes it
    ["cancelled"]. So it is not true that no event moves a task out of a
    terminal state. *)
Lemma cancel_leaves_terminal_state :
  ¬ (∀ env sched ev st,
       status_of "t1" (demo env sched) = Some st → terminal st →
       status_of "t1" (sys_step env "t1" (demo env sched) ev) = Some st).
Proof.
  intros H.
  specialize (H (env_with_plan plan_validate) (replicate 13 Work) (Cancel "t1")
                "succeeded").
  assert (Some "cancelled" = Some "succeeded") as Heq; [|discriminate Heq].
  apply H; [by vm_compute|]. unfold terminal. in_list.
Qed.

(** The worker too overwrites a terminal status: cancelled after its last
    step has run and before the worker looks at the status again, the
    task ends ["succeeded"]. *)
Example worker_overwrites_cancelled :
  let sched := (replicate 9 Work ++ [Cancel "t1"])%list in
  status_of "t1" (demo (env_with_plan plan_validate) sched) = Some "cancelled"
  ∧ status_of "t1" (demo (env_with_plan plan_validate) (sched ++ replicate 3 Work)%list)
    = Some "succeeded".
Proof. by vm_compute. Qed.

(** C2, amended. As long as nobody calls [cancel_task] on the task,
    every event (a step of the worker, or a call of [approve_task] or
    of [cancel_task] on another task) leaves the status as it is or
    moves it along
    pending → planning → executing ⇄ waiting_for_approval →
    {succeeded, failed}, or from planning to failed, or, in the handler
    of the worker after the learning call has raised, from succeeded to
    failed. That last move is the only one out of a terminal state, and
    where the learning call returns there is none. [approve_task] never
    changes a task in a terminal state. [cancel_task] sets the status to
    ["cancelled"] whatever it was before, terminal or not. *)
Theorem status_follows_graph (env : Env) (o : Orchestrator)
    (task_id task_type description : string) (parameters : gmap string pyval)
    (priority : string) (sched : list event) (ev : event) :
  Forall (λ ev, ev ≠ Cancel task_id) sched → ev ≠ Cancel task_id →
  let s := run env task_id sched
             (spawn o task_id task_type description parameters priority) in
  let s' := sys_step env task_id s ev in
  (∃ a b, status_of task_id s = Some a ∧ status_of task_id s' = Some b
          ∧ (b = a ∨ edge a b
             ∨ (a = "succeeded" ∧ b = "failed" ∧ wpc s = HandlerStatus))
          ∧ (terminal a → b = a ∨ (a = "succeeded" ∧ b = "failed"))
          ∧ (learning_ok env → (b = a ∨ edge a b) ∧ (terminal a → b = a)))
  ∧ (∀ o1 t, tasks o1 !! task_id = Some t → terminal (t_status t) →
       approve_task task_id o1
       = (inl (ValueError ("Task " ++ task_id ++ " is not waiting for approval")), o1))
  ∧ (∀ o1 t, tasks o1 !! task_id = Some t →
       t_status <$> tasks (cancel_task task_id o1).2 !! task_id = Some "cancelled").
Proof.
  intros Hsched Hev s s'. split_and!.
  - assert (StatusAny task_id s) as Hs.
    { apply status_any_run; [done|]. apply status_any_spawn. }
    destruct (status_any_step env task_id s ev Hev Hs)
      as [_ (t & t' & Ht & Ht' & Hmove)].
    exists (t_status t), (t_status t'). unfold status_of. subst s'.
    rewrite Ht, Ht'. split_and!; [done|done| | |].
    + destruct Hmove as [?|[?|(? & ? & ?)]]; auto.
    + intros Hterm. destruct Hmove as [?|[Hedge|(? & ? & ?)]]; [by left| |by right].
      by destruct (edge_not_from_terminal _ _ Hterm Hedge).
    + intros Hlearn.
      assert (StatusInv task_id s) as Hs'.
      { apply status_run; [done..|]. by apply spawn_status. }
      destruct (status_step env task_id s ev Hlearn Hev Hs')
        as [_ (t0 & t0' & Ht0 & Ht0' & Hmove')].
      assert (t0 = t) as -> by congruence. assert (t0' = t') as -> by congruence.
      split; [by destruct Hmove' as [?|?]; auto|].
      intros Hterm. destruct Hmove' as [?|Hedge]; [done|].
      by destruct (edge_not_from_terminal _ _ Hterm Hedge).
  - intros o1 t Ht Hterm. apply (approve_task_not_waiting o1 task_id t Ht).
    intros Hw. rewrite Hw in Hterm. unfold terminal in Hterm. not_in_list Hterm.
  - intros o1 t Ht. rewrite (cancel_task_ok o1 task_id t Ht). simpl.
    by rewrite lookup_insert_eq.
Qed.

Lemma status_follows_graph_witness :
  let env := wired_env (λ _, inr plan_gated) ok_backends in
  (Forall (λ ev, ev ≠ Cancel "t1") (replicate 11 Work)
   ∧ Approve "t1" ≠ Cancel "t1")
  ∧ ∃ a b,
      status_of "t1" (demo env (replicate 11 Work)) = Some a
      ∧ status_of "t1" (sys_step env "t1" (demo env (replicate 11 Work))
                          (Approve "t1")) = Some b
      ∧ (b = a ∨ edge a b
         ∨ (a = "succeeded" ∧ b = "failed"
            ∧ wpc (demo env (replicate 11 Work)) = HandlerStatus))
      ∧ (terminal a → b = a ∨ (a = "succeeded" ∧ b = "failed"))
      ∧ (learning_ok env → (b = a ∨ edge a b) ∧ (terminal a → b = a)).
Proof.
  intros env.
  assert (Forall (λ ev, ev ≠ Cancel "t1") (replicate 11 Work)) as Hs.
  { apply Forall_replicate. discriminate. }
  assert (Approve "t1" ≠ Cancel "t1") as He by discriminate.
  split; [exact (conj Hs He)|].
  exact (proj1 (status_follows_graph env empty_orchestrator
                  "t1" "demo" "x" ∅ "low" (replicate 11 Work) (Approve "t1")
                  Hs He)).
Defined.

(** ** Critical failure *)

(** A critical step that raises aborts the plan. Take any run of a
    created task, whatever other threads call in between, that has
    brought the worker to the dispatch of step [k] of its plan, let that
    step be critical and let the call raise: the agent type is not
    registered, or [execute_step] raises. Then after the next step of
    the worker and any further events, step [k] is ["failed"] with the
    exception text as its error, every later step of the plan is still
    ["pending"] with no result and no error, and the status of the task
    is ["failed"] once the worker has finalized, provided nobody cancels
    the task afterwards. The steps before [k] play no part. *)
Theorem critical_failure_aborts (env : Env) (o : Orchestrator)
    (task_id task_type description : string) (parameters : gmap string pyval)
    (priority : string) (sched1 sched2 : list event)
    (f : Frame) (step : PlanStep) (e : exn) :
  let s1 := run env task_id sched1
              (spawn o task_id task_type description parameters priority) in
  let s2 := run env task_id (Work :: sched2) s1 in
  wpc s1 = Dispatch f step →
  p_critical step = Some true →
  agent_call env task_id f step (orch s1) = inl e →
  (∃ st, step_of task_id (f_i f) s2 = Some st
         ∧ s_status st = "failed" ∧ s_error st = Some (str_exn e))
  ∧ (∀ j, f_i f < j < length (plan_steps (f_plan f)) →
       ∃ st, step_of task_id j s2 = Some st ∧ untouched st)
  ∧ (Forall (λ ev, ev ≠ Cancel task_id) sched2 → 1 ≤ works sched2 →
     status_of task_id s2 = Some "failed").
Proof.
  intros s1 s2 Hpc Hcrit Hcall.
  destruct (ledger_spawn env task_id o task_type description parameters priority sched1)
    as (t & Ht & _ & Hl).
  fold s1 in Ht, Hl. rewrite Hpc in Hl.
  destruct Hl as (Hlen & Hrest & _ & st & Hst & _).
  set (steps := <[f_i f := update_step (Some "failed") None (Some (str_exn e))
                            (clock (orch s1)) st]> (t_steps t)).
  assert (∀ strict, aborted task_id steps strict (sys_step env task_id s1 Work))
    as Hab.
  { intros strict. unfold aborted, task_of in *. destruct s1 as [o1 p1].
    simpl in *. subst p1. simpl.
    rewrite (dispatch_spec env task_id o1 f step t st Ht Hst), Hcall. simpl.
    rewrite Hcrit. simpl. rewrite lookup_insert_eq. eauto 10. }
  assert (∀ strict, (strict = true → Forall (λ ev, ev ≠ Cancel task_id) sched2) →
            aborted task_id steps strict s2
            ∧ remaining (wpc s2)
              ≤ remaining (wpc (sys_step env task_id s1 Work)) - works sched2)
    as Hrun.
  { intros strict Hs.
    change s2 with (run env task_id sched2 (sys_step env task_id s1 Work)).
    apply (run_invariant env task_id (aborted task_id steps strict)
             (λ ev, strict = true → ev ≠ Cancel task_id) remaining).
    - intros s ev Hev. by apply aborted_step.
    - apply Forall_forall. intros ev Hin Hstrict.
      by apply (proj1 (Forall_forall _ _) (Hs Hstrict)).
    - apply Hab. }
  destruct (Hrun false) as [(t2 & Ht2 & Hsteps & _) _]; [done|].
  split_and!.
  - unfold step_of. rewrite Ht2. simpl. rewrite Hsteps. unfold steps.
    rewrite list_lookup_insert_eq by (by apply lookup_lt_Some in Hst). eauto.
  - intros j Hj. unfold step_of. rewrite Ht2. simpl. rewrite Hsteps.
    unfold steps. rewrite list_lookup_insert_ne by lia.
    destruct (t_steps t !! j) as [stj|] eqn:Hstj.
    + exists stj. split; [done|]. apply (Hrest j); [lia|done].
    + apply lookup_ge_None in Hstj. lia.
  - intros Hnc Hw.
    destruct (Hrun true) as [(t3 & Ht3 & _ & Hpc3) Hrem]; [done|].
    unfold status_of. rewrite Ht3. simpl.
    destruct Hpc3 as [Hpc3 | [_ Hst3]]; [|by rewrite Hst3].
    destruct (Hab true) as (t4 & _ & _ & Hpc1).
    destruct Hpc1 as [Hp | [[Hp | Hp] _]]; rewrite Hp, Hpc3 in Hrem;
      simpl in Hrem; lia.
Qed.

Lemma critical_failure_aborts_witness :
  let env := env_with_plan plan_unknown_agent in
  let s1 := demo env (replicate 9 Work) in
  let s2 := run env "t1" [Work; Approve "t1"; Work; Work] s1 in
  (wpc s1 = Dispatch unknown_agent_frame
              (full_step "change" "provisioning" false true ∅)
   ∧ agent_call env "t1" unknown_agent_frame
       (full_step "change" "provisioning" false true ∅) (orch s1)
     = inl (KeyError "provisioning"))
  ∧ (∃ st, step_of "t1" 0 s2 = Some st
           ∧ s_status st = "failed" ∧ s_error st = Some "'provisioning'")
  ∧ (∀ j, 0 < j < 2 → ∃ st, step_of "t1" j s2 = Some st ∧ untouched st)
  ∧ status_of "t1" s2 = Some "failed".
Proof.
  intros env s1 s2.
  assert (wpc s1 = Dispatch unknown_agent_frame
                     (full_step "change" "provisioning" false true ∅)) as Hpc
    by (by vm_compute).
  assert (agent_call env "t1" unknown_agent_frame
            (full_step "change" "provisioning" false true ∅) (orch s1)
          = inl (KeyError "provisioning")) as Hcall by (by vm_compute).
  destruct (critical_failure_aborts env empty_orchestrator "t1" "demo" "x" ∅ "low"
              (replicate 9 Work) [Approve "t1"; Work; Work]
              unknown_agent_frame _ _ Hpc eq_refl Hcall) as (H1 & H2 & H3).
  split_and!; [done..|].
  apply H3; [|vm_compute; lia].
  repeat constructor; discriminate.
Defined.

(** ** Cancellation during the approval wait *)

(** C10. Take any run of a created task that has brought the worker into
    the approval wait loop of a step, and let [cancel_task] be called on
    the task there. Then, whatever events follow, the steps of the task
    are exactly those it had when it was cancelled: the gated step is
    ["executing"] with no result and no error, the later steps are
    untouched; the task has no result and stays ["cancelled"]; the
    worker is still in the loop or on its way out, and it has terminated
    as soon as it has run twice. *)
Theorem cancel_in_approval_wait (env : Env) (o : Orchestrator)
    (task_id task_type description : string) (parameters : gmap string pyval)
    (priority : string) (sched1 sched2 : list event)
    (f : Frame) (step : PlanStep) :
  let s1 := run env task_id sched1
              (spawn o task_id task_type description parameters priority) in
  let s2 := run env task_id (Cancel task_id :: sched2) s1 in
  wpc s1 = Poll f step →
  ∃ t1 t2,
    task_of task_id s1 = Some t1 ∧ task_of task_id s2 = Some t2
    ∧ t_steps t2 = t_steps t1
    ∧ in_progress (f_i f) (t_steps t2)
    ∧ rest_untouched (S (f_i f)) (t_steps t2)
    ∧ t_result t2 = None
    ∧ t_status t2 = "cancelled"
    ∧ (wpc s2 = Poll f step ∨ wpc s2 = Finally None ∨ wpc s2 = Done None)
    ∧ (2 ≤ works sched2 → wpc s2 = Done None).
Proof.
  intros s1 s2 Hpc.
  destruct (ledger_spawn env task_id o task_type description parameters priority sched1)
    as (t1 & Ht1 & Hres & Hl).
  fold s1 in Ht1, Hl. rewrite Hpc in Hl.
  destruct Hl as (_ & Hrest & _ & Hprog).
  assert (cancelled_in_wait task_id t1 f step (sys_step env task_id s1 (Cancel task_id)))
    as Hc.
  { destruct (call_effect env task_id s1 (Cancel task_id) t1 ltac:(done) Ht1)
      as (Hpc' & t' & Ht' & Hsteps' & Hres' & _ & Hst').
    exists t'. rewrite Hpc'. split_and!; [done..| |by left].
    destruct Hst' as [Hst'|[(? & _)|[_ ?]]]; [|done..].
    unfold task_of in *. destruct s1 as [o1 p1]. simpl in *.
    rewrite (cancel_task_ok o1 task_id t1 Ht1) in Ht'. simpl in Ht'.
    rewrite lookup_insert_eq in Ht'. by inversion Ht'. }
  destruct (run_invariant env task_id (cancelled_in_wait task_id t1 f step)
              (λ _, True) remaining
              (λ s ev _, cancelled_in_wait_step env task_id t1 f step s ev)
              sched2 _ ltac:(by apply Forall_true) Hc)
    as [(t2 & Ht2 & Hsteps & Hres2 & Hst & Hpc2) Hrem].
  change (run env task_id sched2 (sys_step env task_id s1 (Cancel task_id)))
    with s2 in *.
  exists t1, t2.
  rewrite Hsteps. split_and!; [done..|congruence|done|done|].
  intros Hw. simpl in Hrem. rewrite Hpc in Hrem. simpl in Hrem.
  destruct Hpc2 as [Hp | [Hp | Hp]]; rewrite Hp in *; simpl in Hrem; [lia..|done].
Qed.

Lemma cancel_in_approval_wait_witness :
  let env := env_with_plan plan_gated in
  let s1 := demo env (replicate 11 Work) in
  let s2 := run env "t1" [Cancel "t1"; Work; Approve "t1"; Work] s1 in
  wpc s1 = Poll gated_frame (full_step "change" "validation" true true ∅)
  ∧ ∃ t1 t2,
      task_of "t1" s1 = Some t1 ∧ task_of "t1" s2 = Some t2
      ∧ t_steps t2 = t_steps t1
      ∧ in_progress 0 (t_steps t2)
      ∧ rest_untouched 1 (t_steps t2)
      ∧ t_result t2 = None
      ∧ t_status t2 = "cancelled"
      ∧ (wpc s2 = Poll gated_frame (full_step "change" "validation" true true ∅)
         ∨ wpc s2 = Finally None ∨ wpc s2 = Done None)
      ∧ (2 ≤ works [Work; Approve "t1"; Work] → wpc s2 = Done None).
Proof.
  intros env s1 s2.
  assert (wpc s1 = Poll gated_frame (full_step "change" "validation" true true ∅))
    as Hpc by (by vm_compute).
  split; [done|].
  exact (cancel_in_approval_wait env empty_orchestrator "t1" "demo" "x" ∅ "low"
           (replicate 11 Work) [Work; Approve "t1"; Work] gated_frame _ Hpc).
Defined.

(** ** Learning *)

Section Learning.
Context (env : Env) (task_id : string).

Lemma run_done n s u :
  wpc s = Done u → run env task_id (replicate n Work) s = s.
Proof.
  intros Hpc. induction n as [|n IH]; [done|].
  simpl. destruct s as [o p]. simpl in *. subst p. simpl. apply IH.
Qed.

Lemma run_finally n s :
  wpc s = Finally None →
  status_of task_id (run env task_id (replicate n Work) s) = status_of task_id s.
Proof.
  intros Hpc. destruct n as [|n]; [done|].
  simpl. destruct s as [o p]. simpl in *. subst p. simpl.
  by rewrite (run_done n _ None).
Qed.

End Learning.

(** C4, a counterexample: with the agents of the source and a planner
    that fails, the approved fallback plan runs through and the task is
    ["succeeded"] when the worker calls [learn_from_task]; that call
    raises a [TypeError] on the details of the first step, and three
    steps of the worker later the task is ["failed"]. *)
Lemma learning_failure_changes_status :
  ¬ (∀ env sched n,
       let s := demo env sched in
       wpc s = Learn → status_of "t1" s = Some "succeeded" →
       (∃ t e, task_of "t1" s = Some t ∧ learn_from_task env "t1" t = inl e) →
       status_of "t1" (run env "t1" (replicate n Work) s) = Some "succeeded").
Proof.
  intros H.
  specialize (H (wired_env failing_chain ok_backends) until_learning 3).
  assert (Some "failed" = Some "succeeded") as Heq; [|discriminate Heq].
  apply H; [by vm_compute..|].
  eexists _, (TypeError "string indices must be integers").
  split; by vm_compute.
Qed.

(** C4, amended. When the worker is at the learning call and
    [learn_from_task] raises, the handler at the top of the worker
    records the exception text as the error of the task and sets its
    status to ["failed"], in three steps of the worker; the steps of the
    task are kept. When [learn_from_task] returns, the worker leaves the
    status as it is, however long it runs. *)
Theorem learning_failure_fails_task (env : Env) (task_id : string) (s : Sys) (t : Task) :
  wpc s = Learn → task_of task_id s = Some t →
  is_Some (agents env !! "learning") →
  (∀ e, learn_from_task env task_id t = inl e →
     ∃ t', task_of task_id (run env task_id [Work; Work; Work] s) = Some t'
           ∧ t_status t' = "failed" ∧ t_error t' = Some (str_exn e)
           ∧ t_steps t' = t_steps t)
  ∧ (learn_from_task env task_id t = inr tt →
     ∀ n, status_of task_id (run env task_id (replicate n Work) s)
          = Some (t_status t)).
Proof.
  intros Hpc Ht [a Ha]. destruct s as [o p]. unfold task_of in *. simpl in *.
  subst p. split.
  - intros e He. unfold task_of. simpl. rewrite Ha. unfold mbind, M_bind.
    store_ops Ht. unfold lift. rewrite He. simpl.
    store_ops Ht.
    rewrite (update_task_status_ok _ task_id
               (set_error (Some (str_exn e)) (clock o) t) "failed" FAILED)
      by (simpl; rewrite ?lookup_insert_eq; done).
    simpl. rewrite lookup_insert_eq. eauto.
  - intros He [|n]; [by unfold status_of, task_of; simpl; rewrite Ht|].
    simpl. rewrite Ha. unfold mbind, M_bind. store_ops Ht.
    unfold lift. rewrite He. simpl.
    rewrite run_finally by done. unfold status_of, task_of. simpl.
    by rewrite Ht.
Qed.

Lemma learning_failure_fails_task_witness :
  let env := wired_env failing_chain ok_backends in
  let s := demo env until_learning in
  wpc s = Learn
  ∧ status_of "t1" s = Some "succeeded"
  ∧ ∃ t', task_of "t1" (run env "t1" [Work; Work; Work] s) = Some t'
          ∧ t_status t' = "failed"
          ∧ t_error t' = Some "string indices must be integers".
Proof.
  intros env s.
  assert (wpc s = Learn) as Hpc by (vm_compute; reflexivity).
  pose (t := default demo_task (task_of "t1" s)).
  assert (task_of "t1" s = Some t) as Ht by (vm_compute; reflexivity).
  assert (learn_from_task env "t1" t
          = inl (TypeError "string indices must be integers")) as He
    by (vm_compute; reflexivity).
  assert (is_Some (agents env !! "learning")) as Hreg
    by (eexists; vm_compute; reflexivity).
  split; [exact Hpc|]. split; [vm_compute; reflexivity|].
  destruct (proj1 (learning_failure_fails_task env "t1" s t Hpc Ht Hreg) _ He)
    as (t' & H1 & H2 & H3 & _).
  exists t'. split; [exact H1|]. split; [exact H2|exact H3].
Defined.

(** ** Dispatch *)

Section Dispatch.
Context (env : Env) (task_id : string).

Lemma dispatch_keeps_task o f step t :
  tasks o !! task_id = Some t →
  ∃ t', tasks (dispatch env task_id f step o).2 !! task_id = Some t'.
Proof.
  intros Ht. destruct (t_steps t !! f_i f) as [st|] eqn:Hst.
  - rewrite (dispatch_spec env task_id o f step t st Ht Hst).
    destruct (agent_call env task_id f step o); simpl;
      rewrite lookup_insert_eq; eauto.
  - unfold dispatch, try_except.
    pose proof (update_task_step_out_of_range o task_id t (f_i f)) as Hu.
    destruct (agents env !! default "execution" (p_agent_type step)) as [agent|];
      unfold live_view, mbind, M_bind, mret, M_ret, lift, raise; simpl.
    + destruct (agent _ step (f_i f)); simpl; rewrite !Hu by done; simpl; eauto.
    + rewrite !Hu by done; simpl. eauto.
Qed.

(** A step whose [execute_step] raises, or whose agent type is not
    registered, is marked ["failed"] with the exception text as its
    error. *)
Lemma raised_exception_marks_step_failed o t f step st e :
  tasks o !! task_id = Some t → t_steps t !! f_i f = Some st →
  agent_call env task_id f step o = inl e →
  let s' := sys_step env task_id (mkSys o (Dispatch f step)) Work in
  (∃ st', step_of task_id (f_i f) s' = Some st'
          ∧ s_status st' = "failed" ∧ s_error st' = Some (str_exn e)
          ∧ s_result st' = s_result st)
  ∧ wpc s' = (if default false (p_critical step) then Finalize false
              else LoopHead (next_step false f)).
Proof.
  intros Ht Hst Hcall. unfold step_of, task_of. simpl.
  rewrite (dispatch_spec env task_id o f step t st Ht Hst), Hcall. simpl.
  destruct (default false (p_critical step)); simpl;
    rewrite lookup_insert_eq; simpl;
    (rewrite list_lookup_insert_eq by (by apply lookup_lt_Some in Hst));
    eauto 10.
Qed.

End Dispatch.

(** C1. Whatever [execute_step] returns counts as success: the step is
    marked ["succeeded"], the returned value is stored as its result and
    its error is left as it was, also when the returned value says
    ["error"] or ["timeout"]. (Only a raised exception marks the step
    ["failed"], see [raised_exception_marks_step_failed].) *)
Theorem returned_result_marks_step_succeeded (env : Env) (task_id : string)
    (o : Orchestrator) (t : Task) (f : Frame) (step : PlanStep) (st : Step)
    (r : StepResult) :
  tasks o !! task_id = Some t → t_steps t !! f_i f = Some st →
  agent_call env task_id f step o = inr r →
  let s' := sys_step env task_id (mkSys o (Dispatch f step)) Work in
  (∃ st', step_of task_id (f_i f) s' = Some st'
          ∧ s_status st' = "succeeded" ∧ s_result st' = Some r
          ∧ s_error st' = s_error st)
  ∧ wpc s' = LoopHead (next_step (f_success f) f).
Proof.
  intros Ht Hst Hcall. unfold step_of, task_of. simpl.
  rewrite (dispatch_spec env task_id o f step t st Ht Hst), Hcall. simpl.
  rewrite lookup_insert_eq. simpl.
  rewrite list_lookup_insert_eq by (by apply lookup_lt_Some in Hst).
  eauto 10.
Qed.

(** The failing input of C1: the fallback plan for a task without
    parameters. Its first step goes to the execution agent, which answers
    ["Unknown execution type"] with status ["error"]; the step is marked
    ["succeeded"] and has no error. *)
Lemma returned_result_marks_step_succeeded_witness :
  let env := wired_env failing_chain ok_backends in
  let s := demo env (replicate 10 Work ++ [Approve "t1"; Work])%list in
  let s' := sys_step env "t1" (mkSys (orch s) (Dispatch fallback_frame fallback_execute))
              Work in
  wpc s = Dispatch fallback_frame fallback_execute
  ∧ agent_call env "t1" fallback_frame fallback_execute (orch s)
    = inr unknown_execution_type
  ∧ r_status unknown_execution_type = "error"
  ∧ ∃ st', step_of "t1" 0 s' = Some st'
           ∧ s_status st' = "succeeded"
           ∧ s_result st' = Some unknown_execution_type
           ∧ s_error st' = None.
Proof.
  intros env s s'.
  assert (wpc s = Dispatch fallback_frame fallback_execute) as Hpc
    by (vm_compute; reflexivity).
  assert (agent_call env "t1" fallback_frame fallback_execute (orch s)
          = inr unknown_execution_type) as Hcall by (vm_compute; reflexivity).
  pose (t := default demo_task (tasks (orch s) !! "t1")).
  pose (st := default (mkStep "" "" 0 0 None None) (t_steps t !! 0)).
  assert (tasks (orch s) !! "t1" = Some t) as Ht by (vm_compute; reflexivity).
  assert (t_steps t !! 0 = Some st) as Hst by (vm_compute; reflexivity).
  assert (s_error st = None) as Herr by (vm_compute; reflexivity).
  split; [exact Hpc|]. split; [exact Hcall|]. split; [reflexivity|].
  destruct (returned_result_marks_step_succeeded env "t1" (orch s) t
              fallback_frame fallback_execute st _ Ht Hst Hcall)
    as [(st' & H1 & H2 & H3 & H4) _].
  exists st'. split; [exact H1|]. split; [exact H2|]. split; [exact H3|].
  rewrite H4. exact Herr.
Defined.

(** ** Unknown agent types *)

(** C7, a counterexample: the plan names an agent type that is not in the
    registry, and yet the worker is in its step loop with the task
    ["executing"]. *)
Lemma unknown_agent_reaches_executing :
  ¬ (∀ env sched f,
       wpc (demo env sched) = LoopHead f →
       status_of "t1" (demo env sched) = Some "executing" →
       Forall (λ step, is_Some (agents env !! default "execution" (p_agent_type step)))
         (plan_steps (f_plan f))).
Proof.
  intros H.
  specialize (H (env_with_plan plan_unknown_agent) (replicate 7 Work)
                unknown_agent_frame).
  assert (wpc (demo (env_with_plan plan_unknown_agent) (replicate 7 Work))
          = LoopHead unknown_agent_frame) as Hpc by (by vm_compute).
  specialize (H Hpc ltac:(by vm_compute)).
  apply Forall_cons_1 in H as [[a Ha] _]. by vm_compute in Ha.
Qed.


(** ** Termination when no approval gate lies ahead *)

Section Progress.
Context (env : Env) (task_id : string).

Lemma gate_free_mono i j plan : i ≤ j → gate_free i plan → gate_free j plan.
Proof. intros Hij H k step Hk. apply H. lia. Qed.

Lemma unblocked_work s :
  unblocked task_id s →
  unblocked task_id (sys_step env task_id s Work)
  ∧ fuel (wpc (sys_step env task_id s Work)) ≤ fuel (wpc s) - 1.
Proof.
  intros (t & Ht & Hp). destruct s as [o p].
  unfold unblocked, task_of in *. simpl in *.
  destruct p; simpl in *; try done.
  - (* LoopHead *)
    destruct (plan_steps (f_plan f) !! f_i f) as [step|] eqn:Hstep; simpl.
    + store_ops Ht. pose proof (lookup_lt_Some _ _ _ Hstep).
      destruct (decide _) as [Hc|Hc]; simpl.
      * split; [|lia]. exists t. split; [done|]. rewrite Hc. unfold terminal.
        in_list.
      * split; [eauto|lia].
    + split; [eauto|lia].
  - (* MarkStep *)
    destruct Hp as [Hg Hstep]. pose proof (lookup_lt_Some _ _ _ Hstep).
    destruct (t_steps t !! f_i f) as [st|] eqn:Hst.
    + rewrite (update_task_step_ok _ _ _ _ _ _ _ _ Ht Hst). simpl.
      rewrite lookup_insert_eq. rewrite (Hg (f_i f) step) by done. simpl.
      split; [|lia]. eexists. split; [done|]. split; [|done].
      by apply (gate_free_mono (f_i f)); [lia|].
    + rewrite (update_task_step_out_of_range _ _ _ _ _ _ _ Ht Hst). simpl.
      split; [eauto|lia].
  - (* Poll *)
    destruct Hp as (Hg & Hstep & He). store_ops Ht. rewrite He. simpl.
    split; [eauto|lia].
  - (* Dispatch *)
    destruct Hp as [Hg Hstep]. pose proof (lookup_lt_Some _ _ _ Hstep).
    destruct (dispatch_keeps_task env task_id o f step t Ht) as [t' Ht'].
    destruct (dispatch env task_id f step o) as [[e|[]] o']; simpl in *.
    + split; [eauto|lia].
    + split; [eauto|lia].
    + destruct (default false (p_critical step)); simpl; (split; [eauto|lia]).
  - (* Finalize *)
    destruct success; store_ops Ht; rewrite lookup_insert_eq;
      (split; [|lia]); eexists; (split; [done|]); simpl; [done|].
    unfold terminal. in_list.
  - (* Learn *)
    destruct (agents env !! "learning"); simpl; [|split; [eauto|lia]].
    unfold mbind, M_bind. store_ops Ht. unfold lift.
    destruct (learn_from_task env task_id t); simpl; (split; [|lia]);
      [eauto|].
    exists t. split; [done|]. rewrite Hp. unfold terminal. in_list.
  - (* Handler *)
    store_ops Ht. rewrite lookup_insert_eq. split; [eauto|lia].
  - (* HandlerStatus *)
    store_ops Ht. rewrite lookup_insert_eq. split; [|lia].
    eexists. split; [done|]. simpl. unfold terminal. in_list.
  - (* Finally *) split; [eauto|lia].
  - (* Done *) split; [eauto|lia].
Qed.

(** From the step loop on, a worker that has no approval to wait for
    finishes within [fuel] steps and leaves the task in a terminal
    state. *)
Lemma unblocked_terminates s n :
  unblocked task_id s → fuel (wpc s) ≤ n →
  let s' := run env task_id (replicate n Work) s in
  (∃ uncaught, wpc s' = Done uncaught)
  ∧ ∃ status, status_of task_id s' = Some status ∧ terminal status.
Proof.
  intros Hs Hn s'.
  destruct (run_invariant env task_id (unblocked task_id) (λ ev, ev = Work) fuel)
    with (sched := replicate n Work) (s := s) as [(t & Ht & Hp) Hfuel].
  - intros s0 ev -> Hs0. destruct (decide (Work = Work)); [|done].
    by apply unblocked_work.
  - by apply Forall_replicate.
  - done.
  - rewrite works_replicate in Hfuel. fold s' in Ht, Hp, Hfuel.
    unfold status_of. rewrite Ht. simpl.
    destruct (wpc s'); simpl in *; try lia; try done. eauto.
Qed.

End Progress.

(** ** From creation to the step loop *)

Section Prefix.
Context (env : Env) (task_id : string).

Lemma run_cons ev sched s :
  run env task_id (ev :: sched) s = run env task_id sched (sys_step env task_id s ev).
Proof. done. Qed.

Lemma work_start o t :
  tasks o !! task_id = Some t →
  sys_step env task_id (mkSys o Start) Work = mkSys o (SetPlanning t).
Proof. intros Ht. unfold sys_step. simpl. by store_ops Ht. Qed.

Lemma work_set_status o t p status x p' :
  tasks o !! task_id = Some t → TaskStatus_of status = Some x →
  worker_step env task_id p o
  = guarded (update_task_status task_id status o) (λ _, p') →
  sys_step env task_id (mkSys o p) Work
  = mkSys (tick 1 (with_tasks (<[task_id := set_status status (clock o) t]> (tasks o)) o)) p'.
Proof.
  intros Ht Hx Hp. unfold sys_step. simpl. rewrite Hp.
  by rewrite (update_task_status_ok o task_id t status x Ht Hx).
Qed.

Lemma work_planning o task plan :
  is_Some (agents env !! "task_manager") → plan_task env task = inr plan →
  sys_step env task_id (mkSys o (Planning task)) Work
  = mkSys o (AddSteps task plan 0).
Proof. intros [a Ha] Hp. unfold sys_step, lift. simpl. by rewrite Ha, Hp. Qed.

Lemma work_add_step o t task plan k step :
  tasks o !! task_id = Some t → plan_steps plan !! k = Some step →
  sys_step env task_id (mkSys o (AddSteps task plan k)) Work
  = mkSys (tick 3 (with_tasks
             (<[task_id := set_steps
                  (t_steps t
                   ++ [mkStep (p_description step) "pending" (clock o) (S (clock o))
                         None None])
                  (S (S (clock o))) t]> (tasks o)) o))
      (AddSteps task plan (S k)).
Proof.
  intros Ht Hs. unfold sys_step. simpl. rewrite Hs.
  by rewrite (add_task_step_ok o task_id t _ _ Ht).
Qed.

Lemma work_add_steps_end o task plan k :
  plan_steps plan !! k = None →
  sys_step env task_id (mkSys o (AddSteps task plan k)) Work
  = mkSys o (SetExecuting task plan).
Proof. intros Hs. unfold sys_step. simpl. by rewrite Hs. Qed.

Lemma work_loop_head o t f step :
  tasks o !! task_id = Some t → plan_steps (f_plan f) !! f_i f = Some step →
  t_status t ≠ "cancelled" →
  sys_step env task_id (mkSys o (LoopHead f)) Work = mkSys o (MarkStep f step).
Proof.
  intros Ht Hs Hc. unfold sys_step. simpl. rewrite Hs. store_ops Ht.
  by destruct (decide _).
Qed.

Lemma work_mark_step o t f step st :
  tasks o !! task_id = Some t → t_steps t !! f_i f = Some st →
  sys_step env task_id (mkSys o (MarkStep f step)) Work
  = mkSys (tick 2 (with_tasks
             (<[task_id := set_steps
                  (<[f_i f := update_step (Some "executing") None None (clock o) st]>
                     (t_steps t))
                  (S (clock o)) t]> (tasks o)) o))
      (if default false (p_requires_approval step)
       then SetWaiting f step else Dispatch f step).
Proof.
  intros Ht Hs. unfold sys_step. simpl.
  by rewrite (update_task_step_ok o task_id t _ st _ _ _ Ht Hs).
Qed.

#[local] Arguments sys_step : simpl never.
#[local] Arguments run : simpl never.

(** The loop over [task_plan['steps']] that fills the step ledger. *)
Lemma add_steps_loop task plan m : ∀ k o t,
  tasks o !! task_id = Some t → k + m = length (plan_steps plan) →
  ∃ o' t',
    run env task_id (replicate (S m) Work) (mkSys o (AddSteps task plan k))
    = mkSys o' (SetExecuting task plan)
    ∧ tasks o' !! task_id = Some t'
    ∧ t_status t' = t_status t
    ∧ s_description <$> t_steps t'
      = ((s_description <$> t_steps t) ++ (p_description <$> drop k (plan_steps plan)))%list
    ∧ s_status <$> t_steps t'
      = ((s_status <$> t_steps t) ++ replicate m "pending")%list.
Proof.
  induction m as [|m IH]; intros k o t Ht Hk.
  - exists o, t. simpl replicate. rewrite run_cons, work_add_steps_end.
    + rewrite drop_ge by lia. simpl. by rewrite !app_nil_r.
    + apply lookup_ge_None. lia.
  - destruct (plan_steps plan !! k) as [step|] eqn:Hstep.
    2:{ apply lookup_ge_None in Hstep. lia. }
    change (replicate (S (S m)) Work) with (Work :: replicate (S m) Work).
    rewrite run_cons, (work_add_step o t task plan k step Ht Hstep).
    match goal with
    | |- context [run env task_id _ {| orch := ?o1; wpc := _ |}] =>
        destruct (IH (S k) o1 _ ltac:(simpl; apply lookup_insert_eq) ltac:(lia))
          as (o' & t' & Hrun & Ht' & Hst & Hd & Hs)
    end.
    exists o', t'. rewrite Hrun. split_and!; [done..| |].
    + rewrite Hd. simpl. rewrite fmap_app. simpl.
      rewrite <- app_assoc. simpl. by rewrite (drop_S _ _ _ Hstep).
    + rewrite Hs. simpl. rewrite fmap_app. simpl.
      by rewrite <- app_assoc.
Qed.

(** The worker from [create_task] to the head of its step loop: the
    steps of the plan are in the ledger, in order and ["pending"], and
    the task is ["executing"]. *)
Lemma worker_prefix o task_type description parameters priority plan :
  let task := created o task_id task_type description parameters priority in
  is_Some (agents env !! "task_manager") →
  plan_task env task = inr plan →
  ∃ o' t',
    run env task_id (replicate (5 + length (plan_steps plan)) Work)
      (spawn o task_id task_type description parameters priority)
    = mkSys o' (LoopHead (mkFrame task plan 0 true))
    ∧ tasks o' !! task_id = Some t'
    ∧ t_status t' = "executing"
    ∧ s_description <$> t_steps t' = p_description <$> plan_steps plan
    ∧ s_status <$> t_steps t' = replicate (length (plan_steps plan)) "pending".
Proof.
  intros task Hreg Hplan.
  replace (5 + length (plan_steps plan))
    with (3 + (S (length (plan_steps plan)) + 1)) by lia.
  rewrite (replicate_add 3), (replicate_add (S _)).
  change (replicate 3 Work) with [Work; Work; Work].
  change (replicate 1 Work) with [Work].
  unfold spawn.
  set (o0 := (create_task task_id task_type description parameters priority o).2).
  assert (tasks o0 !! task_id = Some task) as Ht0
    by (unfold o0, create_task, _start_task_execution; unfold_M; simpl;
        apply lookup_insert_eq).
  rewrite run_app, !run_cons, (work_start o0 task Ht0).
  rewrite (work_set_status o0 task (SetPlanning task) "planning" PLANNING
             (Planning task) Ht0 eq_refl eq_refl).
  rewrite (work_planning _ task plan Hreg Hplan).
  unfold run at 2. simpl foldl. fold (run env task_id). rewrite run_app.
  match goal with
  | |- context [run env task_id _ {| orch := ?o1; wpc := AddSteps _ _ _ |}] =>
      destruct (add_steps_loop task plan (length (plan_steps plan)) 0 o1 _
                  ltac:(simpl; apply lookup_insert_eq) ltac:(done))
        as (o' & t' & Hrun & Ht' & Hst & Hd & Hs)
  end.
  rewrite Hrun, run_cons.
  rewrite (work_set_status o' t' (SetExecuting task plan) "executing" EXECUTING
             (LoopHead (mkFrame task plan 0 true)) Ht' eq_refl eq_refl).
  unfold run. simpl foldl.
  eexists _, _. split; [done|]. simpl. rewrite lookup_insert_eq.
  split; [done|]. simpl. by rewrite Hd, Hs.
Qed.

Lemma poll_waits n o f step t :
  tasks o !! task_id = Some t → t_status t = "waiting_for_approval" →
  run env task_id (replicate n Work) (mkSys o (Poll f step))
  = mkSys o (Poll f step).
Proof.
  intros Ht Hw. induction n as [|n IH]; [done|].
  simpl replicate. rewrite run_cons. unfold sys_step. simpl.
  store_ops Ht. rewrite Hw. simpl. apply IH.
Qed.

(** The three steps that take the worker from the head of the loop
    into the approval wait of a gated step. *)
Lemma gate_steps o t f step st :
  tasks o !! task_id = Some t →
  plan_steps (f_plan f) !! f_i f = Some step →
  t_status t ≠ "cancelled" → t_steps t !! f_i f = Some st →
  default false (p_requires_approval step) = true →
  ∃ o' t',
    run env task_id [Work; Work; Work] (mkSys o (LoopHead f))
    = mkSys o' (Poll f step)
    ∧ tasks o' !! task_id = Some t'
    ∧ t_status t' = "waiting_for_approval"
    ∧ t_steps t'
      = <[f_i f := update_step (Some "executing") None None (clock o) st]> (t_steps t).
Proof.
  intros Ht Hstep Hc Hst Hgate.
  rewrite !run_cons, (work_loop_head o t f step Ht Hstep Hc).
  rewrite (work_mark_step o t f step st Ht Hst), Hgate.
  erewrite (work_set_status _ _ (SetWaiting f step)
              "waiting_for_approval" WAITING_FOR_APPROVAL (Poll f step));
    [|simpl; apply lookup_insert_eq|reflexivity|reflexivity].
  eexists _, _. split; [reflexivity|]. simpl. rewrite lookup_insert_eq.
  by split_and!.
Qed.

Lemma poll_status_stays n s f step t :
  wpc s = Poll f step → task_of task_id s = Some t →
  t_status t = "waiting_for_approval" →
  status_of task_id (run env task_id (replicate n Work) s)
  = Some "waiting_for_approval".
Proof.
  intros Hpc Ht Hw. destruct s as [o p]. unfold task_of in *. simpl in *.
  subst p. rewrite (poll_waits n o f step t Ht Hw).
  unfold status_of, task_of. simpl orch. rewrite Ht. simpl. by rewrite Hw.
Qed.

End Prefix.

(** ** The fallback plan *)

(** The task manager asks the planner whenever plan reuse is switched
    off or no task found in the knowledge base passes the reuse test. *)
Lemma plan_task_fresh (env : Env) (task : Task) (similar_tasks : list KBTask) :
  search_similar_tasks env (t_description task) = inr similar_tasks →
  reuse_similar_plans env = false
  ∨ Forall (λ s, reusable task s = false) similar_tasks →
  plan_task env task = inr (create_plan env task).
Proof.
  intros Hsearch Hno. unfold plan_task. rewrite Hsearch.
  destruct Hno as [-> | Hall]; [done|].
  destruct (reuse_similar_plans env); [|done].
  replace (filter (λ s, reusable task s = true) similar_tasks) with (@nil KBTask);
    [done|].
  symmetry. clear Hsearch. induction Hall as [|s l Hs _ IH]; [done|].
  rewrite filter_cons. destruct (decide _) as [Ht|_]; [congruence|exact IH].
Qed.

Lemma py_repr_plain (s : string) :
  plain_text s = true → py_repr s = "'" ++ s ++ "'".
Proof.
  intros Hs.
  assert (has_char apostrophe s = false ∧ repr_chars apostrophe s = s) as [Hq Hr].
  { induction s as [|c s IH]; [done|]. simpl in *.
    apply andb_prop in Hs as [Hs Hrest]. apply andb_prop in Hs as [Hs Hb].
    apply andb_prop in Hs as [Hp Ha].
    destruct (IH Hrest) as [-> ->]. apply negb_true_iff in Ha, Hb.
    rewrite Ha. split; [done|]. unfold repr_char. rewrite Ha, Hb. simpl.
    destruct (N.eqb_spec (Ascii.N_of_ascii c) 9) as [E|_];
      [by rewrite E in Hp|].
    destruct (N.eqb_spec (Ascii.N_of_ascii c) 10) as [E|_];
      [by rewrite E in Hp|].
    destruct (N.eqb_spec (Ascii.N_of_ascii c) 13) as [E|_];
      [by rewrite E in Hp|].
    by rewrite Hp. }
  unfold py_repr. rewrite Hq. simpl. by rewrite Hr.
Qed.

Section Returned.
Context (env : Env) (task_id : string).

#[local] Arguments sys_step : simpl never.
#[local] Arguments run : simpl never.

(** After a step whose agent returned, the loop goes on. *)
Lemma returned_then_next o t f step st r :
  tasks o !! task_id = Some t → t_steps t !! f_i f = Some st →
  agent_call env task_id f step o = inr r →
  let o2 := tick 2 (with_tasks
              (<[task_id := set_steps
                   (<[f_i f := update_step (Some "succeeded") (Some r) None (clock o) st]>
                      (t_steps t))
                   (S (clock o)) t]> (tasks o)) o) in
  sys_step env task_id (mkSys o (Dispatch f step)) Work
  = mkSys o2 (LoopHead (next_step (f_success f) f)).
Proof.
  intros Ht Hst Hcall. unfold sys_step. simpl.
  by rewrite (dispatch_spec env task_id o f step t st Ht Hst), Hcall.
Qed.

End Returned.

(** C5. A critical step whose agent returns does not abort the plan,
    whatever the returned result says, ["error"] and ["timeout"]
    included: the step is marked ["succeeded"] with the result stored
    and no error, and the worker goes back to the head of its loop with
    the flag [success] as it was. If the plan has a next step and
    nobody has cancelled the task, two more steps of the worker mark
    that step ["executing"]; if the critical step was the last and
    nothing failed before, two more steps of the worker make the task
    ["succeeded"]. (Only a raised exception aborts the plan, see
    [critical_failure_aborts].) *)
Theorem critical_error_result_does_not_abort (env : Env) (o : Orchestrator)
    (task_id task_type description : string) (parameters : gmap string pyval)
    (priority : string) (sched1 : list event) (f : Frame) (step : PlanStep)
    (r : StepResult) :
  let s1 := run env task_id sched1
              (spawn o task_id task_type description parameters priority) in
  let s2 := sys_step env task_id s1 Work in
  wpc s1 = Dispatch f step →
  p_critical step = Some true →
  agent_call env task_id f step (orch s1) = inr r →
  (∃ st, step_of task_id (f_i f) s2 = Some st
         ∧ s_status st = "succeeded" ∧ s_result st = Some r ∧ s_error st = None)
  ∧ wpc s2 = LoopHead (next_step (f_success f) f)
  ∧ (∀ next, plan_steps (f_plan f) !! S (f_i f) = Some next →
       status_of task_id s1 ≠ Some "cancelled" →
       ∃ st, step_of task_id (S (f_i f)) (run env task_id [Work; Work] s2) = Some st
             ∧ s_status st = "executing")
  ∧ (plan_steps (f_plan f) !! S (f_i f) = None → f_success f = true →
     status_of task_id (run env task_id [Work; Work] s2) = Some "succeeded").
Proof.
  intros s1 s2 Hpc Hcrit Hcall.
  destruct (ledger_spawn env task_id o task_type description parameters priority sched1)
    as (t & Ht & _ & Hl).
  fold s1 in Ht, Hl. rewrite Hpc in Hl.
  destruct Hl as (Hlen & _ & _ & st & Hst & _ & _ & Herr).
  assert (s1 = mkSys (orch s1) (Dispatch f step)) as Hs1
    by (destruct s1; simpl in *; by subst).
  unfold task_of in Ht.
  pose proof (returned_then_next env task_id (orch s1) t f step st r Ht Hst Hcall)
    as Hs2.
  rewrite <- Hs1 in Hs2. fold s2 in Hs2. simpl in Hs2.
  set (steps2 := <[f_i f := update_step (Some "succeeded") (Some r) None
                             (clock (orch s1)) st]> (t_steps t)) in *.
  set (t2 := set_steps steps2 (S (clock (orch s1))) t) in *.
  set (o2 := tick 2 (with_tasks (<[task_id := t2]> (tasks (orch s1))) (orch s1))) in *.
  assert (tasks o2 !! task_id = Some t2) as Ht2 by apply lookup_insert_eq.
  split_and!.
  - rewrite Hs2. unfold step_of, task_of. simpl. rewrite lookup_insert_eq. simpl.
    unfold steps2. rewrite list_lookup_insert_eq by (by apply lookup_lt_Some in Hst).
    eexists. split; [done|]. simpl. by rewrite Herr.
  - by rewrite Hs2.
  - intros next Hnext Hnc. rewrite Hs2.
    assert (t_status t2 ≠ "cancelled") as Hnc2.
    { intros Hc. apply Hnc. unfold status_of, task_of. rewrite Ht. simpl.
      by rewrite <- Hc. }
    destruct (t_steps t2 !! S (f_i f)) as [st1|] eqn:Hst1.
    2:{ apply lookup_ge_None in Hst1. apply lookup_lt_Some in Hnext.
        simpl in Hst1. unfold steps2 in Hst1. rewrite length_insert in Hst1. lia. }
    rewrite (run_cons env task_id),
      (work_loop_head env task_id o2 t2 (next_step (f_success f) f) next
         Ht2 Hnext Hnc2),
      (run_cons env task_id),
      (work_mark_step env task_id o2 t2 (next_step (f_success f) f) next st1
         Ht2 Hst1).
    unfold run, step_of, task_of. simpl. rewrite lookup_insert_eq. simpl.
    rewrite list_lookup_insert_eq by (by apply lookup_lt_Some in Hst1).
    by eexists.
  - intros Hnone Hf. rewrite Hs2, Hf.
    assert (sys_step env task_id (mkSys o2 (LoopHead (next_step true f))) Work
            = mkSys o2 (Finalize true)) as Hw1.
    { unfold sys_step. simpl. by rewrite Hnone. }
    rewrite (run_cons env task_id), Hw1, (run_cons env task_id).
    unfold run, sys_step, status_of, task_of. simpl. store_ops Ht2.
    by rewrite lookup_insert_eq.
Qed.

Lemma critical_error_result_does_not_abort_witness :
  let env := wired_env (λ _, inr plan_restart) slow_backends in
  let step := full_step "restart" "execution" false true
                {["command" := PyStr "systemctl restart nginx"]} in
  let r := timed_out {["command" := PyStr "systemctl restart nginx"]} in
  let s1 := demo env (replicate 9 Work) in
  let s2 := sys_step env "t1" s1 Work in
  (wpc s1 = Dispatch restart_frame step
   ∧ p_critical step = Some true
   ∧ agent_call env "t1" restart_frame step (orch s1) = inr r
   ∧ r_status r = "timeout")
  ∧ (∃ st, step_of "t1" 0 s2 = Some st
           ∧ s_status st = "succeeded" ∧ s_result st = Some r ∧ s_error st = None)
  ∧ wpc s2 = LoopHead (next_step true restart_frame)
  ∧ ∃ st, step_of "t1" 1 (run env "t1" [Work; Work] s2) = Some st
          ∧ s_status st = "executing".
Proof.
  intros env step r s1 s2.
  assert (wpc s1 = Dispatch restart_frame step) as Hpc by (vm_compute; reflexivity).
  assert (agent_call env "t1" restart_frame step (orch s1) = inr r) as Hcall
    by (vm_compute; reflexivity).
  assert (status_of "t1" s1 ≠ Some "cancelled") as Hnc by (vm_compute; discriminate).
  destruct (critical_error_result_does_not_abort env empty_orchestrator "t1" "demo"
              "x" ∅ "low" (replicate 9 Work) restart_frame step r Hpc eq_refl Hcall)
    as (Hstep & Hpc2 & Hnext & _).
  split; [exact (conj Hpc (conj eq_refl (conj Hcall eq_refl)))|].
  split; [exact Hstep|]. split; [exact Hpc2|].
  exact (Hnext (full_step "check" "validation" false false ∅) eq_refl Hnc).
Defined.

(** The failing input of C5 run to its end: the critical command times
    out, the check after it runs all the same, both steps are
    ["succeeded"] and so is the task, the worker done. *)
Example critical_timeout_ends_succeeded :
  let env := wired_env (λ _, inr plan_restart) slow_backends in
  let s := demo env (replicate 17 Work) in
  wpc s = Done None
  ∧ status_of "t1" s = Some "succeeded"
  ∧ (s_status <$> step_of "t1" 0 s) = Some "succeeded"
  ∧ (r_status <$> (step_of "t1" 0 s ≫= s_result)) = Some "timeout"
  ∧ (s_status <$> step_of "t1" 1 s) = Some "succeeded".
Proof. vm_compute. repeat split; reflexivity. Qed.

Section Doomed.
Context (env : Env) (task_id : string).

Ltac doomed_now := eexists; split; [rewrite ?lookup_insert_eq; done|]; simpl.

Lemma doomed_work s :
  doomed task_id s → doomed task_id (sys_step env task_id s Work).
Proof.
  intros (t & Ht & Hd). destruct s as [o p].
  unfold doomed, task_of in *. simpl in *.
  destruct p; simpl in *; try done.
  - (* LoopHead *)
    destruct Hd as [Hf Hst].
    destruct (plan_steps (f_plan f) !! f_i f); simpl; [|by doomed_now].
    store_ops Ht. destruct (decide _) as [Hc|Hc]; simpl.
    + rewrite Hst in Hc. discriminate Hc.
    + by doomed_now.
  - (* MarkStep *)
    destruct Hd as [Hf Hst].
    destruct (t_steps t !! f_i f) as [st|] eqn:Hs.
    + rewrite (update_task_step_ok _ _ _ _ _ _ _ _ Ht Hs).
      unfold tick, with_tasks. simpl.
      destruct (default false (p_requires_approval step)); by doomed_now.
    + rewrite (update_task_step_out_of_range _ _ _ _ _ _ _ Ht Hs). simpl.
      by doomed_now.
  - (* SetWaiting *)
    destruct Hd as [Hf Hst]. store_ops Ht. doomed_now. split; [done|in_list].
  - (* Poll *)
    destruct Hd as [Hf Hst]. store_ops Ht.
    destruct (decide _) as [He|He]; simpl; [by doomed_now|].
    destruct (decide _) as [Hc|Hc]; simpl; [|by doomed_now].
    rewrite Hc in Hst. not_in_list Hst.
  - (* Dispatch *)
    destruct Hd as [Hf Hst].
    destruct (t_steps t !! f_i f) as [st|] eqn:Hs.
    + rewrite (dispatch_spec env task_id o f step t st Ht Hs).
      unfold tick, with_tasks.
      destruct (agent_call env task_id f step o); simpl;
        [destruct (default false (p_critical step)); simpl|]; by doomed_now.
    + unfold dispatch, try_except.
      pose proof (update_task_step_out_of_range o task_id t (f_i f)) as Hu.
      destruct (agents env !! default "execution" (p_agent_type step)) as [agent|];
        unfold live_view, mbind, M_bind, mret, M_ret, lift, raise; simpl.
      * destruct (agent _ step (f_i f)); simpl; rewrite !Hu by done; simpl;
          by doomed_now.
      * rewrite !Hu by done; simpl. by doomed_now.
  - (* Finalize *) subst success. store_ops Ht. by doomed_now.
  - (* Handler *) store_ops Ht. by doomed_now.
  - (* HandlerStatus *) store_ops Ht. by doomed_now.
  - (* Finally *) by doomed_now.
  - (* Done *) by doomed_now.
Qed.

Lemma doomed_step s ev :
  ev ≠ Cancel task_id → doomed task_id s → doomed task_id (sys_step env task_id s ev).
Proof.
  intros Hc. destruct (decide (ev = Work)) as [->|Hev]; [apply doomed_work|].
  intros (t & Ht & Hd).
  destruct (call_effect env task_id s ev t Hev Ht)
    as (Hpc & t' & Ht' & _ & _ & _ & Hst).
  exists t'. split; [done|]. rewrite Hpc.
  destruct Hst as [->|[(_ & Hw & He)|[? _]]]; [done| |done].
  rewrite He. rewrite Hw in Hd.
  destruct (wpc s); simpl in *; try done;
    first [ by destruct Hd as [_ [=]]
          | by destruct Hd as [? _]; split; [|in_list]
          | discriminate Hd ].
Qed.

Lemma doomed_run sched s :
  Forall (λ ev, ev ≠ Cancel task_id) sched →
  doomed task_id s → doomed task_id (run env task_id sched s).
Proof.
  revert s. induction sched as [|ev sched IH]; intros s Hc Hd; [done|].
  inversion Hc; subst. simpl. apply IH; [done|]. by apply doomed_step.
Qed.

End Doomed.

(** C7, amended. The worker sets the task to ["executing"] for every
    plan, whatever agent types its steps name. A step whose agent type
    is not in the registry fails when it is dispatched, with the task
    ["executing"]: the step is ["failed"], its error is the text of the
    [KeyError] of the lookup, which is the [repr] of the agent type (the
    agent type between apostrophes when it has no apostrophe, backslash
    or character that is not printable), and it has no result; the
    worker aborts the plan if the step is critical
    and goes on with the next step if it is not. Either way, if nobody
    cancels the task, it is ["failed"] once the worker has ended. *)
Theorem unknown_agent_fails_at_dispatch (env : Env) (o : Orchestrator)
    (task_id task_type description : string) (parameters : gmap string pyval)
    (priority : string) (sched1 sched2 : list event) (f : Frame) (step : PlanStep) :
  let agent_type := default "execution" (p_agent_type step) in
  let s1 := run env task_id sched1
              (spawn o task_id task_type description parameters priority) in
  let s2 := sys_step env task_id s1 Work in
  let s3 := run env task_id sched2 s2 in
  wpc s1 = Dispatch f step →
  agents env !! agent_type = None →
  (∀ task plan o1 t, tasks o1 !! task_id = Some t →
     let s' := sys_step env task_id (mkSys o1 (SetExecuting task plan)) Work in
     status_of task_id s' = Some "executing"
     ∧ wpc s' = LoopHead (mkFrame task plan 0 true))
  ∧ (∃ st, step_of task_id (f_i f) s2 = Some st
           ∧ s_status st = "failed"
           ∧ s_error st = Some (py_repr agent_type)
           ∧ s_result st = None)
  ∧ (plain_text agent_type = true →
     py_repr agent_type = "'" ++ agent_type ++ "'")
  ∧ wpc s2 = (if default false (p_critical step) then Finalize false
              else LoopHead (next_step false f))
  ∧ (Forall (λ ev, ev ≠ Cancel task_id) sched1 →
     status_of task_id s1 = Some "executing"
     ∧ (Forall (λ ev, ev ≠ Cancel task_id) sched2 →
        ∀ uncaught, wpc s3 = Done uncaught → status_of task_id s3 = Some "failed")).
Proof.
  intros agent_type s1 s2 s3 Hpc Hreg.
  destruct (ledger_spawn env task_id o task_type description parameters priority sched1)
    as (t & Ht & _ & Hl).
  fold s1 in Ht, Hl. rewrite Hpc in Hl.
  destruct Hl as (_ & _ & _ & st & Hst & _ & Hres & _).
  assert (agent_call env task_id f step (orch s1) = inl (KeyError agent_type)) as Hcall.
  { unfold agent_call, Agent in *. cbv zeta. fold agent_type. by rewrite Hreg. }
  assert (s1 = mkSys (orch s1) (Dispatch f step)) as Hs1
    by (destruct s1; simpl in *; by subst).
  destruct (raised_exception_marks_step_failed env task_id (orch s1) t f step st
              (KeyError agent_type) Ht Hst Hcall)
    as [(st' & Hst' & Hfailed & Herr & Hres') Hpc2].
  rewrite <- Hs1 in Hst', Hpc2. fold s2 in Hst', Hpc2.
  split_and!.
  - intros task plan o1 t1 Ht1. unfold status_of, task_of. simpl. store_ops Ht1.
    by rewrite lookup_insert_eq.
  - exists st'. split_and!; [done..|]. by rewrite Hres'.
  - apply py_repr_plain.
  - done.
  - intros Hnc1.
    assert (StatusAny task_id s1) as (t1 & Ht1 & Hph).
    { apply status_any_run; [done|]. apply status_any_spawn. }
    rewrite Hpc in Hph. simpl in Hph. apply list_elem_of_singleton in Hph.
    assert (t1 = t) as -> by (unfold task_of in *; congruence).
    split; [unfold status_of; rewrite Ht1; simpl; by rewrite Hph|].
    intros Hnc2 uncaught Hdone.
    assert (doomed task_id s2) as Hd.
    { unfold step_of in Hst'.
      destruct (task_of task_id s2) as [t2|] eqn:Ht2; [|done].
      assert (t_status t2 = "executing") as Hst2.
      { destruct (status_any_step env task_id s1 Work ltac:(done))
          as [(t2' & Ht2' & Hph2) _].
        { exists t. split; [done|]. rewrite Hpc. simpl. rewrite Hph. in_list. }
        fold s2 in Ht2', Hph2. assert (t2' = t2) as -> by congruence.
        rewrite Hpc2 in Hph2.
        destruct (default false (p_critical step)); simpl in Hph2;
          by apply list_elem_of_singleton in Hph2. }
      exists t2. split; [done|]. rewrite Hpc2.
      by destruct (default false (p_critical step)). }
    destruct (doomed_run env task_id sched2 s2 Hnc2 Hd) as (t3 & Ht3 & Hd3).
    fold s3 in Ht3, Hd3. rewrite Hdone in Hd3.
    unfold status_of. rewrite Ht3. simpl. by rewrite Hd3.
Qed.

Lemma unknown_agent_fails_at_dispatch_witness :
  let env := wired_env (λ _, inr plan_unknown_agent) ok_backends in
  let step := full_step "change" "provisioning" false true ∅ in
  let s1 := demo env (replicate 9 Work) in
  let s3 := run env "t1" [Approve "t1"; Work; Work] (sys_step env "t1" s1 Work) in
  (wpc s1 = Dispatch unknown_agent_frame step
   ∧ agents env !! default "execution" (p_agent_type step) = None)
  ∧ status_of "t1" s1 = Some "executing"
  ∧ (∃ st, step_of "t1" 0 (sys_step env "t1" s1 Work) = Some st
           ∧ s_status st = "failed" ∧ s_error st = Some "'provisioning'"
           ∧ s_result st = None)
  ∧ wpc (sys_step env "t1" s1 Work) = Finalize false
  ∧ wpc s3 = Done None
  ∧ status_of "t1" s3 = Some "failed".
Proof.
  intros env step s1 s3.
  assert (wpc s1 = Dispatch unknown_agent_frame step) as Hpc
    by (vm_compute; reflexivity).
  assert (agents env !! default "execution" (p_agent_type step) = None) as Hreg
    by (vm_compute; reflexivity).
  assert (Forall (λ ev, ev ≠ Cancel "t1") (replicate 9 Work)) as Hnc1
    by (apply Forall_replicate; discriminate).
  assert (Forall (λ ev, ev ≠ Cancel "t1") [Approve "t1"; Work; Work]) as Hnc2
    by (repeat apply Forall_cons_2; try apply Forall_nil_2; discriminate).
  assert (wpc s3 = Done None) as Hdone by (vm_compute; reflexivity).
  destruct (unknown_agent_fails_at_dispatch env empty_orchestrator "t1" "demo" "x" ∅
              "low" (replicate 9 Work) [Approve "t1"; Work; Work]
              unknown_agent_frame step Hpc Hreg)
    as (_ & Hstep & _ & Hpc2 & Hrest).
  destruct (Hrest Hnc1) as [Hex Hend].
  split; [exact (conj Hpc Hreg)|]. split; [exact Hex|]. split; [exact Hstep|].
  split; [exact Hpc2|]. split; [exact Hdone|].
  exact (Hend Hnc2 None Hdone).
Defined.

Section CancelWait.
Context (env : Env) (task_id : string).

(** Cancelled in the approval wait, the worker leaves at its next look
    at the status. *)
Lemma poll_cancel_exits n o t f step :
  tasks o !! task_id = Some t → 2 ≤ n →
  let s' := run env task_id (Cancel task_id :: replicate n Work)
              (mkSys o (Poll f step)) in
  wpc s' = Done None ∧ status_of task_id s' = Some "cancelled".
Proof.
  intros Ht Hn s'. subst s'. replace n with (2 + (n - 2)) by lia.
  rewrite replicate_add, (run_cons env task_id). simpl replicate.
  rewrite (run_app env task_id).
  set (oc := mkOrch (<[task_id := set_status (value CANCELLED) (clock o) t]> (tasks o))
               (active_tasks o ∖ {[task_id]}) (S (clock o))).
  assert (sys_step env task_id (mkSys o (Poll f step)) (Cancel task_id)
          = mkSys oc (Poll f step)) as ->.
  { unfold sys_step. simpl. by rewrite (cancel_task_ok o task_id t Ht). }
  assert (tasks oc !! task_id = Some (set_status (value CANCELLED) (clock o) t))
    as Htc by apply lookup_insert_eq.
  assert (run env task_id [Work; Work] (mkSys oc (Poll f step))
          = mkSys (pop_active task_id oc).2 (Done None)) as ->.
  { unfold run, sys_step. simpl. store_ops Htc. done. }
  rewrite (run_done env task_id (n - 2) _ None) by done.
  split; [done|]. unfold status_of, task_of. simpl. by rewrite lookup_insert_eq.
Qed.

End CancelWait.

(** C6. [create_plan] has no exception to pass on: when the planning
    chain raises, it returns the two-step fallback plan, a critical step
    for the execution agent that requires approval and carries the
    parameters of the task, then a step for the validation agent that is
    neither critical nor gated. When the task manager hands that plan on
    (it reuses no earlier plan), ten steps of the worker put the two
    steps in the ledger and bring the task to ["waiting_for_approval"],
    where the worker waits, as for every step that requires approval,
    until somebody approves or cancels. Once [approve_task] is called,
    eleven more steps of the worker are enough for it to finish, and the
    task is then in a terminal state; once [cancel_task] is called, two
    are, and the task is ["cancelled"]. *)
Theorem fallback_plan_waits_for_approval (env : Env) (o : Orchestrator)
    (task_id task_type description : string) (parameters : gmap string pyval)
    (priority : string) (e : exn) :
  let task := created o task_id task_type description parameters priority in
  let s10 := run env task_id (replicate 10 Work)
               (spawn o task_id task_type description parameters priority) in
  planning_chain env task = inl e →
  plan_task env task = inr (create_plan env task) →
  is_Some (agents env !! "task_manager") →
  create_plan env task = fallback_plan task
  ∧ plan_steps (create_plan env task)
    = [ full_step ("Execute " ++ task_type ++ " operation") "execution"
          true true parameters;
        full_step ("Verify " ++ task_type ++ " operation result") "validation"
          false false ∅ ]
  ∧ (∃ t, task_of task_id s10 = Some t
          ∧ t_status t = "waiting_for_approval"
          ∧ s_description <$> t_steps t
            = [ "Execute " ++ task_type ++ " operation";
                "Verify " ++ task_type ++ " operation result" ]
          ∧ s_status <$> t_steps t = ["executing"; "pending"])
  ∧ (∀ n, run env task_id (replicate n Work) s10 = s10)
  ∧ (∀ n, 11 ≤ n →
       let s' := run env task_id (Approve task_id :: replicate n Work) s10 in
       (∃ uncaught, wpc s' = Done uncaught)
       ∧ ∃ status, status_of task_id s' = Some status ∧ terminal status)
  ∧ (∀ n, 2 ≤ n →
       let s' := run env task_id (Cancel task_id :: replicate n Work) s10 in
       wpc s' = Done None ∧ status_of task_id s' = Some "cancelled").
Proof.
  intros task s10 Hchain Hplan Hreg.
  assert (create_plan env task = fallback_plan task) as Hfb
    by (unfold create_plan; by rewrite Hchain).
  rewrite Hfb in Hplan |- *.
  destruct (worker_prefix env task_id o task_type description parameters priority
              (fallback_plan task) Hreg Hplan)
    as (o7 & t7 & Hrun & Ht7 & Hst7 & Hd7 & Hs7).
  destruct (t_steps t7) as [|st0 [|st1 [|]]] eqn:Hsteps; try done.
  simpl in Hd7, Hs7. injection Hd7 as Hd0 Hd1. injection Hs7 as Hs0 Hs1.
  destruct (gate_steps env task_id o7 t7 (mkFrame task (fallback_plan task) 0 true)
              (full_step ("Execute " ++ task_type ++ " operation") "execution"
                 true true parameters) st0 Ht7 eq_refl)
    as (o10 & t10 & Hgate & Ht10 & Hw & Hsteps10);
    [by rewrite Hst7|by rewrite Hsteps|done|].
  assert (s10 = mkSys o10 (Poll (mkFrame task (fallback_plan task) 0 true)
                             (full_step ("Execute " ++ task_type ++ " operation")
                                "execution" true true parameters))) as Hs10.
  { unfold s10.
    change (replicate 10 Work)
      with (replicate (5 + length (plan_steps (fallback_plan task))) Work
            ++ [Work; Work; Work])%list.
    by rewrite run_app, Hrun. }
  rewrite Hsteps in Hsteps10. simpl in Hsteps10.
  split; [done|]. split; [done|]. split; [|split; [|split]].
  - exists t10. rewrite Hs10. unfold task_of. simpl. rewrite Ht10, Hsteps10. simpl.
    by rewrite Hd0, Hd1, Hs1.
  - intros n. rewrite Hs10. by apply (poll_waits env task_id n o10 _ _ t10).
  - intros n Hn s'. unfold s'. rewrite run_cons, Hs10.
    apply unblocked_terminates; [|simpl; lia].
    unfold sys_step. simpl.
    rewrite (approve_task_waiting o10 task_id t10 Ht10 Hw). simpl.
    eexists. unfold task_of. simpl. rewrite lookup_insert_eq. split; [done|].
    simpl. split_and!; [|done..].
    intros j stj Hj Hlook. destruct j as [|[|j]]; [lia| |done].
    simpl in Hlook. by inversion Hlook.
  - intros n Hn. rewrite Hs10. by apply (poll_cancel_exits env task_id n o10 t10).
Qed.

Lemma fallback_plan_waits_for_approval_witness :
  let env := wired_env failing_chain ok_backends in
  let s10 := demo env (replicate 10 Work) in
  (planning_chain env demo_task = inl (RuntimeError "planner unavailable")
   ∧ plan_task env demo_task = inr (create_plan env demo_task)
   ∧ is_Some (agents env !! "task_manager"))
  ∧ status_of "t1" s10 = Some "waiting_for_approval"
  ∧ run env "t1" (replicate 5 Work) s10 = s10
  ∧ (let s' := run env "t1" (Approve "t1" :: replicate 11 Work) s10 in
     (∃ uncaught, wpc s' = Done uncaught)
     ∧ ∃ status, status_of "t1" s' = Some status ∧ terminal status)
  ∧ (let s' := run env "t1" (Cancel "t1" :: replicate 2 Work) s10 in
     wpc s' = Done None ∧ status_of "t1" s' = Some "cancelled").
Proof.
  intros env s10.
  assert (planning_chain env demo_task = inl (RuntimeError "planner unavailable"))
    as Hchain by reflexivity.
  assert (plan_task env demo_task = inr (create_plan env demo_task)) as Hplan
    by (vm_compute; reflexivity).
  assert (is_Some (agents env !! "task_manager")) as Hreg
    by (eexists; vm_compute; reflexivity).
  destruct (fallback_plan_waits_for_approval env empty_orchestrator "t1" "demo" "x"
              ∅ "low" _ Hchain Hplan Hreg) as (_ & _ & _ & Hstay & Hfin & Hcancel).
  split; [by split_and!|]. split; [vm_compute; reflexivity|].
  split; [exact (Hstay 5)|]. split; [exact (Hfin 11 (le_n 11))|].
  exact (Hcancel 2 (le_n 2)).
Defined.

(** ** Plan reuse *)

Example similarity_at_boundary :
  _parameter_similarity (t_parameters boundary_task) (kb_parameters boundary_similar)
  = f0_8.
Proof. vm_compute. reflexivity. Qed.

(** C9, a counterexample: for two empty mappings the score is 1.0, which
    the weighted formula does not give (it divides zero by zero); and a
    succeeded task of the same type whose score is exactly 0.8 is not
    reused. *)
Lemma similarity_differs_from_formula :
  ¬ (∀ params1 params2,
       _parameter_similarity params1 params2 = spec_similarity params1 params2)
  ∧ ¬ (∀ task similar_task,
         reusable task similar_task = spec_eligible task similar_task).
Proof.
  split.
  - intros H. specialize (H ∅ ∅).
    assert (_parameter_similarity ∅ ∅ = 1%float) as E1 by (vm_compute; reflexivity).
    assert (PrimFloat.is_nan (spec_similarity ∅ ∅) = true) as E2
      by (vm_compute; reflexivity).
    rewrite <- H, E1 in E2. discriminate E2.
  - intros H. specialize (H boundary_task boundary_similar).
    assert (reusable boundary_task boundary_similar = false) as E1
      by (vm_compute; reflexivity).
    assert (spec_eligible boundary_task boundary_similar = true) as E2
      by (vm_compute; reflexivity).
    rewrite E1, E2 in H. discriminate H.
Qed.

(** C9, amended. Two empty mappings score 1.0; two mappings that are not
    both empty and have no key in common (as when one of them is empty)
    score 0.0; in every other case the score is 0.6 times the share of
    the common keys among all keys plus 0.4 times the share of the
    common keys with equal values, in binary64 arithmetic. A prior task
    passes the test of the reuse loop exactly when it has the same type,
    its status is ["succeeded"] and its score is strictly greater than
    0.8. *)
Theorem parameter_similarity_cases (params1 params2 : gmap string pyval) :
  (params1 = ∅ → params2 = ∅ → _parameter_similarity params1 params2 = 1%float)
  ∧ (¬ (params1 = ∅ ∧ params2 = ∅) → shared_keys params1 params2 = ∅ →
     _parameter_similarity params1 params2 = 0%float)
  ∧ (shared_keys params1 params2 ≠ ∅ →
     _parameter_similarity params1 params2 = spec_similarity params1 params2)
  ∧ ∀ task similar_task,
      reusable task similar_task = true
      ↔ kb_type similar_task = t_type task
        ∧ kb_status similar_task = "succeeded"
        ∧ PrimFloat.ltb f0_8
            (_parameter_similarity (t_parameters task) (kb_parameters similar_task))
          = true.
Proof.
  split_and!.
  - intros -> ->. reflexivity.
  - intros Hne Hsh. unfold _parameter_similarity.
    rewrite (bool_decide_eq_true_2 _ Hsh).
    destruct (bool_decide (params1 = ∅)) eqn:E1, (bool_decide (params2 = ∅)) eqn:E2;
      simpl; try done.
    apply bool_decide_eq_true in E1, E2. by destruct Hne.
  - intros Hsh. unfold _parameter_similarity, spec_similarity.
    assert (params1 ≠ ∅) as Hp1.
    { intros ->. apply Hsh. unfold shared_keys.
      by rewrite dom_empty_L, (left_absorb_L ∅ (∩)). }
    assert (params2 ≠ ∅) as Hp2.
    { intros ->. apply Hsh. unfold shared_keys.
      by rewrite dom_empty_L, (right_absorb_L ∅ (∩)). }
    by rewrite (bool_decide_eq_false_2 _ Hp1), (bool_decide_eq_false_2 _ Hp2),
         (bool_decide_eq_false_2 _ Hsh).
  - intros task similar_task. unfold reusable.
    rewrite !andb_true_iff, !bool_decide_eq_true.
    split; [intros [[? ?] ?]|intros (? & ? & ?)]; done.
Qed.

(** ** Copies returned by the store *)

Section Copies.
Import PyHeap.

(** What does hold: the dictionary that [get_task] returns is a new
    object, so assigning to one of its entries changes neither the
    task map nor any object the store had before the call. *)
Lemma top_level_write_keeps_store σ task_id r σ' key x :
  get_task task_id σ = inr (r, σ') →
  PyHeap.tasks (setitem r key x σ') = PyHeap.tasks σ
  ∧ ∀ l, l ∈ dom (heap σ) → heap (setitem r key x σ') !! l = heap σ !! l.
Proof.
  unfold get_task, copy, alloc.
  destruct (PyHeap.tasks σ !! task_id) as [task|]; [|done].
  destruct (heap σ !! task) as [[d|]|]; try done.
  intros [= <- <-]. unfold setitem, store. simpl.
  rewrite lookup_insert_eq. simpl. split; [done|].
  intros l Hl. rewrite !lookup_insert_ne; [done|..];
    intros <-; by apply (is_fresh (dom (heap σ))).
Qed.

End Copies.

(** C3. The failing input: a store with one task of one pending step. A
    caller takes [get_task("t1")] and sets the status of the first step
    of the returned dictionary to ["failed"]: the step in the store is
    ["failed"]. Another takes the first dictionary of [get_all_tasks()]
    and appends to its step list: the task in the store has two steps.
    The copies share the step list and the step dictionaries with the
    store. *)
Theorem copy_shares_steps_with_store :
  PyHeap.stored_step "t1" 0 "status" PyHeap.one_step_store
  = Some (PyHeap.Imm (PyStr "pending"))
  ∧ PyHeap.stored_step "t1" 0 "status"
      (PyHeap.caller_rewrites_step PyHeap.one_step_store)
    = Some (PyHeap.Imm (PyStr "failed"))
  ∧ length <$> PyHeap.stored_steps "t1" PyHeap.one_step_store = Some 1
  ∧ length <$> PyHeap.stored_steps "t1"
                 (PyHeap.caller_appends_step PyHeap.one_step_store)
    = Some 2.
Proof. split_and!; vm_compute; reflexivity. Qed.

(** * Further properties of the task store *)

(** X1. [TaskStatus(value)] and [.value] are inverse to each other, and
    [update_task_status] checks the status before it looks for the task:
    it raises [ValueError] exactly for the strings that are not the value
    of a member, whether the task exists or not, and then changes
    nothing. *)
Theorem update_task_status_validates (o : Orchestrator) (task_id status : string) :
  (∀ x, TaskStatus_of (value x) = Some x)
  ∧ (∀ x, TaskStatus_of status = Some x → value x = status)
  ∧ ((∀ x, status ≠ value x)
     ↔ update_task_status task_id status o
       = (inl (ValueError ("Invalid task status: " ++ status)), o)).
Proof.
  assert (∀ x, TaskStatus_of status = Some x → value x = status) as Hinv.
  { intros x. unfold TaskStatus_of.
    repeat (destruct (decide _) as [->|_]; [by intros [= <-]|]). done. }
  split_and!; [by intros []|done|]. split.
  - intros Hno. unfold update_task_status.
    destruct (TaskStatus_of status) as [x|] eqn:Hx; [|done].
    destruct (Hno x). symmetry. exact (Hinv x eq_refl).
  - intros Hraise x ->. revert Hraise. unfold update_task_status.
    replace (TaskStatus_of (value x)) with (Some x) by (by destruct x).
    unfold_M. simpl. destruct (tasks o !! task_id); simpl; discriminate.
Qed.

(** X2. Every operation of the store on an identifier it does not know
    raises [KeyError] and leaves the orchestrator as it was. *)
Theorem unknown_task_raises (o : Orchestrator) (task_id : string) :
  tasks o !! task_id = None →
  let missing {A} : (exn + A) * Orchestrator :=
    (inl (KeyError ("Task " ++ task_id ++ " not found")), o) in
  get_task task_id o = missing
  ∧ (∀ x, update_task_status task_id (value x) o = missing)
  ∧ (∀ result, add_task_result task_id result o = missing)
  ∧ (∀ error, add_task_error task_id error o = missing)
  ∧ (∀ description status, add_task_step task_id description status o = missing)
  ∧ (∀ i status result error,
       update_task_step task_id i status result error o = missing)
  ∧ approve_task task_id o = missing
  ∧ cancel_task task_id o = missing.
Proof.
  intros H missing. unfold missing. split_and!.
  - by apply get_task_missing.
  - intros x. apply (update_task_status_missing o task_id (value x) x H).
    by destruct x.
  - intros result. unfold add_task_result. unfold_M. simpl. by rewrite H.
  - intros error. unfold add_task_error. unfold_M. simpl. by rewrite H.
  - intros d st. unfold add_task_step. unfold_M. simpl. by rewrite H.
  - intros i st r e. unfold update_task_step. unfold_M. simpl. by rewrite H.
  - by apply approve_task_missing.
  - by apply cancel_task_missing.
Qed.

Lemma unknown_task_raises_witness :
  tasks empty_orchestrator !! "t9" = None
  ∧ cancel_task "t9" empty_orchestrator
    = (inl (KeyError "Task t9 not found"), empty_orchestrator).
Proof.
  assert (tasks empty_orchestrator !! "t9" = None) as H by reflexivity.
  split; [exact H|].
  exact (proj2 (proj2 (proj2 (proj2 (proj2 (proj2 (proj2
           (unknown_task_raises empty_orchestrator "t9" H)))))))).
Defined.

(** X3. [update_task_step] writes to the addressed step only: the other steps
    and the length of the list are kept, so are the description and the
    creation time of the step, and the status of the task; an argument
    that is [None] leaves its field alone, so a result or an error once
    recorded is never cleared. *)
Theorem update_task_step_overwrites_only (o : Orchestrator) (task_id : string)
    (t : Task) (i : nat) (s : Step) (status : option string)
    (result : option StepResult) (error : option string) :
  tasks o !! task_id = Some t → t_steps t !! i = Some s →
  ∃ o' t' s',
    update_task_step task_id i status result error o = (inr tt, o')
    ∧ tasks o' !! task_id = Some t'
    ∧ (∀ other, other ≠ task_id → tasks o' !! other = tasks o !! other)
    ∧ t_status t' = t_status t
    ∧ length (t_steps t') = length (t_steps t)
    ∧ (∀ j, j ≠ i → t_steps t' !! j = t_steps t !! j)
    ∧ t_steps t' !! i = Some s'
    ∧ s_description s' = s_description s
    ∧ s_created_at s' = s_created_at s
    ∧ s_status s' = default (s_status s) status
    ∧ (is_Some (s_result s) → is_Some (s_result s'))
    ∧ (is_Some (s_error s) → is_Some (s_error s'))
    ∧ (result = None → s_result s' = s_result s)
    ∧ (error = None → s_error s' = s_error s).
Proof.
  intros Ht Hs. eexists _, _, (update_step status result error (clock o) s).
  split; [by apply (update_task_step_ok o task_id t i s)|].
  unfold tick, with_tasks. simpl. rewrite lookup_insert_eq.
  split; [done|]. split; [by intros other ?; rewrite lookup_insert_ne|].
  simpl. rewrite length_insert. split_and!; try done.
  - intros j Hj. by rewrite list_lookup_insert_ne.
  - apply list_lookup_insert_eq. by apply lookup_lt_Some in Hs.
  - by destruct result.
  - by destruct error.
  - by intros ->.
  - by intros ->.
Qed.

Lemma update_task_step_overwrites_only_witness :
  let o := orch (demo (env_with_plan plan_gated) (replicate 12 Work)) in
  ∃ t s o' t' s',
    tasks o !! "t1" = Some t ∧ t_steps t !! 0 = Some s
    ∧ update_task_step "t1" 0 (Some "failed") None (Some "late") o = (inr tt, o')
    ∧ tasks o' !! "t1" = Some t' ∧ t_steps t' !! 0 = Some s'
    ∧ s_result s' = s_result s.
Proof.
  intros o.
  pose (t := default demo_task (tasks o !! "t1")).
  pose (s := default (mkStep "" "" 0 0 None None) (t_steps t !! 0)).
  assert (tasks o !! "t1" = Some t) as Ht by (vm_compute; reflexivity).
  assert (t_steps t !! 0 = Some s) as Hs by (vm_compute; reflexivity).
  destruct (update_task_step_overwrites_only o "t1" t 0 s (Some "failed") None
              (Some "late") Ht Hs)
    as (o' & t' & s' & H1 & H2 & _ & _ & _ & _ & H3 & _ & _ & _ & _ & _ & H4 & _).
  exists t, s, o', t', s'.
  split; [exact Ht|]. split; [exact Hs|]. split; [exact H1|].
  split; [exact H2|]. split; [exact H3|]. exact (H4 eq_refl).
Defined.

(** X4. [add_task_step] appends: it returns the index of the new step, which
    is the former length of the list; the steps that were there are
    kept; the new step has the description and status given, no result
    and no error; and [update_task_step] at the returned index is then
    within range. *)
Theorem add_task_step_appends (o : Orchestrator) (task_id : string) (t : Task)
    (description status : string) :
  tasks o !! task_id = Some t →
  ∃ o' t' s,
    add_task_step task_id description status o = (inr (length (t_steps t)), o')
    ∧ tasks o' !! task_id = Some t'
    ∧ (∀ other, other ≠ task_id → tasks o' !! other = tasks o !! other)
    ∧ t_steps t' = (t_steps t ++ [s])%list
    ∧ s_description s = description ∧ s_status s = status
    ∧ s_result s = None ∧ s_error s = None
    ∧ t_status t' = t_status t
    ∧ ∀ st r e,
        (update_task_step task_id (length (t_steps t)) st r e o').1 = inr tt.
Proof.
  intros Ht.
  eexists _, _, (mkStep description status (clock o) (S (clock o)) None None).
  split; [by apply (add_task_step_ok o task_id t)|].
  unfold tick, with_tasks. simpl. rewrite lookup_insert_eq.
  split; [done|]. split; [by intros other ?; rewrite lookup_insert_ne|].
  simpl. split_and!; try done.
  intros st r e. erewrite update_task_step_ok; [done| |].
  - simpl. apply lookup_insert_eq.
  - simpl. by rewrite lookup_app_r, Nat.sub_diag.
Qed.

Lemma add_task_step_appends_witness :
  let o := (create_task "t1" "demo" "x" ∅ "low" empty_orchestrator).2 in
  tasks o !! "t1" = Some demo_task
  ∧ ∃ o' t' s,
      add_task_step "t1" "first" "pending" o = (inr 0, o')
      ∧ tasks o' !! "t1" = Some t'
      ∧ t_steps t' = [s] ∧ s_description s = "first".
Proof.
  intros o.
  assert (tasks o !! "t1" = Some demo_task) as Ht by (vm_compute; reflexivity).
  split; [exact Ht|].
  destruct (add_task_step_appends o "t1" demo_task "first" "pending" Ht)
    as (o' & t' & s & H1 & H2 & _ & H3 & H4 & _).
  exists o', t', s. split; [exact H1|]. split; [exact H2|].
  split; [exact H3|exact H4].
Defined.

(** X5. [get_all_tasks] reads only. Without a filter, or with the empty
    string as filter, it returns one record for each stored task; with a
    filter it returns exactly the stored tasks whose status equals it. *)
Theorem get_all_tasks_filters (o : Orchestrator) (status_filter : option string) :
  ∃ l, get_all_tasks status_filter o = (inr l, o)
       ∧ (∀ t, t ∈ l ↔ ∃ task_id, tasks o !! task_id = Some t
                        ∧ match status_filter with
                          | Some f => f = "" ∨ t_status t = f
                          | None => True
                          end)
       ∧ (status_filter = None ∨ status_filter = Some "" →
          length l = size (tasks o)).
Proof.
  assert (∀ t, t ∈ (map_to_list (tasks o)).*2
               ↔ ∃ task_id, tasks o !! task_id = Some t) as Hall.
  { intros t. rewrite list_elem_of_fmap. split.
    - intros ([id t'] & -> & Hin). exists id. by apply elem_of_map_to_list.
    - intros [id Hid]. exists (id, t). split; [done|]. by apply elem_of_map_to_list. }
  assert (length (map_to_list (tasks o)).*2 = size (tasks o)) as Hlen
    by (by rewrite length_fmap, length_map_to_list).
  unfold get_all_tasks. unfold_M. simpl.
  destruct status_filter as [f|]; [destruct (decide (f = "")) as [->|Hf]|];
    eexists; (split; [reflexivity|]); split.
  - intros t. rewrite Hall.
    split; [intros [id ?]; exists id; split; [done|by left]
           |intros (id & ? & _); by exists id].
  - done.
  - intros t. rewrite list_elem_of_filter, Hall.
    split; [intros [? [id ?]]; exists id; split; [done|by right]
           |intros (id & ? & [?|?]); [done|split; [done|by exists id]]].
  - intros [?|[= ?]]; done.
  - intros t. rewrite Hall.
    split; [intros [id ?]; by exists id|intros (id & ? & _); by exists id].
  - done.
Qed.

(** X7. [cancel_task] can be repeated: on a task that exists it returns
    every time, the status is ["cancelled"] afterwards, the task is not
    among the active ones, and its steps, result and error are
    untouched. *)
Theorem cancel_task_repeats (o : Orchestrator) (task_id : string) (t : Task) :
  tasks o !! task_id = Some t →
  ∃ o1 o2 t2,
    cancel_task task_id o = (inr tt, o1)
    ∧ cancel_task task_id o1 = (inr tt, o2)
    ∧ tasks o2 !! task_id = Some t2
    ∧ t_status t2 = "cancelled"
    ∧ t_steps t2 = t_steps t ∧ t_result t2 = t_result t ∧ t_error t2 = t_error t
    ∧ (task_id ∉ active_tasks o1)
    ∧ active_tasks o2 = active_tasks o1.
Proof.
  intros Ht. eexists _, _, _.
  split; [by apply (cancel_task_ok o task_id t)|].
  split; [apply cancel_task_ok; simpl; apply lookup_insert_eq|].
  simpl. rewrite lookup_insert_eq. split_and!; try done.
  - intros [_ Hin]%elem_of_difference. by apply Hin, elem_of_singleton.
  - apply set_eq. intros x. rewrite !elem_of_difference.
    split; [by intros [? _]|by intros [? ?]].
Qed.

Lemma cancel_task_repeats_witness :
  let o := (create_task "t1" "demo" "x" ∅ "low" empty_orchestrator).2 in
  tasks o !! "t1" = Some demo_task
  ∧ ∃ o1 o2 t2,
      cancel_task "t1" o = (inr tt, o1) ∧ cancel_task "t1" o1 = (inr tt, o2)
      ∧ tasks o2 !! "t1" = Some t2 ∧ t_status t2 = "cancelled".
Proof.
  intros o.
  assert (tasks o !! "t1" = Some demo_task) as Ht by (vm_compute; reflexivity).
  split; [exact Ht|].
  destruct (cancel_task_repeats o "t1" demo_task Ht)
    as (o1 & o2 & t2 & H1 & H2 & H3 & H4 & _).
  exists o1, o2, t2. split; [exact H1|]. split; [exact H2|].
  split; [exact H3|exact H4].
Defined.
(** * Further properties of the worker *)

Section Writes.
Context (env : Env) (task_id : string).

Lemma step_extends_refl st : step_extends st st.
Proof. by repeat split. Qed.

Lemma step_extends_trans st1 st2 st3 :
  step_extends st1 st2 → step_extends st2 st3 → step_extends st1 st3.
Proof.
  intros (Hd & Hc & Hr & He) (Hd' & Hc' & Hr' & He').
  repeat split; [congruence|congruence|auto|auto].
Qed.

Lemma step_extends_update status result error now st :
  step_extends st (update_step status result error now st).
Proof.
  repeat split; simpl.
  - by destruct result.
  - by destruct error.
Qed.

Lemma extends_refl t : extends t t.
Proof.
  repeat split; try done. intros i st Hst. exists st.
  split; [done|apply step_extends_refl].
Qed.

Lemma extends_trans t1 t2 t3 : extends t1 t2 → extends t2 t3 → extends t1 t3.
Proof.
  intros (H1 & H2 & H3 & H4 & H5 & H6 & H7 & H8 & H9)
         (H1' & H2' & H3' & H4' & H5' & H6' & H7' & H8' & H9').
  repeat split; try congruence; [auto|].
  intros i st Hst. destruct (H9 i st Hst) as (st2 & Hst2 & Hx).
  destruct (H9' i st2 Hst2) as (st3 & Hst3 & Hx').
  exists st3. split; [done|by apply (step_extends_trans st st2)].
Qed.

Lemma extends_set_status status now t : extends t (set_status status now t).
Proof.
  repeat split; try done. intros i st Hst. exists st.
  split; [done|apply step_extends_refl].
Qed.

Lemma extends_set_error error now t : extends t (set_error (Some error) now t).
Proof.
  repeat split; try done. intros i st Hst. exists st.
  split; [done|apply step_extends_refl].
Qed.

Lemma extends_append st now t : extends t (set_steps (t_steps t ++ [st]) now t).
Proof.
  repeat split; try done. intros i st0 Hst. exists st0. simpl.
  split; [by apply lookup_app_l_Some|apply step_extends_refl].
Qed.

Lemma extends_update_step i s status result error now now' t :
  t_steps t !! i = Some s →
  extends t (set_steps (<[i := update_step status result error now s]> (t_steps t))
               now' t).
Proof.
  intros Hs. repeat split; try done. intros j st Hst. simpl.
  destruct (decide (j = i)) as [->|Hne].
  - rewrite Hs in Hst. injection Hst as <-. eexists. split.
    + apply list_lookup_insert_eq. by apply lookup_lt_Some in Hs.
    + apply step_extends_update.
  - exists st. split; [by rewrite list_lookup_insert_ne|apply step_extends_refl].
Qed.

Lemma writes_refl o : writes task_id o o.
Proof. by left. Qed.

Lemma writes_insert o t x a c :
  tasks o !! task_id = Some t → extends t x →
  writes task_id o (mkOrch (<[task_id := x]> (tasks o)) a c).
Proof. intros Ht Hx. right. by exists t, x. Qed.

Lemma update_task_status_writes status o :
  writes task_id o (update_task_status task_id status o).2.
Proof.
  unfold update_task_status.
  destruct (TaskStatus_of status) as [x|]; [|apply writes_refl].
  unfold_M. simpl. destruct (tasks o !! task_id) as [t|] eqn:Ht; simpl.
  - apply (writes_insert o t); [done|apply extends_set_status].
  - apply writes_refl.
Qed.

Lemma add_task_error_writes error o :
  writes task_id o (add_task_error task_id error o).2.
Proof.
  unfold add_task_error. unfold_M. simpl.
  destruct (tasks o !! task_id) as [t|] eqn:Ht; simpl.
  - apply (writes_insert o t); [done|apply extends_set_error].
  - apply writes_refl.
Qed.

Lemma add_task_step_writes description status o :
  writes task_id o (add_task_step task_id description status o).2.
Proof.
  destruct (tasks o !! task_id) as [t|] eqn:Ht.
  - rewrite (add_task_step_ok o task_id t _ _ Ht).
    apply (writes_insert o t); [done|apply extends_append].
  - unfold add_task_step. unfold_M. simpl. rewrite Ht. apply writes_refl.
Qed.

(** [update_task_step] raises before it writes. *)
Lemma update_task_step_cases i status result error o :
  (∃ e, update_task_step task_id i status result error o = (inl e, o))
  ∨ (∃ t s, tasks o !! task_id = Some t ∧ t_steps t !! i = Some s).
Proof.
  destruct (tasks o !! task_id) as [t|] eqn:Ht.
  - destruct (t_steps t !! i) as [s|] eqn:Hs; [right; eauto|left].
    eexists. by apply (update_task_step_out_of_range o task_id t).
  - left. eexists. unfold update_task_step. unfold_M. simpl. by rewrite Ht.
Qed.

Lemma update_task_step_writes i status result error o :
  writes task_id o (update_task_step task_id i status result error o).2.
Proof.
  destruct (update_task_step_cases i status result error o)
    as [[e ->]|(t & s & Ht & Hs)]; [apply writes_refl|].
  rewrite (update_task_step_ok o task_id t i s _ _ _ Ht Hs).
  apply (writes_insert o t); [done|by apply extends_update_step].
Qed.

Lemma dispatch_writes f step o :
  writes task_id o (dispatch env task_id f step o).2.
Proof.
  destruct (tasks o !! task_id) as [t|] eqn:Ht.
  - destruct (t_steps t !! f_i f) as [st|] eqn:Hst.
    + rewrite (dispatch_spec env task_id o f step t st Ht Hst).
      destruct (agent_call env task_id f step o);
        (apply (writes_insert o t); [done|by apply extends_update_step]).
    + unfold dispatch, try_except.
      pose proof (update_task_step_out_of_range o task_id t (f_i f)) as Hu.
      destruct (agents env !! default "execution" (p_agent_type step)) as [agent|];
        unfold live_view, mbind, M_bind, mret, M_ret, lift, raise; simpl.
      * destruct (agent _ step (f_i f)); simpl; rewrite !Hu by done; simpl;
          apply writes_refl.
      * rewrite !Hu by done; simpl. apply writes_refl.
  - assert (∀ st r e, update_task_step task_id (f_i f) st r e o
                      = (inl (KeyError ("Task " ++ task_id ++ " not found")), o))
      as Hu by (intros; unfold update_task_step; unfold_M; simpl; by rewrite Ht).
    unfold dispatch, try_except.
    destruct (agents env !! default "execution" (p_agent_type step)) as [agent|];
      unfold live_view, mbind, M_bind, mret, M_ret, lift, raise; simpl.
    + destruct (agent _ step (f_i f)); simpl; rewrite !Hu; simpl; apply writes_refl.
    + rewrite !Hu; simpl. apply writes_refl.
Qed.

Lemma guarded_snd {A} (r : (exn + A) * Orchestrator) k : (guarded r k).2 = r.2.
Proof. by destruct r as [[?|?] ?]. Qed.

Lemma unguarded_snd {A} (r : (exn + A) * Orchestrator) : (unguarded r).2 = r.2.
Proof. by destruct r as [[?|?] ?]. Qed.

Lemma get_task_snd o : (get_task task_id o).2 = o.
Proof.
  unfold get_task, the_task. unfold_M. simpl. by destruct (tasks o !! task_id).
Qed.

Lemma worker_step_writes p o :
  writes task_id o (worker_step env task_id p o).2.
Proof.
  destruct p; unfold worker_step.
  - rewrite guarded_snd, get_task_snd. apply writes_refl.
  - rewrite guarded_snd. apply update_task_status_writes.
  - destruct (agents env !! "task_manager"); rewrite ?guarded_snd; apply writes_refl.
  - destruct (plan_steps plan !! k); rewrite ?guarded_snd;
      [apply add_task_step_writes|apply writes_refl].
  - rewrite guarded_snd. apply update_task_status_writes.
  - destruct (plan_steps (f_plan f) !! f_i f);
      rewrite ?guarded_snd, ?get_task_snd; apply writes_refl.
  - rewrite guarded_snd. apply update_task_step_writes.
  - rewrite guarded_snd. apply update_task_status_writes.
  - rewrite guarded_snd, get_task_snd. apply writes_refl.
  - rewrite guarded_snd. apply dispatch_writes.
  - rewrite guarded_snd. apply update_task_status_writes.
  - destruct (agents env !! "learning"); rewrite ?guarded_snd; [|apply writes_refl].
    unfold get_task, the_task. unfold_M. simpl.
    destruct (tasks o !! task_id); apply writes_refl.
  - pose proof (add_task_error_writes (str_exn e) o) as H.
    by destruct (add_task_error task_id (str_exn e) o) as [[?|?] ?].
  - rewrite unguarded_snd. apply update_task_status_writes.
  - by left.
  - apply writes_refl.
Qed.

Lemma call_writes o :
  writes task_id o (approve_task task_id o).2
  ∧ writes task_id o (cancel_task task_id o).2.
Proof.
  destruct (tasks o !! task_id) as [t|] eqn:Ht.
  - split.
    + destruct (decide (t_status t = value WAITING_FOR_APPROVAL)) as [Hw|Hw].
      * rewrite (approve_task_waiting o task_id t Ht Hw).
        apply (writes_insert o t); [done|apply extends_set_status].
      * rewrite (approve_task_not_waiting o task_id t Ht Hw). apply writes_refl.
    + rewrite (cancel_task_ok o task_id t Ht).
      apply (writes_insert o t); [done|apply extends_set_status].
  - rewrite (approve_task_missing o task_id Ht), (cancel_task_missing o task_id Ht).
    split; apply writes_refl.
Qed.

Lemma writes_dom o o' : writes task_id o o' → dom (tasks o') = dom (tasks o).
Proof.
  intros [->|(t & x & Ht & _ & ->)]; [done|].
  apply dom_insert_lookup_L. by rewrite Ht.
Qed.

Lemma writes_other o o' other :
  writes task_id o o' → other ≠ task_id → tasks o' !! other = tasks o !! other.
Proof.
  intros [->|(t & x & Ht & _ & ->)] Hne; [done|]. by rewrite lookup_insert_ne.
Qed.

Lemma writes_extends o o' id t :
  writes task_id o o' → tasks o !! id = Some t →
  ∃ t', tasks o' !! id = Some t' ∧ extends t t'.
Proof.
  intros [->|(t0 & x & Ht & Hx & ->)] Hid.
  - exists t. split; [done|apply extends_refl].
  - destruct (decide (id = task_id)) as [->|Hne].
    + exists x. rewrite lookup_insert_eq. split; [done|]. congruence.
    + exists t. rewrite lookup_insert_ne by done. split; [done|apply extends_refl].
Qed.

End Writes.

(** What one event writes. *)
Lemma sys_step_writes (env : Env) (task_id : string) (s : Sys) (ev : event) :
  ∃ id, writes id (orch s) (orch (sys_step env task_id s ev))
        ∧ match ev with Work => id = task_id | Approve x | Cancel x => id = x end.
Proof.
  destruct ev as [|id|id]; simpl.
  - exists task_id. split; [apply worker_step_writes|done].
  - exists id. split; [apply call_writes|done].
  - exists id. split; [apply call_writes|done].
Qed.

(** X8. No event deletes a task or creates one: the worker and the calls of
    [approve_task] and [cancel_task] keep the set of stored
    identifiers. *)
Theorem no_task_is_deleted (env : Env) (task_id : string) (sched : list event)
    (s : Sys) :
  dom (tasks (orch (run env task_id sched s))) = dom (tasks (orch s)).
Proof.
  revert s. induction sched as [|ev sched IH]; intros s; [done|].
  simpl. rewrite IH.
  destruct (sys_step_writes env task_id s ev) as (id & Hw & _).
  by apply (writes_dom id).
Qed.

(** X9. The worker of one task writes to no other task: a task changes only
    through its own worker and through calls that name it. *)
Theorem worker_leaves_other_tasks (env : Env) (task_id other : string)
    (sched : list event) (s : Sys) :
  other ≠ task_id →
  Forall (λ ev, ev ≠ Approve other ∧ ev ≠ Cancel other) sched →
  tasks (orch (run env task_id sched s)) !! other = tasks (orch s) !! other.
Proof.
  intros Hne. revert s. induction sched as [|ev sched IH]; intros s Hall; [done|].
  inversion Hall as [|? ? [Ha Hc] Hrest]; subst. simpl. rewrite IH by done.
  destruct (sys_step_writes env task_id s ev) as (id & Hw & Hid).
  apply (writes_other id); [done|]. destruct ev; congruence.
Qed.

Lemma worker_leaves_other_tasks_witness :
  let env := env_with_plan plan_validate in
  let s := mkSys (create_task "t2" "other" "y" ∅ "low"
                    (create_task "t1" "demo" "x" ∅ "low" empty_orchestrator).2).2
             Start in
  ("t2" ≠ "t1"
   ∧ Forall (λ ev, ev ≠ Approve "t2" ∧ ev ≠ Cancel "t2") (replicate 13 Work))
  ∧ tasks (orch (run env "t1" (replicate 13 Work) s)) !! "t2"
    = tasks (orch s) !! "t2".
Proof.
  intros env s.
  assert ("t2" ≠ "t1") as Hne by discriminate.
  assert (Forall (λ ev, ev ≠ Approve "t2" ∧ ev ≠ Cancel "t2") (replicate 13 Work))
    as Hall by (apply Forall_replicate; split; discriminate).
  split; [by split|].
  exact (worker_leaves_other_tasks env "t1" "t2" (replicate 13 Work) s Hne Hall).
Defined.

(** X10. Nothing recorded about a task is lost or rewritten while it runs:
    whatever the worker does and whichever tasks are approved or
    cancelled, a stored task keeps its identifier, type, description,
    parameters, priority, creation time and result, keeps an error once
    it has one, and keeps each of its steps at its index, with its
    description and creation time and with a result or an error once
    the step has one. *)
Theorem task_history_is_kept (env : Env) (task_id : string) (sched : list event)
    (s : Sys) (id : string) (t : Task) :
  tasks (orch s) !! id = Some t →
  ∃ t', tasks (orch (run env task_id sched s)) !! id = Some t' ∧ extends t t'.
Proof.
  revert s t. induction sched as [|ev sched IH]; intros s t Ht.
  - exists t. split; [done|apply extends_refl].
  - simpl. destruct (sys_step_writes env task_id s ev) as (id' & Hw & _).
    destruct (writes_extends id' _ _ id t Hw Ht) as (t1 & Ht1 & Hx1).
    destruct (IH _ t1 Ht1) as (t2 & Ht2 & Hx2).
    exists t2. split; [done|by apply (extends_trans t t1)].
Qed.

Lemma task_history_is_kept_witness :
  let env := env_with_plan plan_validate in
  let s := demo env (replicate 9 Work) in
  ∃ t, tasks (orch s) !! "t1" = Some t
       ∧ ∃ t', tasks (orch (run env "t1" [Work; Cancel "t1"; Work; Work] s)) !! "t1"
               = Some t' ∧ extends t t'.
Proof.
  intros env s.
  pose (t := default demo_task (tasks (orch s) !! "t1")).
  assert (tasks (orch s) !! "t1" = Some t) as Ht by (vm_compute; reflexivity).
  exists t. split; [exact Ht|].
  exact (task_history_is_kept env "t1" [Work; Cancel "t1"; Work; Work] s "t1" t Ht).
Defined.

(** X6. [create_task] returns the identifier and starts the worker;
    whenever [get_task] is called on that identifier afterwards,
    whatever the worker has done by then and whoever has approved or
    cancelled, it returns a task with the identifier, type,
    description, parameters and priority that were asked for, the
    creation time, and no result. Before the first step of the worker
    the task is ["pending"], has no steps and no error, and is
    registered as active. The tasks stored before are still stored, with
    what was recorded about them. *)
Theorem create_task_then_get (env : Env) (o : Orchestrator)
    (task_id task_type description : string) (parameters : gmap string pyval)
    (priority : string) (sched : list event) :
  let s0 := spawn o task_id task_type description parameters priority in
  let s := run env task_id sched s0 in
  create_task task_id task_type description parameters priority o
  = (inr task_id, orch s0)
  ∧ (∃ t, get_task task_id (orch s) = (inr t, orch s)
          ∧ t_id t = task_id ∧ t_type t = task_type ∧ t_description t = description
          ∧ t_parameters t = parameters ∧ t_priority t = priority
          ∧ t_created_at t = clock o ∧ t_result t = None
          ∧ (sched = [] →
             t_status t = "pending" ∧ t_steps t = [] ∧ t_error t = None
             ∧ task_id ∈ active_tasks (orch s)))
  ∧ (∀ other t0, other ≠ task_id → tasks o !! other = Some t0 →
       ∃ t', tasks (orch s) !! other = Some t' ∧ extends t0 t').
Proof.
  intros s0 s.
  assert (∀ sched s1 id t, tasks (orch s1) !! id = Some t →
            ∃ t', tasks (orch (run env task_id sched s1)) !! id = Some t'
                  ∧ extends t t') as Hrun.
  { clear. induction sched as [|ev sched IH]; intros s1 id t Ht.
    - exists t. split; [done|apply extends_refl].
    - simpl. destruct (sys_step_writes env task_id s1 ev) as (id' & Hw & _).
      destruct (writes_extends id' _ _ id t Hw Ht) as (t1 & Ht1 & Hx1).
      destruct (IH _ id t1 Ht1) as (t2 & Ht2 & Hx2).
      exists t2. split; [done|by apply (extends_trans t t1)]. }
  split; [reflexivity|]. split.
  - destruct (Hrun sched s0 task_id
                (created o task_id task_type description parameters priority))
      as (t & Ht & H1 & H2 & H3 & H4 & H5 & H6 & H7 & _);
      [apply lookup_insert_eq|].
    exists t. fold s in Ht. split; [by apply get_task_ok|].
    split_and!; try done.
    intros ->. simpl in Ht. rewrite lookup_insert_eq in Ht. injection Ht as <-.
    simpl. split_and!; try done.
    apply elem_of_union_l. by apply elem_of_singleton.
  - intros other t0 Hne Ht0. apply Hrun. simpl. by rewrite lookup_insert_ne.
Qed.

Section Outcome.
Context (env : Env) (task_id : string).

Lemma settled_insert success i now st steps status result error :
  settled success i steps →
  settled success i (<[i := update_step status result error now st]> steps).
Proof.
  destruct success; simpl.
  - intros H j st' Hj. rewrite list_lookup_insert_ne by lia. by apply H.
  - intros (j & st' & Hj & Hst & Hf). exists j, st'.
    by rewrite list_lookup_insert_ne by lia.
Qed.

Lemma settled_next success i now st steps result :
  steps !! i = Some st → settled success i steps →
  settled success (S i)
    (<[i := update_step (Some "succeeded") result None now st]> steps).
Proof.
  intros Hst. destruct success; simpl.
  - intros H j st' Hj. destruct (decide (j = i)) as [->|Hne].
    + rewrite list_lookup_insert_eq by (by apply lookup_lt_Some in Hst).
      by intros [= <-].
    + rewrite list_lookup_insert_ne by done. apply H. lia.
  - intros (j & st' & Hj & Hst' & Hf). exists j, st'.
    rewrite list_lookup_insert_ne by lia. split; [lia|done].
Qed.

Lemma settled_failed i n now st steps error :
  steps !! i = Some st → i < n →
  settled false n (<[i := update_step (Some "failed") None error now st]> steps).
Proof.
  intros Hst Hi. exists i, (update_step (Some "failed") None error now st).
  split; [done|]. split; [|done].
  apply list_lookup_insert_eq. by apply lookup_lt_Some in Hst.
Qed.

Lemma settled_end success i steps :
  length steps ≤ i → settled success i steps → settled success (length steps) steps.
Proof.
  intros Hi. destruct success; simpl.
  - intros H j st Hj. apply H. lia.
  - intros (j & st & Hj & Hst & Hf). exists j, st. split; [|done].
    by apply lookup_lt_Some in Hst.
Qed.

Ltac tally_now :=
  eexists; split; [rewrite ?lookup_insert_eq; done|]; simpl; unfold outcome; simpl.

Lemma tally_work s :
  LedgerInv task_id s → Tally task_id s → Tally task_id (sys_step env task_id s Work).
Proof.
  intros (t0 & Ht0 & _ & Hl) (t & Ht & Hy). destruct s as [o p].
  unfold Tally, task_of in *. simpl in *.
  assert (t0 = t) as -> by congruence. clear Ht0.
  destruct p; simpl in *.
  - (* Start *) store_ops Ht. by tally_now.
  - (* SetPlanning *) store_ops Ht. by tally_now.
  - (* Planning *)
    destruct (agents env !! "task_manager"); simpl; [|by tally_now].
    unfold lift. destruct (plan_task env task); simpl; by tally_now.
  - (* AddSteps *)
    destruct (plan_steps plan !! k); simpl; [|by tally_now].
    store_ops Ht. by tally_now.
  - (* SetExecuting *)
    store_ops Ht. tally_now. split; [done|]. intros j st Hj. lia.
  - (* LoopHead *)
    destruct Hy as [He Hs], Hl as [Hlen _].
    destruct (plan_steps (f_plan f) !! f_i f) as [step|] eqn:Hstep; simpl.
    + store_ops Ht. destruct (decide _) as [Hc|Hc]; simpl; tally_now; [|done].
      rewrite Hc. split; [unfold terminal; in_list|]. by split.
    + tally_now. split; [done|]. apply (settled_end _ (f_i f)); [|done].
      apply lookup_ge_None in Hstep. lia.
  - (* MarkStep *)
    destruct Hy as [He Hs], Hl as (Hlen & _ & Hstep).
    destruct (t_steps t !! f_i f) as [st|] eqn:Hst.
    2:{ apply lookup_ge_None in Hst. apply lookup_lt_Some in Hstep. lia. }
    rewrite (update_task_step_ok _ _ _ _ _ _ _ _ Ht Hst). simpl.
    destruct (default false (p_requires_approval step)); tally_now;
      (split; [done|by apply settled_insert]).
  - (* SetWaiting *) store_ops Ht. by tally_now.
  - (* Poll *)
    store_ops Ht. destruct Hy as [He Hs].
    destruct (decide _) as [Hx|Hx]; simpl; [by tally_now|].
    destruct (decide _) as [Hc|Hc]; simpl; tally_now; [|done].
    rewrite Hc. split; [unfold terminal; in_list|]. by split.
  - (* Dispatch *)
    destruct Hy as [He Hs], Hl as (Hlen & _ & Hstep & st & Hst & _).
    rewrite (dispatch_spec env task_id o f step t st Ht Hst).
    destruct (agent_call env task_id f step o) as [e|r]; simpl.
    + destruct (default false (p_critical step)); simpl; tally_now.
      * split; [done|]. rewrite length_insert. apply settled_failed; [done|].
        by apply lookup_lt_Some in Hst.
      * split; [done|]. apply settled_failed; [done|lia].
    + tally_now. split; [done|]. by apply settled_next.
  - (* Finalize *)
    destruct Hy as [He Hs].
    destruct success; store_ops Ht; tally_now.
    + split; [done|]. split; [done|]. in_list.
    + split; [unfold terminal; in_list|]. split; [done|]. intros _. by left.
  - (* Learn *)
    destruct Hy as (He & Hs & Hst).
    destruct (agents env !! "learning"); simpl; [|by tally_now].
    unfold mbind, M_bind. store_ops Ht. unfold lift.
    destruct (learn_from_task env task_id t); simpl; tally_now; [done|].
    split; [|split].
    + clear -Hst. unfold terminal.
      apply elem_of_cons in Hst as [->|Hst]; [in_list|].
      apply list_elem_of_singleton in Hst as ->. in_list.
    + done.
    + intros Hf. rewrite Hf in Hst. not_in_list Hst.
  - (* Handler *) store_ops Ht. by tally_now.
  - (* HandlerStatus *)
    store_ops Ht. tally_now. split; [unfold terminal; in_list|].
    split; [done|]. intros _. by right.
  - (* Finally *) by tally_now.
  - (* Done *) by tally_now.
Qed.

Lemma tally_step s ev :
  LedgerInv task_id s → Tally task_id s → Tally task_id (sys_step env task_id s ev).
Proof.
  destruct (decide (ev = Work)) as [->|Hev]; [apply tally_work|].
  intros _ (t & Ht & Hy).
  destruct (call_effect env task_id s ev t Hev Ht)
    as (Hpc & t' & Ht' & Hsteps & Hres & Herr & Hst).
  exists t'. split; [done|]. rewrite Hpc.
  destruct (wpc s); simpl in *; unfold outcome in *; rewrite ?Hsteps, ?Herr; try done.
  - (* Learn *)
    destruct Hy as (He & Hs & Hin). split; [done|]. split; [done|].
    destruct Hst as [->|[(_ & Hw & _)|(_ & ->)]]; [done| |in_list].
    rewrite Hw in Hin. not_in_list Hin.
  - (* Finally *)
    destruct Hy as (Hin & Hs & Hf).
    destruct Hst as [->|[(_ & Hw & _)|(_ & ->)]]; [done| |].
    + rewrite Hw in Hin. unfold terminal in Hin. not_in_list Hin.
    + split; [unfold terminal; in_list|]. by split.
  - (* Done *)
    destruct Hy as (Hin & Hs & Hf).
    destruct Hst as [->|[(_ & Hw & _)|(_ & ->)]]; [done| |].
    + rewrite Hw in Hin. unfold terminal in Hin. not_in_list Hin.
    + split; [unfold terminal; in_list|]. by split.
Qed.

Lemma tally_run sched s :
  LedgerInv task_id s → Tally task_id s → Tally task_id (run env task_id sched s).
Proof.
  revert s. induction sched as [|ev sched IH]; intros s Hl Hy; [done|].
  simpl. apply IH; [by apply ledger_step|by apply tally_step].
Qed.

End Outcome.

(** X11. The final status of a task tells what happened to its steps,
    whoever approved or cancelled in between: once the worker has
    ended the status is succeeded, failed or cancelled; if it is
    succeeded, every step is marked succeeded and no error is recorded;
    if it is failed, a step is marked failed or an error is recorded. *)
Theorem final_status_reflects_steps (env : Env) (o : Orchestrator)
    (task_id task_type description : string) (parameters : gmap string pyval)
    (priority : string) (sched : list event) (uncaught : option exn) (t : Task) :
  let s := run env task_id sched
             (spawn o task_id task_type description parameters priority) in
  wpc s = Done uncaught → task_of task_id s = Some t →
  terminal (t_status t)
  ∧ (t_status t = "succeeded" →
       Forall (λ st, s_status st = "succeeded") (t_steps t) ∧ t_error t = None)
  ∧ (t_status t = "failed" →
       Exists (λ st, s_status st = "failed") (t_steps t) ∨ is_Some (t_error t)).
Proof.
  intros s Hpc Ht.
  destruct (tally_run env task_id sched
              (spawn o task_id task_type description parameters priority))
    as (t' & Ht' & Hy).
  - apply (ledger_spawn env task_id o task_type description parameters priority []).
  - eexists. split; [apply lookup_insert_eq|done].
  - fold s in Ht', Hy. rewrite Hpc in Hy. assert (t' = t) as -> by congruence.
    unfold tally, outcome in Hy. destruct Hy as (Hterm & Hs & Hf). split; [done|]. split.
    + intros Hst. destruct (Hs Hst) as [Hall He]. split; [|done].
      apply Forall_lookup. intros j st Hj. apply (Hall j); [|done].
      by apply lookup_lt_Some in Hj.
    + intros Hst. destruct (Hf Hst) as [(j & st & _ & Hj & Hx)|He]; [left|by right].
      apply Exists_exists. exists st. split; [|done]. by apply (list_elem_of_lookup_2 _ j).
Qed.

Lemma final_status_reflects_steps_witness :
  let env := env_with_plan plan_gated in
  let sched := (replicate 10 Work ++ [Approve "t1"] ++ replicate 12 Work)%list in
  let s := run env "t1" sched (spawn empty_orchestrator "t1" "demo" "x" ∅ "low") in
  ∃ t, (wpc s = Done None ∧ task_of "t1" s = Some t ∧ t_status t = "succeeded")
       ∧ terminal (t_status t)
       ∧ (t_status t = "succeeded" →
            Forall (λ st, s_status st = "succeeded") (t_steps t) ∧ t_error t = None)
       ∧ (t_status t = "failed" →
            Exists (λ st, s_status st = "failed") (t_steps t) ∨ is_Some (t_error t)).
Proof.
  intros env sched s.
  pose (t := default demo_task (task_of "t1" s)).
  assert (wpc s = Done None) as Hpc by (vm_compute; reflexivity).
  assert (task_of "t1" s = Some t) as Ht by (vm_compute; reflexivity).
  assert (t_status t = "succeeded") as Hst by (vm_compute; reflexivity).
  exists t. split; [exact (conj Hpc (conj Ht Hst))|].
  exact (final_status_reflects_steps env empty_orchestrator "t1" "demo" "x" ∅ "low"
           sched None t Hpc Ht).
Defined.
Section Exits.
Context (env : Env) (task_id : string).

(** The worker ends through its [finally] block only. *)
Lemma worker_step_done p o u :
  (worker_step env task_id p o).1 = Done u → p = Finally u ∨ p = Done u.
Proof.
  destruct p; unfold worker_step, guarded, unguarded;
    repeat case_match; simpl; intros [=]; subst; auto.
Qed.

Lemma call_active id o :
  active_tasks (approve_task id o).2 ⊆ active_tasks o
  ∧ active_tasks (cancel_task id o).2 ⊆ active_tasks o.
Proof.
  destruct (tasks o !! id) as [t|] eqn:Ht.
  - split.
    + destruct (decide (t_status t = value WAITING_FOR_APPROVAL)) as [Hw|Hw].
      * by rewrite (approve_task_waiting o id t Ht Hw).
      * by rewrite (approve_task_not_waiting o id t Ht Hw).
    + rewrite (cancel_task_ok o id t Ht). simpl.
      intros x Hx. apply elem_of_difference in Hx as [Hx _]. done.
  - by rewrite (approve_task_missing o id Ht), (cancel_task_missing o id Ht).
Qed.

Lemma update_task_status_active status o :
  active_tasks (update_task_status task_id status o).2 = active_tasks o.
Proof.
  unfold update_task_status. destruct (TaskStatus_of status); [|done].
  unfold_M. simpl. by destruct (tasks o !! task_id).
Qed.

Lemma update_task_step_active i status result error o :
  active_tasks (update_task_step task_id i status result error o).2 = active_tasks o.
Proof.
  destruct (update_task_step_cases task_id i status result error o)
    as [[e ->]|(t & s & Ht & Hs)]; [done|].
  by rewrite (update_task_step_ok o task_id t i s _ _ _ Ht Hs).
Qed.

Lemma worker_step_active p o :
  active_tasks (worker_step env task_id p o).2 ⊆ active_tasks o.
Proof.
  destruct p; unfold worker_step;
    rewrite ?guarded_snd, ?unguarded_snd, ?get_task_snd,
      ?update_task_status_active, ?update_task_step_active; try done.
  - destruct (agents env !! "task_manager"); by rewrite ?guarded_snd.
  - destruct (plan_steps plan !! k); rewrite ?guarded_snd; [|done].
    unfold add_task_step. unfold_M. simpl. by destruct (tasks o !! task_id).
  - destruct (plan_steps (f_plan f) !! f_i f);
      by rewrite ?guarded_snd, ?get_task_snd.
  - unfold dispatch, try_except.
    destruct (agents env !! default "execution" (p_agent_type step)) as [agent|];
      unfold live_view, mbind, M_bind, mret, M_ret, lift, raise; simpl.
    + destruct (agent _ step (f_i f)) as [e|r]; simpl.
      * pose proof (update_task_step_active (f_i f) (Some "failed") None
                      (Some (str_exn e)) o) as Hu.
        destruct (update_task_step _ _ _ _ _ o) as [[?|?] ?]; simpl in *;
          by rewrite Hu.
      * pose proof (update_task_step_active (f_i f) (Some "succeeded") (Some r)
                      None o) as Hu.
        destruct (update_task_step _ _ _ _ _ o) as [[e|?] o1]; simpl in *;
          [|by rewrite Hu].
        pose proof (update_task_step_active (f_i f) (Some "failed") None
                      (Some (str_exn e)) o1) as Hu1.
        destruct (update_task_step _ _ _ _ _ o1) as [[?|?] ?]; simpl in *;
          by rewrite Hu1, Hu.
    + pose proof (update_task_step_active (f_i f) (Some "failed") None
                    (Some (str_exn (KeyError (default "execution" (p_agent_type step)))))
                    o) as Hu.
      destruct (update_task_step _ _ _ _ _ o) as [[?|?] ?]; simpl in *;
        by rewrite Hu.
  - destruct (agents env !! "learning"); rewrite ?guarded_snd; [|done].
    unfold get_task, the_task. unfold_M. simpl. by destruct (tasks o !! task_id).
  - unfold add_task_error. unfold_M. simpl. by destruct (tasks o !! task_id).
  - simpl. intros x Hx. apply elem_of_difference in Hx as [Hx _]. done.
Qed.

Lemma sys_step_active s ev :
  active_tasks (orch (sys_step env task_id s ev)) ⊆ active_tasks (orch s)
  ∧ (∀ u, wpc (sys_step env task_id s ev) = Done u →
       (∃ u', wpc s = Done u')
       ∨ task_id ∉ active_tasks (orch (sys_step env task_id s ev))).
Proof.
  destruct ev as [|id|id]; simpl.
  - split; [apply worker_step_active|]. intros u Hu.
    apply worker_step_done in Hu as [Hu|Hu]; [right|left; eauto].
    rewrite Hu. simpl. intros Hx. apply elem_of_difference in Hx as [_ Hx].
    apply Hx. by apply elem_of_singleton.
  - split; [apply call_active|]. intros u Hu. left. eauto.
  - split; [apply call_active|]. intros u Hu. left. eauto.
Qed.

End Exits.

(** X12. The worker never registers a task as active, and it leaves none
    behind: on every way out of [_execute_task], an uncaught exception
    included, the task is no longer in [active_tasks] once the thread
    has ended. *)
Theorem worker_deregisters (env : Env) (o : Orchestrator)
    (task_id task_type description : string) (parameters : gmap string pyval)
    (priority : string) (sched : list event) :
  let s0 := spawn o task_id task_type description parameters priority in
  let s := run env task_id sched s0 in
  task_id ∈ active_tasks (orch s0)
  ∧ active_tasks (orch s) ⊆ active_tasks (orch s0)
  ∧ ∀ uncaught, wpc s = Done uncaught → task_id ∉ active_tasks (orch s).
Proof.
  intros s0 s. split; [apply elem_of_union_l; by apply elem_of_singleton|].
  assert (∀ sched s1,
    ((∃ u, wpc s1 = Done u) → task_id ∉ active_tasks (orch s1)) →
    active_tasks (orch (run env task_id sched s1)) ⊆ active_tasks (orch s1)
    ∧ ((∃ u, wpc (run env task_id sched s1) = Done u) →
       task_id ∉ active_tasks (orch (run env task_id sched s1)))) as Hrun.
  { clear. induction sched as [|ev sched IH]; intros s1 Hd; [done|].
    simpl. destruct (sys_step_active env task_id s1 ev) as [Hsub Hdone].
    destruct (IH (sys_step env task_id s1 ev)) as [Hsub' Hd'].
    - intros [u Hu]. destruct (Hdone u Hu) as [Hold|Hnew]; [|done].
      intros Hin. by apply (Hd Hold), Hsub.
    - split; [|done]. intros x Hx. by apply Hsub, Hsub'. }
  destruct (Hrun sched s0) as [Hsub Hd].
  - intros [u Hu]. discriminate Hu.
  - split; [done|]. intros u Hu. apply Hd. eauto.
Qed.
Section Planning.
Context (env : Env) (task_id : string).

#[local] Arguments sys_step : simpl never.
#[local] Arguments run : simpl never.

(** From the handler of the outer [try] to the end of the thread. *)
Lemma handler_exit o t e n :
  tasks o !! task_id = Some t → 3 ≤ n →
  ∃ o',
    run env task_id (replicate n Work) (mkSys o (Handler e)) = mkSys o' (Done None)
    ∧ tasks o' !! task_id
      = Some (set_status "failed" (S (clock o))
                (set_error (Some (str_exn e)) (clock o) t))
    ∧ active_tasks o' = active_tasks o ∖ {[task_id]}.
Proof.
  intros Ht Hn. replace n with (3 + (n - 3)) by lia.
  rewrite replicate_add, run_app. simpl replicate.
  rewrite !run_cons. unfold run at 2. simpl foldl.
  unfold sys_step at 3. simpl. store_ops Ht.
  unfold sys_step at 2. simpl.
  erewrite update_task_status_ok; [|apply lookup_insert_eq|reflexivity].
  unfold sys_step at 1. simpl.
  eexists. split; [by apply (run_done env task_id _ _ None)|]. simpl.
  rewrite insert_insert_eq, lookup_insert_eq. done.
Qed.

End Planning.

(** X13. When planning raises, or no task manager is registered, the task
    fails before it gets a single step: six steps of the worker end
    the thread, the status is failed, the error is the text of the
    exception, and the task is no longer active. *)
Theorem planning_failure_fails_task (env : Env) (o : Orchestrator)
    (task_id task_type description : string) (parameters : gmap string pyval)
    (priority : string) (e : exn) (n : nat) :
  let task := created o task_id task_type description parameters priority in
  (agents env !! "task_manager" = None ∧ e = KeyError "task_manager")
  ∨ (is_Some (agents env !! "task_manager") ∧ plan_task env task = inl e) →
  6 ≤ n →
  ∃ o' t',
    run env task_id (replicate n Work)
      (spawn o task_id task_type description parameters priority)
    = mkSys o' (Done None)
    ∧ tasks o' !! task_id = Some t'
    ∧ t_status t' = "failed" ∧ t_error t' = Some (str_exn e) ∧ t_steps t' = []
    ∧ t_result t' = None
    ∧ task_id ∉ active_tasks o'.
Proof.
  intros task Hplan Hn. replace n with (3 + (n - 3)) by lia.
  rewrite replicate_add, run_app. simpl replicate.
  set (o0 := (create_task task_id task_type description parameters priority o).2).
  assert (tasks o0 !! task_id = Some task) as Ht0 by apply lookup_insert_eq.
  assert (run env task_id [Work; Work; Work]
            (spawn o task_id task_type description parameters priority)
          = mkSys (tick 1 (with_tasks
                     (<[task_id := set_status "planning" (clock o0) task]> (tasks o0)) o0))
              (Handler e)) as ->.
  { unfold spawn. fold o0. rewrite !run_cons.
    rewrite (work_start env task_id o0 task Ht0).
    rewrite (work_set_status env task_id o0 task (SetPlanning task) "planning"
               PLANNING (Planning task) Ht0 eq_refl eq_refl).
    unfold run, sys_step. simpl. unfold lift.
    destruct Hplan as [[-> ->]|[[a ->] ->]]; done. }
  edestruct (handler_exit env task_id
               (tick 1 (with_tasks
                  (<[task_id := set_status "planning" (clock o0) task]> (tasks o0)) o0))
               (set_status "planning" (clock o0) task) e (n - 3))
    as (o' & Hrun & Ht' & Hact); [apply lookup_insert_eq|lia|].
  exists o'. eexists. split; [exact Hrun|]. split; [exact Ht'|].
  repeat split. rewrite Hact. intros Hin.
  apply elem_of_difference in Hin as [_ Hin]. apply Hin. by apply elem_of_singleton.
Qed.

Lemma planning_failure_fails_task_witness :
  let env := mkEnv (λ _, inl (RuntimeError "knowledge base unavailable"))
               (λ _, inr None) (λ _, inr plan_validate) true []
               (registry ok_backends) (λ _ _, inr tt) in
  ∃ o' t',
    run env "t1" (replicate 6 Work) (spawn empty_orchestrator "t1" "demo" "x" ∅ "low")
    = mkSys o' (Done None)
    ∧ tasks o' !! "t1" = Some t'
    ∧ t_status t' = "failed"
    ∧ t_error t' = Some (str_exn (RuntimeError "knowledge base unavailable"))
    ∧ t_steps t' = [] ∧ t_result t' = None ∧ "t1" ∉ active_tasks o'.
Proof.
  intros env.
  assert ((agents env !! "task_manager" = None
           ∧ RuntimeError "knowledge base unavailable" = KeyError "task_manager")
          ∨ (is_Some (agents env !! "task_manager")
             ∧ plan_task env (created empty_orchestrator "t1" "demo" "x" ∅ "low")
               = inl (RuntimeError "knowledge base unavailable"))) as Hplan.
  { right. split; [by eexists|reflexivity]. }
  exact (planning_failure_fails_task env empty_orchestrator "t1" "demo" "x" ∅ "low"
           (RuntimeError "knowledge base unavailable") 6 Hplan (le_n 6)).
Defined.

(** X14. A task whose plan asks for no approval ends by itself: whatever the
    agents return or raise, the worker is through after at most eleven
    steps of its own plus four for each step of the plan, and the task
    is then succeeded, failed or cancelled. *)
Theorem gate_free_task_finishes (env : Env) (o : Orchestrator)
    (task_id task_type description : string) (parameters : gmap string pyval)
    (priority : string) (plan : Plan) (n : nat) :
  let task := created o task_id task_type description parameters priority in
  is_Some (agents env !! "task_manager") →
  plan_task env task = inr plan →
  gate_free 0 plan →
  11 + 4 * length (plan_steps plan) ≤ n →
  let s := run env task_id (replicate n Work)
             (spawn o task_id task_type description parameters priority) in
  (∃ uncaught, wpc s = Done uncaught)
  ∧ ∃ status, status_of task_id s = Some status ∧ terminal status.
Proof.
  intros task Hm Hplan Hfree Hn s.
  destruct (worker_prefix env task_id o task_type description parameters priority
              plan Hm Hplan) as (o' & t' & Hrun & Ht' & Hst & _).
  subst s. replace n with ((5 + length (plan_steps plan))
                           + (n - (5 + length (plan_steps plan)))) by lia.
  rewrite replicate_add, run_app, Hrun.
  apply (unblocked_terminates env task_id).
  - exists t'. split; [done|]. done.
  - simpl. lia.
Qed.

Lemma gate_free_task_finishes_witness :
  let env := env_with_plan plan_validate in
  let s := run env "t1" (replicate 15 Work)
             (spawn empty_orchestrator "t1" "demo" "x" ∅ "low") in
  (∃ uncaught, wpc s = Done uncaught)
  ∧ ∃ status, status_of "t1" s = Some status ∧ terminal status.
Proof.
  intros env.
  assert (is_Some (agents env !! "task_manager")) as Hm by (by eexists).
  assert (plan_task env (created empty_orchestrator "t1" "demo" "x" ∅ "low")
          = inr plan_validate) as Hplan by reflexivity.
  assert (gate_free 0 plan_validate) as Hfree.
  { intros [|j] step _ Hj; [by injection Hj as <-|discriminate Hj]. }
  assert (11 + 4 * length (plan_steps plan_validate) ≤ 15) as Hn by (simpl; lia).
  exact (gate_free_task_finishes env empty_orchestrator "t1" "demo" "x" ∅ "low"
           plan_validate 15 Hm Hplan Hfree Hn).
Defined.

Section Gate.
Context (env : Env) (task_id : string).

Lemma held_step s ev :
  ev ≠ Approve task_id → held task_id s → held task_id (sys_step env task_id s ev).
Proof.
  intros Hev Hh. destruct (decide (ev = Work)) as [->|Hw].
  - destruct s as [o p]. unfold held, task_of in *. simpl in *.
    destruct p; simpl in *;
      try (unfold guarded, unguarded; repeat case_match; simpl; done).
    + (* MarkStep *)
      unfold guarded. destruct (update_task_step _ _ _ _ _ o) as [[?|?] ?]; [done|].
      simpl. destruct (default false (p_requires_approval step)) eqn:Ha; simpl; done.
    + (* SetWaiting *)
      destruct (tasks o !! task_id) as [t|] eqn:Ht.
      * store_ops Ht. rewrite lookup_insert_eq. eexists. split; [done|]. done.
      * by erewrite update_task_status_missing by done.
    + (* Poll *)
      destruct Hh as (t & Ht & Hst). store_ops Ht.
      destruct (decide _) as [Hx|Hx]; [done|].
      destruct (decide _); simpl; eauto.
  - unfold held in *.
    destruct ev as [|id|id]; [done| |]; simpl; destruct (wpc s); try done.
    + destruct Hh as (t & Ht & Hst).
      destruct (call_effect env task_id s (Approve id) t Hw Ht)
        as (_ & t' & Ht' & _ & _ & _ & Hs).
      exists t'. split; [done|].
      destruct Hs as [->|[[? _]|[? _]]]; [done|congruence|discriminate].
    + destruct Hh as (t & Ht & Hst).
      destruct (call_effect env task_id s (Cancel id) t Hw Ht)
        as (_ & t' & Ht' & _ & _ & _ & Hs).
      exists t'. split; [done|].
      destruct Hs as [->|[[? _]|[_ ->]]]; [done|discriminate|done].
Qed.

End Gate.

(** X15. The approval gate holds: as long as nobody calls [approve_task]
    for the task, its worker dispatches no step that requires
    approval, whatever else is approved or cancelled. *)
Theorem approval_gate_holds (env : Env) (o : Orchestrator)
    (task_id task_type description : string) (parameters : gmap string pyval)
    (priority : string) (sched : list event) (f : Frame) (step : PlanStep) :
  Forall (λ ev, ev ≠ Approve task_id) sched →
  wpc (run env task_id sched
         (spawn o task_id task_type description parameters priority))
  = Dispatch f step →
  default false (p_requires_approval step) = false.
Proof.
  intros Hall Hpc.
  assert (∀ sched s, Forall (λ ev, ev ≠ Approve task_id) sched →
            held task_id s → held task_id (run env task_id sched s)) as Hrun.
  { clear. induction sched as [|ev sched IH]; intros s Hall Hh; [done|].
    inversion Hall; subst. simpl. apply IH; [done|]. by apply held_step. }
  pose proof (Hrun sched _ Hall
                (I : held task_id
                       (spawn o task_id task_type description parameters priority)))
    as Hh.
  unfold held in Hh. by rewrite Hpc in Hh.
Qed.

Lemma approval_gate_holds_witness :
  let env := env_with_plan plan_validate in
  let sched := (replicate 3 Work ++ [Approve "t2"; Cancel "t2"] ++ replicate 5 Work)%list in
  let f := mkFrame demo_task plan_validate 0 true in
  let step := full_step "check" "validation" false false ∅ in
  (Forall (λ ev, ev ≠ Approve "t1") sched
   ∧ wpc (run env "t1" sched (spawn empty_orchestrator "t1" "demo" "x" ∅ "low"))
     = Dispatch f step)
  ∧ default false (p_requires_approval step) = false.
Proof.
  intros env sched f step.
  assert (Forall (λ ev, ev ≠ Approve "t1") sched) as Hall
    by (apply (bool_decide_unpack _); vm_compute; reflexivity).
  assert (wpc (run env "t1" sched (spawn empty_orchestrator "t1" "demo" "x" ∅ "low"))
          = Dispatch f step) as Hpc by (vm_compute; reflexivity).
  split; [exact (conj Hall Hpc)|].
  exact (approval_gate_holds env empty_orchestrator "t1" "demo" "x" ∅ "low"
           sched f step Hall Hpc).
Defined.
(** * Further properties of planning *)

Section Reuse.
Context (current_task : Task).

Lemma reused_steps_descriptions (l : list KBStep) (i : nat) :
  p_description <$>
    omap (λ '(i, step),
      if bool_decide (kbs_status step = Some "succeeded")
      then Some (full_step (kbs_description step)
                   (default "execution" (kbs_agent_type step))
                   (bool_decide (i = 0)) (bool_decide (i = 0)) ∅)
      else None) (enumerate_from i l)
  = kbs_description <$> filter (λ step, kbs_status step = Some "succeeded") l.
Proof.
  revert i. induction l as [|step l IH]; intros i; [done|]. simpl.
  rewrite filter_cons. case_bool_decide as Hs.
  - rewrite decide_True by done. simpl. by rewrite IH.
  - rewrite decide_False by done. apply IH.
Qed.

Lemma reused_steps_later (l : list KBStep) (i : nat) :
  0 < i →
  Forall (λ step, p_requires_approval step = Some false
                  ∧ p_critical step = Some false)
    (omap (λ '(i, step),
       if bool_decide (kbs_status step = Some "succeeded")
       then Some (full_step (kbs_description step)
                    (default "execution" (kbs_agent_type step))
                    (bool_decide (i = 0)) (bool_decide (i = 0)) ∅)
       else None) (enumerate_from i l)).
Proof.
  revert i. induction l as [|step l IH]; intros i Hi; [by apply Forall_nil|].
  simpl. case_bool_decide as Hs.
  - apply Forall_cons. split; [|apply IH; lia].
    simpl. rewrite bool_decide_eq_false_2 by lia. done.
  - apply IH. lia.
Qed.

Lemma reused_steps_parameters (l : list KBStep) (i : nat) :
  Forall (λ step, p_parameters step = Some ∅)
    (omap (λ '(i, step),
       if bool_decide (kbs_status step = Some "succeeded")
       then Some (full_step (kbs_description step)
                    (default "execution" (kbs_agent_type step))
                    (bool_decide (i = 0)) (bool_decide (i = 0)) ∅)
       else None) (enumerate_from i l)).
Proof.
  revert i. induction l as [|step l IH]; intros i; [by apply Forall_nil|].
  simpl. case_bool_decide as Hs; [|apply IH].
  apply Forall_cons. split; [done|apply IH].
Qed.

End Reuse.

(** X16. A plan taken over from a similar task has one step for each
    succeeded step of that task, in their order and under their
    descriptions, and carries none of their parameters. Approval and
    criticality go by the position in the old task, not in the new
    plan: only the step that was first in the old task asks for
    approval and is critical, so a plan made from a task whose first
    step did not succeed has no approval gate and no critical step. *)
Theorem reused_plan_shape (current_task : Task) (similar_task : KBTask) :
  let plan := _create_plan_from_similar_task current_task similar_task in
  plan_task_id plan = t_id current_task
  ∧ p_description <$> plan_steps plan
    = kbs_description <$>
        filter (λ step, kbs_status step = Some "succeeded") (kb_steps similar_task)
  ∧ Forall (λ step, p_parameters step = Some ∅) (plan_steps plan)
  ∧ (∀ j step, plan_steps plan !! j = Some step →
       default false (p_requires_approval step) = true
       ∨ default false (p_critical step) = true →
       j = 0 ∧ ∃ first, head (kb_steps similar_task) = Some first
                        ∧ kbs_status first = Some "succeeded")
  ∧ ((∀ first, head (kb_steps similar_task) = Some first →
        kbs_status first ≠ Some "succeeded") →
     gate_free 0 plan).
Proof.
  intros plan.
  assert (∀ j step, plan_steps plan !! j = Some step →
            default false (p_requires_approval step) = true
            ∨ default false (p_critical step) = true →
            j = 0 ∧ ∃ first, head (kb_steps similar_task) = Some first
                             ∧ kbs_status first = Some "succeeded") as Hgate.
  { subst plan. unfold _create_plan_from_similar_task. simpl.
    destruct (kb_steps similar_task) as [|first l]; [done|]. simpl.
    pose proof (reused_steps_later l 1 (le_n 1)) as Hl.
    intros j step Hj Hg. case_bool_decide as Hs.
    - destruct j as [|j]; [by eauto|]. simpl in Hj.
      apply (Forall_lookup_1 _ _ _ _ Hl) in Hj as [Ha Hc].
      rewrite Ha, Hc in Hg. by destruct Hg.
    - apply (Forall_lookup_1 _ _ _ _ Hl) in Hj as [Ha Hc].
      rewrite Ha, Hc in Hg. by destruct Hg. }
  split; [done|]. split; [apply reused_steps_descriptions|].
  split; [apply reused_steps_parameters|]. split; [done|].
  intros Hfirst j step _ Hj.
  destruct (default false (p_requires_approval step)) eqn:Ha; [|done].
  destruct (Hgate j step Hj (or_introl Ha)) as (_ & first & Hh & Hs).
  by destruct (Hfirst first Hh).
Qed.

(** X17. A plan carries the identifier of the task it was made for,
    whichever way it was made: taken over from a similar task, written
    by the language model (whatever identifier that wrote), extended by
    the default checks, or the fallback plan. *)
Theorem plan_carries_task_id (env : Env) (task : Task) (plan : Plan) :
  plan_task env task = inr plan → plan_task_id plan = t_id task.
Proof.
  assert (plan_task_id (create_plan env task) = t_id task) as Hc.
  { unfold create_plan. destruct (planning_chain env task); [done|].
    by destruct (default_checks env). }
  unfold plan_task. destruct (search_similar_tasks env _) as [e|l]; [done|].
  destruct (if reuse_similar_plans env then _ else _) as [id|]; [|congruence].
  case_bool_decide; [congruence|].
  destruct (kb_get_task env id) as [e|[similar|]]; [done| |done].
  by intros [= <-].
Qed.

Lemma plan_carries_task_id_witness :
  plan_task_id (fallback_plan demo_task) = t_id demo_task.
Proof.
  exact (plan_carries_task_id (wired_env failing_chain ok_backends) demo_task
           (fallback_plan demo_task) eq_refl).
Defined.

(** X18. Of the similar tasks the knowledge base returns, the first that
    is of the same type, succeeded and similar enough decides: the
    plan is made from what the knowledge base holds under its
    identifier, without asking the planner, and when the knowledge
    base raises or no longer holds it, planning raises; the fallback
    plan is not used then. *)
Theorem plan_task_reuses_first_match (env : Env) (task : Task)
    (before after : list KBTask) (similar_task : KBTask) :
  search_similar_tasks env (t_description task)
  = inr (before ++ similar_task :: after)%list →
  reuse_similar_plans env = true →
  Forall (λ s, reusable task s = false) before →
  reusable task similar_task = true →
  kb_id similar_task ≠ "" →
  plan_task env task
  = match kb_get_task env (kb_id similar_task) with
    | inl e => inl e
    | inr None => inl (RuntimeError "'NoneType' object has no attribute 'get'")
    | inr (Some stored) => inr (_create_plan_from_similar_task task stored)
    end.
Proof.
  intros Hsearch Hreuse Hbefore Hsim Hid. unfold plan_task.
  rewrite Hsearch, Hreuse, filter_app, filter_cons, decide_True by done.
  assert (filter (λ s, reusable task s = true) before = []) as ->.
  { clear -Hbefore. induction Hbefore as [|s l Hs _ IH]; [done|].
    rewrite filter_cons, decide_False by congruence. done. }
  simpl. by rewrite bool_decide_eq_false_2.
Qed.

Lemma plan_task_reuses_first_match_witness :
  let other := mkKBTask "k0" "restore" "succeeded" ∅ [] in
  let similar := mkKBTask "k1" "demo" "succeeded" ∅ [] in
  let stored :=
    mkKBTask "k1" "demo" "succeeded" ∅
      [mkKBStep "prepare" (Some "failed") None;
       mkKBStep "change" (Some "succeeded") (Some "validation")] in
  let env := mkEnv (λ _, inr [other; similar]) (λ _, inr (Some stored))
               failing_chain true [] (registry ok_backends) (λ _ _, inr tt) in
  plan_task env demo_task
  = inr (mkPlan "t1" "Plan for demo based on similar task k1"
           [full_step "change" "validation" false false ∅]).
Proof.
  intros other similar stored env.
  assert (Forall (λ s, reusable demo_task s = false) [other]) as Hbefore
    by (apply Forall_cons_2; [reflexivity|apply Forall_nil_2]).
  assert (reusable demo_task similar = true) as Hsim by reflexivity.
  assert (kb_id similar ≠ "") as Hid by discriminate.
  exact (plan_task_reuses_first_match env demo_task [other] [] similar
           eq_refl eq_refl Hbefore Hsim Hid).
Defined.
(** X19. The default checks cannot hold up or fail a task: they come after
    the steps of the planner, which stay as they are, at most three of
    them; none asks for approval, so a plan without approval gate stays
    without; and each goes to a registered agent that returns with the
    status success whatever the task. *)
Theorem default_checks_do_not_block (checks : list string) (plan : Plan)
    (b : Backends) :
  let plan' := _add_default_checks checks plan in
  ∃ added,
    plan_steps plan' = (plan_steps plan ++ added)%list
    ∧ length added ≤ 3
    ∧ (∀ i, gate_free i plan → gate_free i plan')
    ∧ Forall (λ step,
        ∃ agent, registry b !! default "execution" (p_agent_type step) = Some agent
                 ∧ ∀ task i, ∃ r, agent task step i = inr r ∧ r_status r = "success")
        added.
Proof.
  intros plan'. eexists. split; [reflexivity|].
  assert (∀ P : PlanStep → Prop,
            P (full_step "Perform syntax validation on executed commands"
                 "validation" false false {["type" := PyStr "syntax"]}) →
            P (full_step "Perform security scan on changes"
                 "validation" false true {["type" := PyStr "security"]}) →
            P (full_step "Assess impact of changes"
                 "diagnostics" false false {["type" := PyStr "impact"]}) →
            Forall P
              ((if bool_decide ("syntax_validation" ∈ checks)
                then [full_step "Perform syntax validation on executed commands"
                        "validation" false false {["type" := PyStr "syntax"]}]
                else [])
               ++ (if bool_decide ("security_scan" ∈ checks)
                   then [full_step "Perform security scan on changes"
                           "validation" false true {["type" := PyStr "security"]}]
                   else [])
               ++ (if bool_decide ("impact_assessment" ∈ checks)
                   then [full_step "Assess impact of changes"
                           "diagnostics" false false {["type" := PyStr "impact"]}]
                   else []))%list) as Hall.
  { intros P H1 H2 H3.
    repeat (apply Forall_app; split);
      destruct (bool_decide _); by repeat constructor. }
  split; [|split].
  - rewrite !length_app. repeat destruct (bool_decide _); simpl; lia.
  - intros i Hfree j step Hi Hj. simpl in Hj.
    apply lookup_app_Some in Hj as [Hj|[_ Hj]]; [by apply (Hfree j)|].
    apply list_elem_of_lookup_2 in Hj. revert step Hj. apply Forall_forall.
    by apply Hall.
  - apply Hall.
    + eexists. split; [reflexivity|]. intros task i. by eexists.
    + eexists. split; [reflexivity|]. intros task i. by eexists.
    + eexists. split; [reflexivity|]. intros task i. by eexists.
Qed.

Section Similarity.

Lemma py_eqb_sym (v w : pyval) : py_eqb v w = py_eqb w v.
Proof.
  revert w.
  induction v as [| | | |items IH] using
    (fix ind (P : pyval → Prop) (h0 : P PyNone) (h1 : ∀ b, P (PyBool b))
         (h2 : ∀ z, P (PyInt z)) (h3 : ∀ s, P (PyStr s))
         (h4 : ∀ l, Forall P l → P (PyList l)) (v : pyval) {struct v} : P v :=
       match v with
       | PyNone => h0 | PyBool b => h1 b | PyInt z => h2 z | PyStr s => h3 s
       | PyList l =>
           h4 l ((fix all (l : list pyval) : Forall P l :=
                    match l with
                    | [] => Forall_nil_2 P
                    | x :: l => Forall_cons_2 P x l (ind P h0 h1 h2 h3 h4 x) (all l)
                    end) l)
       end);
    intros [|c|z'|s'|items']; simpl; try done;
    try (destruct b); try (destruct c); simpl; try done;
    try (apply bool_decide_ext; split; congruence).
  revert items'. induction IH as [|x l Hx _ IHl]; intros [|y l']; try done.
  by rewrite Hx, (IHl l').
Qed.

Lemma value_match_sym params1 params2 key :
  value_match params1 params2 key = value_match params2 params1 key.
Proof.
  unfold value_match.
  destruct (params1 !! key), (params2 !! key); try done. apply py_eqb_sym.
Qed.

Lemma value_matches_sym params1 params2 :
  value_matches params1 params2 = value_matches params2 params1.
Proof.
  unfold value_matches, shared_keys.
  rewrite (intersection_comm_L (dom params1)). f_equal.
  induction (elements (dom params2 ∩ dom params1)) as [|key l IH]; [done|].
  rewrite !filter_cons, IH, (value_match_sym params1 params2 key).
  done.
Qed.

End Similarity.

(** X20. The similarity of two parameter mappings does not depend on
    which comes first, so a new task is as close to a recorded one as
    the recorded one is to it. *)
Theorem parameter_similarity_symmetric (params1 params2 : gmap string pyval) :
  _parameter_similarity params1 params2 = _parameter_similarity params2 params1.
Proof.
  unfold _parameter_similarity, shared_keys, all_keys.
  rewrite (andb_comm (bool_decide (params1 = ∅))),
    (orb_comm (bool_decide (params1 = ∅))),
    (intersection_comm_L (dom params1)), (union_comm_L (dom params1)),
    (value_matches_sym params1).
  done.
Qed.

(** X21. Learning needs every succeeded step to carry a result whose
    details can be searched: a succeeded step without a result, or with
    a result whose details are [None], as the result of the task
    manager agent is, makes [learn_from_task] raise, whatever the
    knowledge base does. *)
Theorem learning_needs_details (learning_threshold : float)
    (add_task : Task → exn + unit) (add_script : pyval → pyval → exn + unit)
    (task_id : string) (task : Task) (step : Step) :
  step ∈ t_steps task →
  s_status step = "succeeded" →
  s_result step = None ∨ (∃ r, s_result step = Some r ∧ r_details r = DetNone) →
  ∃ e, LearningAgent_learn_from_task learning_threshold add_task add_script
         task_id task = inl e.
Proof.
  intros Hin Hst Hres.
  assert (∃ e, learn_step step = inl e) as [e He].
  { unfold learn_step. rewrite bool_decide_eq_true_2 by done.
    destruct Hres as [->|(r & -> & ->)]; by eexists. }
  assert (∃ e', learn_steps (t_steps task) = inl e') as [e' He'].
  { clear -Hin He. revert Hin. generalize (t_steps task). intros steps.
    induction steps as [|x l IH]; intros Hin; [by apply elem_of_nil in Hin|].
    simpl. apply elem_of_cons in Hin as [<-|Hin].
    - rewrite He. by eexists.
    - destruct (learn_step x); simpl; [by eexists|].
      destruct (IH Hin) as [e' ->]. by eexists. }
  unfold LearningAgent_learn_from_task. rewrite He'. by eexists.
Qed.

Lemma learning_needs_details_witness :
  let r := mkStepResult "success" "Task manager coordinated step execution" DetNone in
  let step := mkStep "coordinate" "succeeded" 4 9 (Some r) None in
  let task := mkTask "t1" "demo" "x" ∅ "low" "succeeded" 0 11 [step] None None in
  TaskManagerAgent_execute_step demo_task
    (full_step "coordinate" "task_manager" false false ∅) 0 = inr r
  ∧ ∃ e, LearningAgent_learn_from_task f0_8 (λ _, inr tt) (λ _ _, inr tt) "t1" task
         = inl e.
Proof.
  intros r step task. split; [reflexivity|].
  assert (step ∈ t_steps task) as Hin by apply list_elem_of_here.
  assert (s_result step = None ∨ (∃ r, s_result step = Some r ∧ r_details r = DetNone))
    as Hres by (right; exists r; split; reflexivity).
  exact (learning_needs_details f0_8 (λ _, inr tt) (λ _ _, inr tt) "t1" task step
           Hin eq_refl Hres).
Defined.
(** * Lifecycle *)

Section Lifecycle.

Lemma cancel_all_spec (ids : list string) : ∀ o,
  (∀ id, id ∈ ids → is_Some (tasks o !! id)) →
  ∃ o', cancel_all ids o = (inr tt, o')
        ∧ (∀ id, id ∈ active_tasks o' ↔ id ∈ active_tasks o ∧ id ∉ ids)
        ∧ dom (tasks o') = dom (tasks o)
        ∧ ∀ id t, tasks o !! id = Some t →
            ∃ t', tasks o' !! id = Some t'
                  ∧ t_steps t' = t_steps t ∧ t_result t' = t_result t
                  ∧ t_error t' = t_error t
                  ∧ (id ∈ ids → t_status t' = "cancelled")
                  ∧ (id ∉ ids → t' = t).
Proof.
  induction ids as [|id0 ids IH]; intros o Hstored.
  - exists o. split; [done|]. split; [|split; [done|]].
    + intros id. split; [|by intros []]. intros Hin. split; [done|].
      apply not_elem_of_nil.
    + intros id t Ht. exists t. repeat split; try done.
      intros Hin. by apply elem_of_nil in Hin.
  - destruct (Hstored id0) as [t0 Ht0]; [apply list_elem_of_here|].
    simpl. unfold mbind, M_bind. rewrite (cancel_task_ok o id0 t0 Ht0).
    destruct (IH (mkOrch (<[id0 := set_status (value CANCELLED) (clock o) t0]> (tasks o))
                    (active_tasks o ∖ {[id0]}) (S (clock o))))
      as (o' & -> & Hact & Hdom & Htasks).
    { intros id Hin. simpl. destruct (decide (id = id0)) as [->|Hne].
      - by rewrite lookup_insert_eq.
      - rewrite lookup_insert_ne by done. apply Hstored.
        by apply list_elem_of_further. }
    exists o'. split; [done|]. split; [|split].
    + intros id. rewrite Hact. simpl. rewrite elem_of_difference, elem_of_singleton,
        elem_of_cons.
      split; [intros [[? ?] ?]|intros [? Hn]]; (split; [|tauto]); tauto.
    + rewrite Hdom. simpl. apply dom_insert_lookup_L. by rewrite Ht0.
    + intros id t Ht. destruct (decide (id = id0)) as [->|Hne].
      * assert (t0 = t) as -> by congruence.
        destruct (Htasks id0 (set_status (value CANCELLED) (clock o) t))
          as (t' & Ht' & Hs & Hr & He & Hin & Hout); [apply lookup_insert_eq|].
        exists t'. split; [done|]. split; [done|]. split; [done|]. split; [done|].
        split.
        -- intros _. destruct (decide (id0 ∈ ids)) as [Hi|Hi]; [by apply Hin|].
           by rewrite (Hout Hi).
        -- intros Hn. destruct Hn. apply list_elem_of_here.
      * destruct (Htasks id t) as (t' & Ht' & Hs & Hr & He & Hin & Hout).
        { simpl. by rewrite lookup_insert_ne. }
        exists t'. split; [done|]. split; [done|]. split; [done|]. split; [done|].
        split.
        -- intros Hi. apply elem_of_cons in Hi as [?|Hi]; [done|by apply Hin].
        -- intros Hn. apply Hout. intros Hi. apply Hn. by apply list_elem_of_further.
Qed.

End Lifecycle.

Section Registered.
Context (env : Env) (task_id : string).

Lemma run_active sched s :
  active_tasks (orch (run env task_id sched s)) ⊆ active_tasks (orch s).
Proof.
  revert s. induction sched as [|ev sched IH]; intros s; [done|].
  simpl. intros x Hx. apply IH in Hx.
  by apply (sys_step_active env task_id s ev).
Qed.

Lemma run_dom sched s :
  dom (tasks (orch (run env task_id sched s))) = dom (tasks (orch s)).
Proof.
  revert s. induction sched as [|ev sched IH]; intros s; [done|].
  simpl. rewrite IH.
  destruct (sys_step_writes env task_id s ev) as (id & Hw & _).
  by apply (writes_dom id).
Qed.

End Registered.

(** X22. Every active task is a stored task: nothing is registered in
    [active_tasks] without being in [tasks], when a task is created
    and whatever its worker and its callers do afterwards. *)
Theorem active_tasks_are_stored (env : Env) (o : Orchestrator)
    (task_id task_type description : string) (parameters : gmap string pyval)
    (priority : string) (sched : list event) :
  active_tasks o ⊆ dom (tasks o) →
  let s := run env task_id sched
             (spawn o task_id task_type description parameters priority) in
  active_tasks (orch s) ⊆ dom (tasks (orch s)).
Proof.
  intros Hinv s x Hx. subst s. rewrite run_dom. apply run_active in Hx.
  simpl in *. rewrite dom_insert_L.
  apply elem_of_union in Hx as [Hx|Hx]; [by apply elem_of_union_l|].
  apply elem_of_union_r. by apply Hinv.
Qed.

Lemma active_tasks_are_stored_witness :
  let s := run (env_with_plan plan_gated) "t1" (replicate 10 Work)
             (spawn empty_orchestrator "t1" "demo" "x" ∅ "low") in
  active_tasks (orch s) ⊆ dom (tasks (orch s)).
Proof.
  assert (active_tasks empty_orchestrator ⊆ dom (tasks empty_orchestrator)) as Hinv.
  { intros x Hx. by apply elem_of_empty in Hx. }
  exact (active_tasks_are_stored (env_with_plan plan_gated) empty_orchestrator
           "t1" "demo" "x" ∅ "low" (replicate 10 Work) Hinv).
Defined.

(** X23. Stopping a running orchestrator cancels exactly the active tasks:
    [stop] returns, every task that was active has the status
    cancelled and keeps its steps, result and error, every other task
    is left as it was, no task is active any more, no task is removed,
    and the orchestrator and all its agents are stopped, the disabled
    ones included. *)
Theorem stop_cancels_active_tasks (order : list string) (sv : Service) :
  is_running sv = true →
  (∀ id, id ∈ order ↔ id ∈ active_tasks (engine sv)) →
  active_tasks (engine sv) ⊆ dom (tasks (engine sv)) →
  ∃ sv',
    stop order sv = (inr tt, sv')
    ∧ is_running sv' = false ∧ shutdown_flag sv' = true
    ∧ active_tasks (engine sv') = ∅
    ∧ dom (tasks (engine sv')) = dom (tasks (engine sv))
    ∧ (∀ id t, tasks (engine sv) !! id = Some t →
         ∃ t', tasks (engine sv') !! id = Some t'
               ∧ t_steps t' = t_steps t ∧ t_result t' = t_result t
               ∧ t_error t' = t_error t
               ∧ (id ∈ active_tasks (engine sv) → t_status t' = "cancelled")
               ∧ (id ∉ active_tasks (engine sv) → t' = t))
    ∧ (∀ name a, agent_flags sv' !! name = Some a → a_is_running a = false)
    ∧ dom (agent_flags sv') = dom (agent_flags sv).
Proof.
  intros Hrun Horder Hinv. unfold stop. rewrite Hrun. simpl.
  destruct (cancel_all_spec order (engine sv))
    as (o' & -> & Hact & Hdom & Htasks).
  { intros id Hin. apply elem_of_dom, Hinv, Horder, Hin. }
  eexists. split; [done|]. simpl. split; [done|]. split; [done|].
  split; [|split; [done|split; [|split]]].
  - apply set_eq. intros id. rewrite Hact, <- Horder.
    split; [tauto|]. intros Hin. by apply elem_of_empty in Hin.
  - intros id t Ht. destruct (Htasks id t Ht) as (t' & Ht' & ? & ? & ? & Hin & Hout).
    exists t'. rewrite <- Horder. done.
  - intros name a Ha. rewrite lookup_fmap in Ha.
    destruct (agent_flags sv !! name) as [a0|]; [|done]. simpl in Ha.
    injection Ha as <-. unfold agent_stop. by destruct (a_is_running a0) eqn:E.
  - apply dom_fmap_L.
Qed.

Lemma stop_cancels_active_tasks_witness :
  let o := orch (run (env_with_plan plan_gated) "t1" (replicate 10 Work)
                   (spawn empty_orchestrator "t1" "demo" "x" ∅ "low")) in
  let sv := start (λ name, bool_decide (name ≠ "learning"))
              (mkService o false false
                 ((λ _, mkAgentFlags false false) <$> registry ok_backends)) in
  ∃ sv', stop ["t1"] sv = (inr tt, sv')
         ∧ is_running sv' = false
         ∧ ∃ t', tasks (engine sv') !! "t1" = Some t' ∧ t_status t' = "cancelled".
Proof.
  intros o sv.
  pose (t := default demo_task (tasks o !! "t1")).
  assert (is_running sv = true) as Hrun by reflexivity.
  assert (active_tasks (engine sv) = {["t1"]}) as Hact by (vm_compute; reflexivity).
  assert (tasks (engine sv) !! "t1" = Some t) as Ht by (vm_compute; reflexivity).
  assert (∀ id, id ∈ ["t1"] ↔ id ∈ active_tasks (engine sv)) as Horder.
  { intros id. rewrite Hact, list_elem_of_singleton, elem_of_singleton.
    reflexivity. }
  assert (active_tasks (engine sv) ⊆ dom (tasks (engine sv))) as Hinv.
  { rewrite Hact. intros id Hid. apply elem_of_singleton in Hid as ->.
    apply elem_of_dom. rewrite Ht. exists t. reflexivity. }
  destruct (stop_cancels_active_tasks ["t1"] sv Hrun Horder Hinv)
    as (sv' & Hstop & Hr & _ & _ & _ & Htasks & _).
  exists sv'. split; [exact Hstop|]. split; [exact Hr|].
  destruct (Htasks "t1" t Ht) as (t' & Ht' & _ & _ & _ & Hin & _).
  exists t'. split; [exact Ht'|]. apply Hin. rewrite Hact.
  apply elem_of_singleton. reflexivity.
Defined.

(** X24. Starting and stopping are idempotent: [start] on a running
    orchestrator and [stop] on a stopped one change nothing, so a second
    [start] is the first, and a [stop] after a [stop] that returned
    returns and leaves every task, flag and agent as it is. *)
Theorem start_stop_idempotent (enabled enabled' : string → bool)
    (order order' : list string) (sv sv' : Service) :
  start enabled' (start enabled sv) = start enabled sv
  ∧ is_running (start enabled sv) = true
  ∧ (stop order sv = (inr tt, sv') → stop order' sv' = (inr tt, sv')).
Proof.
  split; [|split].
  - unfold start. by destruct (is_running sv) eqn:E; simpl; rewrite ?E.
  - unfold start. by destruct (is_running sv) eqn:E.
  - unfold stop. destruct (is_running sv) eqn:E; simpl.
    + destruct (cancel_all order (engine sv)) as [[e|[]] o]; [done|].
      by intros [= <-].
    + intros [= <-]. by rewrite E.
Qed.
(** * The safety check of the execution agent *)

Section Substrings.

Lemma substring_prefix (a b : string) : ∀ (n : nat) (s : string),
  String.substring n (String.length (a +:+ b)) s = a +:+ b →
  String.substring n (String.length a) s = a.
Proof.
  assert (∀ s, String.substring 0 (String.length (a +:+ b)) s = a +:+ b →
               String.substring 0 (String.length a) s = a) as H0.
  { induction a as [|c a IH]; intros s; simpl.
    - intros _. by destruct s.
    - destruct s as [|c' s]; [done|]. intros [= -> Hs]. simpl. f_equal. by apply IH. }
  induction n as [|n IH]; intros s; [apply H0|].
  destruct s as [|c s]; simpl.
  - destruct a; simpl; [done|discriminate].
  - apply IH.
Qed.

Lemma contains_prefix (a b command : string) :
  a ≠ "" → contains (a +:+ b) command = true → contains a command = true.
Proof.
  intros Ha. unfold contains. rewrite !bool_decide_eq_true.
  intros [m Hm]. apply String.index_correct1 in Hm. apply substring_prefix in Hm.
  destruct (String.index 0 a command) as [k|] eqn:Hk; [by eexists|].
  by destruct (String.index_correct3 0 m a command Hk Ha (Nat.le_0_l m)).
Qed.

Lemma check_patterns_returns patterns command :
  check_patterns patterns command = inr tt
  ↔ Forall (λ pattern, contains pattern command = false) patterns.
Proof.
  induction patterns as [|p l IH]; simpl.
  - split; [intros _; apply Forall_nil_2|done].
  - destruct (contains p command) eqn:Hp.
    + split; [done|]. intros H. apply Forall_cons_1 in H as [H _]. congruence.
    + rewrite IH. split; [by apply Forall_cons_2|].
      intros H. by apply Forall_cons_1 in H as [_ H].
Qed.

End Substrings.

(** X25. A local command that contains a dangerous pattern is not run
    when commands are validated: the result of [_execute_local_command]
    is the same whatever the shell would do, has the status error and
    names a pattern of the list that the command contains, which is
    never ["rm -rf /*"], the pattern ["rm -rf /"] before it being part
    of it. When validation is off the command goes to the shell. *)
Theorem dangerous_command_is_not_run (shell : string → StepResult)
    (command pattern : string) :
  pattern ∈ dangerous_patterns → contains pattern command = true →
  (∃ reported,
     reported ∈ dangerous_patterns ∧ reported ≠ "rm -rf /*"
     ∧ contains reported command = true
     ∧ _validate_command_safety command
       = inl (ValueError ("Dangerous command pattern detected: " ++ reported))
     ∧ ∀ shell',
         _execute_local_command true shell' command
         = mkStepResult "error"
             ("Error executing command: Dangerous command pattern detected: "
              ++ reported)
             (DetDict {[ "command" := PyStr command;
                         "exception" :=
                           PyStr ("Dangerous command pattern detected: " ++ reported) ]}))
  ∧ _execute_local_command false shell command = shell command.
Proof.
  intros Hin Hc. split; [|done].
  assert (contains "rm -rf /*" command = true → contains "rm -rf /" command = true)
    as Hshadow by (by apply (contains_prefix "rm -rf /" "*")).
  assert (∃ reported, reported ∈ dangerous_patterns ∧ reported ≠ "rm -rf /*"
            ∧ contains reported command = true
            ∧ _validate_command_safety command
              = inl (ValueError ("Dangerous command pattern detected: " ++ reported)))
    as (reported & Hr & Hne & Hrc & Hv).
  { unfold _validate_command_safety, dangerous_patterns in *. simpl.
    destruct (contains "rm -rf /" command) eqn:H1.
    { exists "rm -rf /". split; [in_list|]. by repeat split. }
    destruct (contains "rm -rf /*" command) eqn:H2; [by specialize (Hshadow eq_refl)|].
    clear Hshadow.
    repeat match goal with
    | |- context [if contains ?p command then _ else _] =>
        let H := fresh "H" in
        destruct (contains p command) eqn:H;
          [exists p; split; [in_list|]; by repeat split|]
    end.
    exfalso. repeat (apply elem_of_cons in Hin as [->|Hin]; [congruence|]).
    by apply elem_of_nil in Hin. }
  exists reported. split; [done|]. split; [done|]. split; [done|]. split; [done|].
  intros shell'. unfold _execute_local_command. by rewrite Hv.
Qed.

Lemma dangerous_command_is_not_run_witness :
  let command := "sudo rm -rf /* --no-preserve-root" in
  ("rm -rf /*" ∈ dangerous_patterns ∧ contains "rm -rf /*" command = true)
  ∧ ∃ reported,
      reported ≠ "rm -rf /*"
      ∧ _validate_command_safety command
        = inl (ValueError ("Dangerous command pattern detected: " ++ reported)).
Proof.
  intros command.
  assert ("rm -rf /*" ∈ dangerous_patterns) as Hin by in_list.
  assert (contains "rm -rf /*" command = true) as Hc by reflexivity.
  split; [exact (conj Hin Hc)|].
  destruct (dangerous_command_is_not_run (λ _, unknown_execution_type) command
              "rm -rf /*" Hin Hc) as [(reported & _ & Hne & _ & Hv & _) _].
  exists reported. exact (conj Hne Hv).
Defined.

(** X26. The check passes exactly the commands that contain none of
    the patterns, and with validation on those go to the shell
    unchanged. *)
Theorem safe_command_is_run (command : string) :
  (_validate_command_safety command = inr tt
   ↔ Forall (λ pattern, contains pattern command = false) dangerous_patterns)
  ∧ (Forall (λ pattern, contains pattern command = false) dangerous_patterns →
     ∀ shell, _execute_local_command true shell command = shell command).
Proof.
  split; [apply check_patterns_returns|].
  intros Hall shell. apply check_patterns_returns in Hall.
  unfold _execute_local_command, _validate_command_safety in *. by rewrite Hall.
Qed.
